(** * The simulated camera of [microscope.testsuite.devices]

    A shallow embedding of [_theta_generator], [_ImageGenerator],
    [TestCamera] and the stage, light source and DSP stand-ins from
    [src/microscope/testsuite/devices.py], followed by the properties of the
    synthetic image generator, of the simulated acquisition cycle and of
    the other devices.

    Conventions of the embedding:
    - Python exceptions are outcomes [Raise e]; a method of an object is a
      function from the object's state to an outcome and the next state, so
      that a mutation made before a [raise] is kept, as in Python.
    - Python and numpy floating-point values are modelled in exact rational
      arithmetic ([Q]), together with the non-finite values an IEEE division
      or remainder by zero produces.  Rounding is not modelled.  Where the
      overflow of a float decides what the code does, in the stage, the
      float operations are a parameter ([FloatOps]) with the IEEE facts the
      properties use.
    - The arithmetic of numpy's int64 arrays wraps, and is modelled with
      its wrap ([wrap_int64]) wherever a value handed to the generator or
      the square of a coordinate can reach the limits of int64.
    - Memory is not modelled: a frame of any size that is not negative can
      be built, and a size is taken to lie within int64 where numpy is
      handed one ([np.random.randint(w)]).
    - [sin], [cos] and [exp] belong to the C library; they are a parameter
      ([Libm]) of the embedding.  The font and the text rasteriser belong to
      PIL; they are a parameter ([Font]) too.
    - Random draws are functions of raw entropy supplied by the caller, so
      that "for every draw" is a universal quantification. *)

From Stdlib Require Import String DecimalString.
From Stdlib Require Import ZArith QArith Qround List Bool Lia Lqa.
Import ListNotations.
Local Open Scope Z_scope.

(** ** Python outcomes *)

Inductive exn : Type :=
| DisabledDeviceError   (* microscope.DisabledDeviceError *)
| DeviceError           (* microscope.DeviceError *)
| ValueError
| IndexError
| ZeroDivisionError.

Inductive outcome (A : Type) : Type :=
| Ret (a : A)
| Raise (e : exn).
Arguments Ret {A} a.
Arguments Raise {A} e.

Definition is_raise {A} (o : outcome A) : bool :=
  match o with Ret _ => false | Raise _ => true end.

(** Exception-only computations (no state). *)
Definition obind {A B} (o : outcome A) (k : A -> outcome B) : outcome B :=
  match o with
  | Ret a => k a
  | Raise e => Raise e
  end.

Notation "x <-- c ;; k" := (obind c (fun x => k))
  (at level 61, c at next level, right associativity).

(** Stateful computations over an object of type [S]. *)
Definition M (S A : Type) : Type := S -> outcome A * S.

Definition ret {S A} (a : A) : M S A := fun s => (Ret a, s).
Definition throw {S A} (e : exn) : M S A := fun s => (Raise e, s).
Definition bind {S A B} (c : M S A) (k : A -> M S B) : M S B :=
  fun s =>
    match c s with
    | (Ret a, s') => k a s'
    | (Raise e, s') => (Raise e, s')
    end.
Definition get {S} : M S S := fun s => (Ret s, s).
Definition modify {S} (f : S -> S) : M S unit := fun s => (Ret tt, f s).
Definition lift {S A} (o : outcome A) : M S A := fun s => (o, s).

Notation "x <- c ; k" := (bind c (fun x => k))
  (at level 61, c at next level, right associativity).
Notation "c ;;; k" := (bind c (fun _ => k))
  (at level 61, right associativity).

(** ** Python and numpy primitives *)

(** [t[i]] on a tuple, with Python's negative indices. *)
Definition py_getitem {A} (t : list A) (i : Z) : outcome A :=
  let n := Z.of_nat (length t) in
  let j := if i <? 0 then i + n else i in
  if (0 <=? j) && (j <? n) then
    match nth_error t (Z.to_nat j) with
    | Some a => Ret a
    | None => Raise IndexError
    end
  else Raise IndexError.

(** [a // b] on Python ints. *)
Definition py_floordiv (a b : Z) : outcome Z :=
  if b =? 0 then Raise ZeroDivisionError else Ret (a / b).

(** [x % y] on Python floats, for [y <> 0]: the result has the sign of [y]. *)
Definition Qmod (x y : Q) : Q :=
  (x - y * inject_Z (Qfloor (x / y)))%Q.

(** ["%d" % n]. *)
Definition format_d (n : Z) : string :=
  NilZero.string_of_int (Z.to_int n).

(** [random.randint(a, b)]: an integer of the closed range [a..b]. *)
Definition random_randint (a b : Z) (entropy : Z) : outcome Z :=
  if a <=? b then Ret (a + entropy mod (b - a + 1)) else Raise ValueError.

(** [np.random.randint(low, high)]: an integer of the half-open range
    [low..high-1]; numpy raises [ValueError] when [low >= high].  The
    generator calls it with 0 and a size of the frame. *)
Definition np_random_randint (low high : Z) (entropy : Z) : outcome Z :=
  if low <? high then Ret (low + entropy mod (high - low))
  else Raise ValueError.

(** [np.random.rand()]: a float of [0, 1). *)
Definition np_random_rand (entropy : Z) : Q :=
  (entropy mod 2 ^ 53) # (2 ^ 53).

(** [int(x)] on a float: truncation towards zero. *)
Definition py_int (x : Q) : Z := Z.quot (Qnum x) (Zpos (Qden x)).

(** *** Array elements *)

(** A float64 value: finite, infinite (with its sign) or not-a-number.
    Integer array elements are the finite values with an integer inside. *)
Inductive num : Type :=
| Fin (q : Q)
| Inf (negative : bool)
| NaN.

Definition Qltb (a b : Q) : bool := negb (Qle_bool b a).

Definition of_Z (z : Z) : num := Fin (inject_Z z).

Definition nadd (a b : num) : num :=
  match a, b with
  | NaN, _ | _, NaN => NaN
  | Fin x, Fin y => Fin (x + y)
  | Inf s, Fin _ | Fin _, Inf s => Inf s
  | Inf s, Inf t => if Bool.eqb s t then Inf s else NaN
  end.

Definition nmul (a b : num) : num :=
  match a, b with
  | NaN, _ | _, NaN => NaN
  | Fin x, Fin y => Fin (x * y)
  | Inf s, Fin y | Fin y, Inf s =>
      if Qeq_bool y 0 then NaN else Inf (xorb s (Qltb y 0))
  | Inf s, Inf t => Inf (xorb s t)
  end.

(** True division; the divisors of this program are never negative zero. *)
Definition ndiv (a b : num) : num :=
  match a, b with
  | NaN, _ | _, NaN => NaN
  | Fin x, Fin y =>
      if Qeq_bool y 0
      then (if Qeq_bool x 0 then NaN else Inf (Qltb x 0))
      else Fin (x / y)
  | Fin _, Inf _ => Fin 0
  | Inf s, Fin y => Inf (xorb s (Qltb y 0))
  | Inf _, Inf _ => NaN
  end.

(** [np.mod] on floats: Python's sign convention, [nan] for a zero divisor. *)
Definition nmod (a b : num) : num :=
  match a, b with
  | NaN, _ | _, NaN => NaN
  | Inf _, _ => NaN
  | Fin x, Fin y => if Qeq_bool y 0 then NaN else Fin (Qmod x y)
  | Fin x, Inf s =>
      if Qeq_bool x 0 || Bool.eqb (Qltb x 0) s then Fin x else Inf s
  end.

Definition nneg (a : num) : num :=
  match a with
  | Fin x => Fin (- x)
  | Inf s => Inf (negb s)
  | NaN => NaN
  end.

(** *** Arrays *)

Inductive dtype : Type := uint8 | uint16 | float64 | int64.

(** [issubclass(d, np.integer)] *)
Definition is_integer (d : dtype) : bool :=
  match d with float64 => false | _ => true end.

(** [np.iinfo(d).max] *)
Definition iinfo_max (d : dtype) : Z :=
  match d with
  | uint8 => 255
  | uint16 => 65535
  | int64 => 2 ^ 63 - 1
  | float64 => 0
  end.

(** A two-dimensional array: its element type, its shape (rows, columns)
    and its rows. *)
Record ndarray : Type := mk_ndarray {
  arr_dtype : dtype;
  shape : nat * nat;
  elems : list (list num)
}.

Definition tabulate {A} (h w : nat) (f : nat -> nat -> A) : list (list A) :=
  map (fun y => map (fun x => f x y) (seq 0 w)) (seq 0 h).

Definition array_of (d : dtype) (h w : nat) (f : nat -> nat -> num) : ndarray :=
  mk_ndarray d (h, w) (tabulate h w f).

(** Element [a[y, x]]. *)
Definition item (a : ndarray) (y x : nat) : num :=
  nth x (nth y (elems a) []) NaN.

(** The shape tuple [(h, w)] handed to numpy: negative sizes are refused. *)
Definition check_shape (h w : Z) : outcome (nat * nat) :=
  if (h <? 0) || (w <? 0) then Raise ValueError
  else Ret (Z.to_nat h, Z.to_nat w).

(** [np.meshgrid(range(w), range(h))]: xx[y, x] = x and yy[y, x] = y. *)
Definition meshgrid (w h : Z) : list (list Z) * list (list Z) :=
  (tabulate (Z.to_nat h) (Z.to_nat w) (fun x _ => Z.of_nat x),
   tabulate (Z.to_nat h) (Z.to_nat w) (fun _ y => Z.of_nat y)).

(** [a.max()]: numpy raises [ValueError] on an empty array. *)
Definition amax (a : list (list Z)) : outcome Z :=
  match concat a with
  | [] => Raise ValueError
  | z :: zs => Ret (fold_left Z.max zs z)
  end.

Fixpoint zip_with {A B C} (f : A -> B -> C) (l : list A) (l' : list B)
  : list C :=
  match l, l' with
  | a :: t, b :: t' => f a b :: zip_with f t t'
  | _, _ => []
  end.

(** An element-wise expression over the two grids of one [meshgrid]. *)
Definition map_grid {A} (f : Z -> Z -> A) (xx yy : list (list Z))
  : list (list A) :=
  zip_with (zip_with f) xx yy.

(** [a.astype(d)] on one element.  Integer targets truncate towards zero
    and keep the low bits (the x86-64 conversion numpy uses; nan and the
    infinities become 0); the float target keeps the value. *)
Definition wrap_bits (bits : Z) (v : num) : num :=
  match v with
  | Fin q => of_Z (py_int q mod 2 ^ bits)
  | _ => of_Z 0
  end.

Definition astype_elt (d : dtype) (v : num) : num :=
  match d with
  | uint8 => wrap_bits 8 v
  | uint16 => wrap_bits 16 v
  | int64 =>
      match v with
      | Fin q => of_Z ((py_int q + 2 ^ 63) mod 2 ^ 64 - 2 ^ 63)
      | _ => of_Z (- 2 ^ 63)
      end
  | float64 => v
  end.

Definition astype (d : dtype) (a : ndarray) : ndarray :=
  mk_ndarray d (shape a) (map (map (astype_elt d)) (elems a)).

(** *** Integers of numpy *)

(** An int64 result keeps the low 64 bits. *)
Definition wrap_int64 (z : Z) : Z := (z + 2 ^ 63) mod 2 ^ 64 - 2 ^ 63.

(** The Python int [z] fits int64. *)
Definition fits_int64 (z : Z) : bool := (- 2 ^ 63 <=? z) && (z <? 2 ^ 63).

(** [light * a] for a Python int [light] and an element [k] of the int64
    array [a].  A [light] that fits int64 leaves the array int64, and the
    product wraps.  numpy (before 2.0; the code names [np.float], which
    numpy 1.24 removed) promotes the array for any other [light], to
    float64 or to Python's integers, and the product does not wrap. *)
Definition int64_scale (light k : Z) : Z :=
  if fits_int64 light then wrap_int64 (light * k) else light * k.

(** [-(dx ** 2 + dy ** 2)] on elements of int64 arrays: the squares, their
    sum and its negation are int64 results. *)
Definition int64_neg_sq_dist (dx dy : Z) : Z :=
  wrap_int64 (- wrap_int64 (wrap_int64 (dx ^ 2) + wrap_int64 (dy ^ 2))).

(** ** External libraries: libm and PIL *)

(** The three libm functions the generator calls, on finite arguments, with
    the one property of [exp] the generator's value range rests on. *)
Record Libm : Type := {
  fsin : Q -> Q;
  fcos : Q -> Q;
  fexp : Q -> Q;
  fexp_unit : forall q : Q, (q <= 0)%Q -> (0 <= fexp q <= 1)%Q
}.

(** [np.exp] on an array element. *)
Definition nexp (lm : Libm) (a : num) : num :=
  match a with
  | Fin q => Fin (fexp lm q)
  | Inf true => Fin 0
  | Inf false => Inf false
  | NaN => NaN
  end.

(** A PIL bitmap font: the size of a text, and which pixels of the text's
    box the rasteriser inks. *)
Record Font : Type := {
  getsize : string -> nat * nat;
  inked : string -> nat -> nat -> bool
}.

(** The ink of an 8-bit image: PIL clips the fill value to 0..255. *)
Definition clip8 (v : Z) : Z := Z.max 0 (Z.min 255 v).

(** [img = Image.new("L", size); ImageDraw.Draw(img).text((1, 1), text,
    fill=fill); np.asarray(img)]: a uint8 array of shape (size[1], size[0]). *)
Definition draw_text (font : Font) (size : nat * nat) (text : string)
    (fill : Z) : ndarray :=
  let '(tw, th) := getsize font text in
  array_of uint8 (snd size) (fst size)
    (fun x y =>
       if (1 <=? x)%nat && (x <=? tw)%nat && (1 <=? y)%nat && (y <=? th)%nat
          && inked font text (x - 1) (y - 1)
       then of_Z (clip8 fill) else of_Z 0).

(** [data[0:s1, 0:s0] = src]: the slice is clipped to the shape of [data];
    [src] must broadcast to the clipped slice, or numpy raises
    [ValueError]. *)
Definition setitem_topleft (data : ndarray) (s1 s0 : nat) (src : ndarray)
  : outcome ndarray :=
  let '(h, w) := shape data in
  let '(sh, sw) := shape src in
  let t1 := Nat.min s1 h in
  let t0 := Nat.min s0 w in
  if ((sh =? t1)%nat || (sh =? 1)%nat) && ((sw =? t0)%nat || (sw =? 1)%nat)
  then
    Ret (array_of (arr_dtype data) h w
           (fun x y =>
              if (y <? t1)%nat && (x <? t0)%nat
              then astype_elt (arr_dtype data)
                     (item src (if (sh =? 1)%nat then 0%nat else y)
                               (if (sw =? 1)%nat then 0%nat else x))
              else item data y x))
  else Raise ValueError.

(** ** [_theta_generator] *)

Definition np_pi : Q := 884279719003555 # 281474976710656.
Definition TWOPI : Q := (2 * np_pi)%Q.

(** The generator object: not yet started, or suspended at its [yield]
    with the local [th]. *)
Inductive theta_generator : Type :=
| Created
| Suspended (th : Q).

(** [next(g)]: runs the generator to its next [yield]. *)
Definition next (g : theta_generator) : Q * theta_generator :=
  match g with
  | Created => (0%Q, Suspended 0%Q)
  | Suspended th =>
      let th' := Qmod (th + (1 # 100) * TWOPI) TWOPI in
      (th', Suspended th')
  end.

(** ** [_ImageGenerator] *)

Inductive method : Type :=
| Noise | Gradient | Sawtooth | OneGaussian | Black | White.

Record ImageGenerator : Type := mk_ImageGenerator {
  _method_index : Z;
  _datatype_index : Z;
  _theta : theta_generator;
  numbering : bool;
  _font : Font
}.

Definition _methods : list method :=
  [Noise; Gradient; Sawtooth; OneGaussian; Black; White].

(** [np.float] is Python's float, a float64. *)
Definition _datatypes : list dtype := [uint8; uint16; float64].

Definition ImageGenerator__init__ (default_font : Font) : ImageGenerator :=
  mk_ImageGenerator 0 0 Created true default_font.

Definition enable_numbering (enab : bool) (self : ImageGenerator)
  : ImageGenerator :=
  mk_ImageGenerator (_method_index self) (_datatype_index self)
    (_theta self) enab (_font self).

Definition set_data_type (index : Z) (self : ImageGenerator)
  : ImageGenerator :=
  mk_ImageGenerator (_method_index self) index
    (_theta self) (numbering self) (_font self).

Definition set_method (index : Z) (self : ImageGenerator) : ImageGenerator :=
  mk_ImageGenerator index (_datatype_index self)
    (_theta self) (numbering self) (_font self).

Definition set_theta (g : theta_generator) (self : ImageGenerator)
  : ImageGenerator :=
  mk_ImageGenerator (_method_index self) (_datatype_index self)
    g (numbering self) (_font self).

Section Strategies.

Variable lm : Libm.
(** The entropy [np.random] consumes during one call, draw by draw. *)
Variable rnd : nat -> Z.

(** [np.zeros((h, w))] *)
Definition black (w h dark light : Z) : M ImageGenerator ndarray :=
  s <- lift (check_shape h w);
  ret (array_of float64 (fst s) (snd s) (fun _ _ => of_Z 0)).

(** [value * np.ones((h, w)).astype(d)] *)
Definition white (w h dark light : Z) : M ImageGenerator ndarray :=
  self <- get;
  d <- lift (py_getitem _datatypes (_datatype_index self));
  let value := if is_integer d then of_Z (iinfo_max d) else Fin 1 in
  s <- lift (check_shape h w);
  let ones := astype d (array_of float64 (fst s) (snd s) (fun _ _ => of_Z 1)) in
  ret (mk_ndarray d (shape ones) (map (map (nmul value)) (elems ones))).

(** [dark + light * (xx + yy) / (xx.max() + yy.max())]: the grids are
    int64 arrays, so the product is [int64_scale]; the division is true
    division, to float64. *)
Definition gradient (w h dark light : Z) : M ImageGenerator ndarray :=
  let '(xx, yy) := meshgrid w h in
  xmax <- lift (amax xx);
  ymax <- lift (amax yy);
  ret (mk_ndarray float64 (Z.to_nat h, Z.to_nat w)
         (map_grid
            (fun x y =>
               nadd (of_Z dark)
                    (ndiv (of_Z (int64_scale light (x + y)))
                          (of_Z (xmax + ymax))))
            xx yy)).

(** [np.random.randint(dark, light, size=(h, w))], with the default dtype
    int64.  For a size without elements numpy (1.17 and later) returns
    [np.empty(size)] before it looks at the bounds.  Otherwise it takes 1
    from [high], refuses a [low] below the least int64, then a [high] above
    the greatest, then [low > high], each with [ValueError], and draws. *)
Definition noise (w h dark light : Z) : M ImageGenerator ndarray :=
  if h * w =? 0 then
    s <- lift (check_shape h w);
    ret (array_of int64 (fst s) (snd s) (fun _ _ => of_Z 0))
  else if dark <? - 2 ^ 63 then throw ValueError
  else if 2 ^ 63 - 1 <? light - 1 then throw ValueError
  else if light - 1 <? dark then throw ValueError
  else
    s <- lift (check_shape h w);
    ret (array_of int64 (fst s) (snd s)
           (fun x y =>
              of_Z (dark + rnd (y * snd s + x) mod (light - dark)))).

Definition one_gaussian (w h dark light : Z) : M ImageGenerator ndarray :=
  let sigma := ((1 # 100) * inject_Z (Z.max w h))%Q in
  x0 <- lift (np_random_randint 0 w (rnd 0));
  y0 <- lift (np_random_randint 0 h (rnd 1));
  let '(xx, yy) := meshgrid w h in
  ret (mk_ndarray float64 (Z.to_nat h, Z.to_nat w)
         (map_grid
            (fun x y =>
               nadd (of_Z dark)
                 (nmul (of_Z light)
                    (nexp lm
                       (ndiv (of_Z (int64_neg_sq_dist (x - x0) (y - y0)))
                             (Fin (2 * sigma ^ 2))))))
            xx yy)).

Definition sawtooth (w h dark light : Z) : M ImageGenerator ndarray :=
  self <- get;
  let '(th, g) := next (_theta self) in
  modify (set_theta g) ;;;
  let '(xx, yy) := meshgrid w h in
  xmax <- lift (amax xx);
  ymax <- lift (amax yy);
  let wrap := Fin ((1 # 10) * inject_Z (Z.max xmax ymax)) in
  ret (mk_ndarray float64 (Z.to_nat h, Z.to_nat w)
         (map_grid
            (fun x y =>
               nadd (of_Z dark)
                 (ndiv
                    (nmul (of_Z light)
                       (nmod (Fin (fsin lm th * inject_Z x
                                   + fcos lm th * inject_Z y))
                             wrap))
                    wrap))
            xx yy)).

(** Calling the bound method stored in [_methods]. *)
Definition call (m : method) : Z -> Z -> Z -> Z -> M ImageGenerator ndarray :=
  match m with
  | Noise => noise
  | Gradient => gradient
  | Sawtooth => sawtooth
  | OneGaussian => one_gaussian
  | Black => black
  | White => white
  end.

Definition get_image (width height dark light : Z) (index : option Z)
  : M ImageGenerator ndarray :=
  self <- get;
  m <- lift (py_getitem _methods (_method_index self));
  d <- lift (py_getitem _datatypes (_datatype_index self));
  raw <- call m width height dark light;
  let data := astype d raw in
  self <- get;
  match numbering self, index with
  | true, Some i =>
      let text := format_d i in
      let '(tw, th) := getsize (_font self) text in
      let size := ((tw + 2)%nat, (th + 2)%nat) in
      let img := draw_text (_font self) size text light in
      lift (setitem_topleft data (snd size) (fst size) img)
  | _, _ => ret data
  end.

End Strategies.

(** ** [TestCamera] *)

(** [microscope.ROI] and [microscope.Binning] are named tuples of ints. *)
Record ROI : Type := mk_ROI {
  roi_left : Z; roi_top : Z; roi_width : Z; roi_height : Z
}.

Record Binning : Type := mk_Binning { binning_h : Z; binning_v : Z }.

(** The attributes of the camera the acquisition cycle reads or writes.
    [_initialized] is false until [initialize] creates the attribute. *)
Record TestCamera : Type := mk_TestCamera {
  _initialized : bool;
  _roi : ROI;
  _binning : Binning;
  _image_generator : ImageGenerator;
  _a_setting : Z;
  _error_percent : Z;
  _gain : Z;
  _acquiring : bool;
  _exposure_time : Q;
  _triggered : Z;
  _sent : Z
}.

Definition set_initialized (b : bool) (c : TestCamera) : TestCamera :=
  mk_TestCamera b (_roi c) (_binning c) (_image_generator c) (_a_setting c)
    (_error_percent c) (_gain c) (_acquiring c) (_exposure_time c)
    (_triggered c) (_sent c).

Definition set_roi (r : ROI) (c : TestCamera) : TestCamera :=
  mk_TestCamera (_initialized c) r (_binning c) (_image_generator c)
    (_a_setting c) (_error_percent c) (_gain c) (_acquiring c)
    (_exposure_time c) (_triggered c) (_sent c).

Definition set_binning (b : Binning) (c : TestCamera) : TestCamera :=
  mk_TestCamera (_initialized c) (_roi c) b (_image_generator c)
    (_a_setting c) (_error_percent c) (_gain c) (_acquiring c)
    (_exposure_time c) (_triggered c) (_sent c).

Definition set_image_generator (g : ImageGenerator) (c : TestCamera)
  : TestCamera :=
  mk_TestCamera (_initialized c) (_roi c) (_binning c) g (_a_setting c)
    (_error_percent c) (_gain c) (_acquiring c) (_exposure_time c)
    (_triggered c) (_sent c).

Definition set_a_setting (v : Z) (c : TestCamera) : TestCamera :=
  mk_TestCamera (_initialized c) (_roi c) (_binning c) (_image_generator c)
    v (_error_percent c) (_gain c) (_acquiring c) (_exposure_time c)
    (_triggered c) (_sent c).

Definition set_error_percent (v : Z) (c : TestCamera) : TestCamera :=
  mk_TestCamera (_initialized c) (_roi c) (_binning c) (_image_generator c)
    (_a_setting c) v (_gain c) (_acquiring c) (_exposure_time c)
    (_triggered c) (_sent c).

Definition set_gain (v : Z) (c : TestCamera) : TestCamera :=
  mk_TestCamera (_initialized c) (_roi c) (_binning c) (_image_generator c)
    (_a_setting c) (_error_percent c) v (_acquiring c) (_exposure_time c)
    (_triggered c) (_sent c).

Definition set_acquiring (b : bool) (c : TestCamera) : TestCamera :=
  mk_TestCamera (_initialized c) (_roi c) (_binning c) (_image_generator c)
    (_a_setting c) (_error_percent c) (_gain c) b (_exposure_time c)
    (_triggered c) (_sent c).

Definition set_exposure (t : Q) (c : TestCamera) : TestCamera :=
  mk_TestCamera (_initialized c) (_roi c) (_binning c) (_image_generator c)
    (_a_setting c) (_error_percent c) (_gain c) (_acquiring c) t
    (_triggered c) (_sent c).

Definition set_triggered (n : Z) (c : TestCamera) : TestCamera :=
  mk_TestCamera (_initialized c) (_roi c) (_binning c) (_image_generator c)
    (_a_setting c) (_error_percent c) (_gain c) (_acquiring c)
    (_exposure_time c) n (_sent c).

Definition set_sent (n : Z) (c : TestCamera) : TestCamera :=
  mk_TestCamera (_initialized c) (_roi c) (_binning c) (_image_generator c)
    (_a_setting c) (_error_percent c) (_gain c) (_acquiring c)
    (_exposure_time c) (_triggered c) n.

(** The decorator [must_be_initialized]. *)
Definition must_be_initialized {A} (f : M TestCamera A) : M TestCamera A :=
  fun self =>
    if _initialized self then f self
    else (Raise DisabledDeviceError, self).

(** A method of [self._image_generator] run on the camera. *)
Definition on_image_generator {A} (c : M ImageGenerator A) : M TestCamera A :=
  fun self =>
    let '(o, g) := c (_image_generator self) in
    (o, set_image_generator g self).

(** [time.sleep(secs)] refuses a negative duration; the delay itself has no
    effect on the state. *)
Definition time_sleep (secs : Q) : outcome unit :=
  if Qltb secs 0 then Raise ValueError else Ret tt.

Definition TestCamera__init__ (default_font : Font) : TestCamera :=
  mk_TestCamera false (mk_ROI 0 0 512 512) (mk_Binning 1 1)
    (ImageGenerator__init__ default_font) 0 0 0 false (1 # 10) 0 0.

Definition _set_error_percent (value : Z) : M TestCamera unit :=
  modify (set_error_percent value) ;;;
  modify (set_a_setting (value / 10)).

Definition _set_gain (value : Z) : M TestCamera unit :=
  modify (set_gain value).

(** Logging only. *)
Definition _purge_buffers : M TestCamera unit := ret tt.

Definition _create_buffers : M TestCamera unit :=
  must_be_initialized _purge_buffers.

Definition abort : M TestCamera unit :=
  self <- get;
  if _acquiring self then modify (set_acquiring false) else ret tt.

Definition initialize : M TestCamera unit :=
  modify (set_initialized true).

Definition _do_disable : M TestCamera unit := abort.

Definition _do_enable : M TestCamera bool :=
  must_be_initialized
    (self <- get;
     (if _acquiring self then abort else ret tt) ;;;
     _create_buffers ;;;
     modify (set_acquiring true) ;;;
     modify (set_sent 0) ;;;
     ret true).

Definition _do_trigger : M TestCamera unit :=
  self <- get;
  if _acquiring self
  then modify (fun s => set_triggered (_triggered s + 1) s)
  else ret tt.

Definition _set_binning (binning : Binning) : M TestCamera unit :=
  modify (set_binning binning).

Definition _set_roi (roi : ROI) : M TestCamera unit :=
  modify (set_roi roi).

Definition set_exposure_time (value : Q) : M TestCamera unit :=
  modify (set_exposure value).

Section Fetch.

Variable lm : Libm.
(** The entropy of [random.randint] and of [np.random] during one call. *)
Variable py_entropy : Z.
Variable np_entropy : nat -> Z.

Definition _fetch_data : M TestCamera (option ndarray) :=
  must_be_initialized
    (self <- get;
     if _acquiring self && (0 <? _triggered self) then
       draw <- lift (random_randint 0 100 py_entropy);
       if draw <? _error_percent self then throw DeviceError
       else
         lift (time_sleep (_exposure_time self)) ;;;
         modify (fun s => set_triggered (_triggered s - 1) s) ;;;
         let dark := py_int (32 * np_random_rand (np_entropy 0%nat)) in
         let light :=
           py_int (255 - 128 * np_random_rand (np_entropy 1%nat)) in
         width <- lift (py_floordiv (roi_width (_roi self))
                                    (binning_h (_binning self)));
         height <- lift (py_floordiv (roi_height (_roi self))
                                     (binning_v (_binning self)));
         image <- on_image_generator
                    (get_image lm (fun i => np_entropy (2 + i)%nat)
                       width height dark light (Some (_sent self)));
         modify (fun s => set_sent (_sent s + 1) s) ;;;
         ret (Some image)
     else ret None).

End Fetch.

(** ** The framework's entry points and settings registry *)

(** Modelled from the spec: [microscope.abc] is not among the sources.  The
    framework's [enable()], [disable()], [trigger()] and [fetch()] run the
    device's [_do_enable], [_do_disable], [_do_trigger] and [_fetch_data]. *)
Definition enable : M TestCamera bool := _do_enable.
Definition disable : M TestCamera unit := _do_disable.
Definition trigger : M TestCamera unit := _do_trigger.
Definition fetch := _fetch_data.

(** Modelled from the spec: [add_setting] of [microscope.abc] stores a
    getter and a setter under the setting's name; reading or writing a
    setting calls them.  These are the integer-valued settings
    [TestCamera.__init__] registers, in its order. *)
Record Setting : Type := mk_Setting {
  setting_get : TestCamera -> Z;
  setting_set : Z -> M TestCamera unit
}.

Definition _settings : list (string * Setting) :=
  [ ("image pattern"%string,
      mk_Setting (fun c => _method_index (_image_generator c))
        (fun v => modify (fun c =>
           set_image_generator (set_method v (_image_generator c)) c)));
    ("image data type"%string,
      mk_Setting (fun c => _datatype_index (_image_generator c))
        (fun v => modify (fun c =>
           set_image_generator (set_data_type v (_image_generator c)) c)));
    ("a_setting"%string,
      mk_Setting _a_setting (fun v => modify (set_a_setting v)));
    ("_error_percent"%string,
      mk_Setting _error_percent _set_error_percent);
    ("gain"%string, mk_Setting _gain _set_gain) ].

Fixpoint lookup_setting (name : string) (l : list (string * Setting))
  : option Setting :=
  match l with
  | [] => None
  | (n, s) :: t => if String.eqb n name then Some s else lookup_setting name t
  end.

Definition get_setting (name : string) (self : TestCamera) : option Z :=
  match lookup_setting name _settings with
  | Some s => Some (setting_get s self)
  | None => None
  end.

Definition set_setting (name : string) (value : Z) : M TestCamera unit :=
  match lookup_setting name _settings with
  | Some s => setting_set s value
  | None => throw IndexError
  end.

(** ** Running a method *)

Definition eval {S A} (c : M S A) (s : S) : outcome A := fst (c s).
Definition exec {S A} (c : M S A) (s : S) : S := snd (c s).

(** ** Instances used to evaluate the embedding *)

(** A rational stand-in for libm: the first terms of the series of [sin]
    and [cos], and [1 / (1 - q)] for [exp] on the non-positive arguments. *)
Definition rational_exp (q : Q) : Q :=
  if Qle_bool q 0 then (/ (1 - q))%Q else (1 + q)%Q.

Lemma rational_exp_unit (q : Q) :
  (q <= 0)%Q -> (0 <= rational_exp q <= 1)%Q.
Proof.
  intros Hq. unfold rational_exp.
  destruct (Qle_bool q 0) eqn:E.
  - assert (H1 : (1 <= 1 - q)%Q) by lra.
    split.
    + apply Qinv_le_0_compat. lra.
    + apply Qle_shift_inv_r; lra.
  - rewrite <- Qle_bool_iff in Hq. congruence.
Qed.

Definition libm_rational : Libm :=
  Build_Libm (fun q => q - q ^ 3 / 6)%Q (fun q => 1 - q ^ 2 / 2)%Q
    rational_exp rational_exp_unit.

(** PIL's built-in bitmap font draws every character in a cell of 6 by 11
    pixels.  The shapes of the glyphs are not modelled: the whole cell is
    inked. *)
Definition pil_default_font : Font :=
  Build_Font (fun text => ((6 * String.length text)%nat, 11%nat))
             (fun _ _ _ => true).

(** ** Definitions used by the properties *)

Definition fetchable (c : TestCamera) : bool :=
  _initialized c && _acquiring c && (0 <? _triggered c).

Ltac unfold_monad :=
  cbv beta delta [bind ret throw get modify lift eval exec fst snd] iota.

(** ** Normal forms of the generator's results *)

(** The size (width, height) of the bitmap [get_image] pastes for frame
    number [i]: the text and a margin of one pixel on each side. *)
Definition overlay_size (font : Font) (i : Z) : nat * nat :=
  let '(tw, th) := getsize font (format_d i) in ((tw + 2)%nat, (th + 2)%nat).

(** The overlay is off, or its bitmap is no larger than the frame. *)
Definition overlay_fits (g : ImageGenerator) (index : option Z) (w h : Z)
  : bool :=
  match numbering g, index with
  | true, Some i =>
      (Z.of_nat (fst (overlay_size (_font g) i)) <=? w)
      && (Z.of_nat (snd (overlay_size (_font g) i)) <=? h)
  | _, _ => true
  end.

Section FrameOf.

Variable lm : Libm.
Variable rnd : nat -> Z.

(** The value each strategy gives the pixel of column [x] and row [y] of a
    frame of [w] by [h] pixels, [w, h >= 1]. *)
Definition pixel (m : method) (d : dtype) (th : Q) (w h dark light : Z)
    (x y : nat) : num :=
  match m with
  | Black => of_Z 0
  | White =>
      nmul (if is_integer d then of_Z (iinfo_max d) else Fin 1)
           (astype_elt d (of_Z 1))
  | Gradient =>
      nadd (of_Z dark)
        (ndiv (of_Z (int64_scale light (Z.of_nat x + Z.of_nat y)))
              (of_Z (w - 1 + (h - 1))))
  | Noise =>
      of_Z (dark + rnd (y * Z.to_nat w + x) mod (light - dark))
  | OneGaussian =>
      nadd (of_Z dark)
        (nmul (of_Z light)
           (nexp lm
              (ndiv (of_Z (int64_neg_sq_dist (Z.of_nat x - rnd 0%nat mod w)
                                             (Z.of_nat y - rnd 1%nat mod h)))
                    (Fin (2 * ((1 # 100) * inject_Z (Z.max w h)) ^ 2)))))
  | Sawtooth =>
      let wrap := Fin ((1 # 10) * inject_Z (Z.max (w - 1) (h - 1))) in
      nadd (of_Z dark)
        (ndiv
           (nmul (of_Z light)
              (nmod (Fin (fsin lm th * inject_Z (Z.of_nat x)
                          + fcos lm th * inject_Z (Z.of_nat y)))
                    wrap))
           wrap)
  end.

(** The element type of the array a strategy returns. *)
Definition strategy_dtype (m : method) (d : dtype) : dtype :=
  match m with
  | Noise => int64
  | White => d
  | _ => float64
  end.

(** The generator after a strategy has run: only [sawtooth] touches it. *)
Definition after_call (m : method) (g : ImageGenerator) : ImageGenerator :=
  match m with
  | Sawtooth => set_theta (snd (next (_theta g))) g
  | _ => g
  end.

(** The frame [get_image] returns when nothing raises: the strategy's
    pixels cast to the data type, under the overlay. *)
Definition frame (m : method) (d : dtype) (g : ImageGenerator)
    (w h dark light : Z) (index : option Z) : ndarray :=
  let data :=
    astype d (array_of (strategy_dtype m d) (Z.to_nat h) (Z.to_nat w)
                (pixel m d (fst (next (_theta g))) w h dark light)) in
  match numbering g, index with
  | true, Some i =>
      let size := overlay_size (_font g) i in
      let img := draw_text (_font g) size (format_d i) light in
      array_of d (Z.to_nat h) (Z.to_nat w)
        (fun x y =>
           if (y <? Nat.min (snd size) (Z.to_nat h))%nat
              && (x <? Nat.min (fst size) (Z.to_nat w))%nat
           then astype_elt d
                  (item img (if (snd size =? 1)%nat then 0%nat else y)
                            (if (fst size =? 1)%nat then 0%nat else x))
           else item data y x)
  | _, _ => data
  end.

End FrameOf.

(** A camera as the framework hands it to a client: constructed, then
    initialized. *)
Definition camera0 : TestCamera :=
  exec initialize (TestCamera__init__ pil_default_font).

(** [enable(); trigger(); disable(); enable()] *)
Definition reenabled (c : TestCamera) : TestCamera :=
  exec enable (exec disable (exec trigger (exec enable c))).

(** [enable(); trigger()] and then the error rate set to 100 percent. *)
Definition camera_error_100 : TestCamera :=
  exec (set_setting "_error_percent" 100) (exec trigger (exec enable camera0)).

(** The sequencer state right after [enable()], as the specification gives
    it. *)
Definition enable_resets_all (c : TestCamera) : Prop :=
  _acquiring (exec enable c) = true /\
  _sent (exec enable c) = 0 /\
  _triggered (exec enable c) = 0.

(** The array [a] has exactly [h] rows of [w] columns. *)
Definition well_shaped (a : ndarray) (h w : Z) : Prop :=
  shape a = (Z.to_nat h, Z.to_nat w) /\
  length (elems a) = Z.to_nat h /\
  Forall (fun row => length row = Z.to_nat w) (elems a).

(** [v] is a value of the element type [d]. *)
Definition has_dtype (d : dtype) (v : num) : Prop :=
  match d with
  | float64 => True
  | _ => exists z : Z, v = of_Z z /\ 0 <= z <= iinfo_max d
  end.

(** [v] is a finite value between [lo] and [hi]. *)
Definition bounded (lo hi : Q) (v : num) : Prop :=
  exists q : Q, v = Fin q /\ (lo <= q <= hi)%Q.

(** [v] lies in the range of values the type [d] represents, so that the
    cast to [d] keeps it: for the unsigned types, a finite value between 0
    and the type's maximum. *)
Definition representable (d : dtype) (v : num) : Prop :=
  match d with
  | float64 => True
  | _ => bounded 0 (inject_Z (iinfo_max d)) v
  end.

(** The cast of [v] to [d] keeps its value: nothing is wrapped, and for
    the integer types only a fraction is dropped. *)
Definition cast_exact (d : dtype) (v : num) : Prop :=
  match d with
  | float64 => astype_elt d v = v
  | _ =>
      exists q : Q,
        v = Fin q /\ astype_elt d v = of_Z (py_int q) /\
        0 <= py_int q <= iinfo_max d
  end.

(** The specification's property of a generated frame: [get_image] returns
    an array of shape (h, w), and the values of the selected strategy lie
    in the range of the selected type, so that the cast wraps none. *)
Definition generate_in_range (lm : Libm) (rnd : nat -> Z)
    (g : ImageGenerator) (w h dark light : Z) (index : option Z) : Prop :=
  exists (m : method) (d : dtype) (raw out : ndarray),
    py_getitem _methods (_method_index g) = Ret m /\
    py_getitem _datatypes (_datatype_index g) = Ret d /\
    eval (call lm rnd m w h dark light) g = Ret raw /\
    eval (get_image lm rnd w h dark light index) g = Ret out /\
    well_shaped out h w /\
    Forall (Forall (representable d)) (elems raw).

(** The bounds with which [np.random.randint] draws: both fit int64 (the
    upper one is exclusive) and the range is not empty. *)
Definition randint_bounds (dark light : Z) : Prop :=
  - 2 ^ 63 <= dark /\ dark < light /\ light <= 2 ^ 63.

(** When the values of strategy [m] are known to fit the type [d]: the
    int64 product of [gradient] and the int64 squares of [one_gaussian]
    must not wrap either. *)
Definition wrap_free (m : method) (d : dtype) (w h dark light : Z) : Prop :=
  d = float64 \/
  match m with
  | Black | White | Noise => True
  | OneGaussian =>
      (w - 1) ^ 2 + (h - 1) ^ 2 < 2 ^ 63 /\
      (d = uint8 -> dark + light <= 255)
  | Gradient =>
      (2 <= w \/ 2 <= h) /\ light * (w - 1 + (h - 1)) < 2 ^ 63 /\
      (d = uint8 -> dark + light <= 255)
  | Sawtooth =>
      (2 <= w \/ 2 <= h) /\ (d = uint8 -> dark + light <= 255)
  end.

(** The angle the next [sawtooth] call on [g] uses. *)
Definition next_angle (g : ImageGenerator) : Q := fst (next (_theta g)).

(** The angles a sequence of [sawtooth] calls on one generator uses; a
    call is given by its arguments (w, h, dark, light). *)
Fixpoint sawtooth_angles (lm : Libm) (calls : list (Z * Z * Z * Z))
    (g : ImageGenerator) : list Q :=
  match calls with
  | [] => []
  | (w, h, dark, light) :: rest =>
      next_angle g
      :: sawtooth_angles lm rest (exec (sawtooth lm w h dark light) g)
  end.

(** A frame request as the camera's client makes it: the strategy is
    selected through the setting, then the frame is generated. *)
Record request : Type := mk_request {
  req_method : Z;
  req_width : Z;
  req_height : Z;
  req_dark : Z;
  req_light : Z;
  req_index : option Z
}.

Definition selects_sawtooth (q : request) : bool :=
  match py_getitem _methods (req_method q) with
  | Ret Sawtooth => true
  | _ => false
  end.

Definition generate (lm : Libm) (rnd : nat -> Z) (q : request)
  : M ImageGenerator ndarray :=
  modify (set_method (req_method q)) ;;;
  get_image lm rnd (req_width q) (req_height q) (req_dark q) (req_light q)
    (req_index q).

(** The generator after a sequence of requests, raised exceptions being
    caught by the caller. *)
Fixpoint run_requests (lm : Libm) (rnd : nat -> Z) (qs : list request)
    (g : ImageGenerator) : ImageGenerator :=
  match qs with
  | [] => g
  | q :: rest => run_requests lm rnd rest (exec (generate lm rnd q) g)
  end.

Definition generator0 : ImageGenerator :=
  ImageGenerator__init__ pil_default_font.

(** ** The rest of [TestCamera] *)

(** [soft_trigger] is [trigger] behind the decorator. *)
Definition soft_trigger : M TestCamera unit := must_be_initialized trigger.

Definition get_exposure_time (self : TestCamera) : Q := _exposure_time self.

Definition get_cycle_time (self : TestCamera) : Q := _exposure_time self.

(** What a client does to a camera, one call at a time; an exception a call
    raises is caught by the client, and the camera stays as the call left
    it. *)
Inductive camera_call : Type :=
| CallInitialize
| CallEnable
| CallDisable
| CallAbort
| CallTrigger
| CallSoftTrigger
| CallFetch (py_entropy : Z) (np_entropy : nat -> Z)
| CallSetSetting (name : string) (value : Z)
| CallSetExposureTime (value : Q).

Definition after_camera_call (lm : Libm) (k : camera_call)
  : TestCamera -> TestCamera :=
  match k with
  | CallInitialize => exec initialize
  | CallEnable => exec enable
  | CallDisable => exec disable
  | CallAbort => exec abort
  | CallTrigger => exec trigger
  | CallSoftTrigger => exec soft_trigger
  | CallFetch r np => exec (fetch lm r np)
  | CallSetSetting name value => exec (set_setting name value)
  | CallSetExposureTime value => exec (set_exposure_time value)
  end.

Definition after_camera_calls (lm : Libm) (ks : list camera_call)
    (c : TestCamera) : TestCamera :=
  fold_left (fun c k => after_camera_call lm k c) ks c.

(** A run of [fetch] calls with nothing in between: the outcomes, in
    order, and the camera after the last. *)
Fixpoint fetch_many (lm : Libm) (es : list (Z * (nat -> Z)))
    (c : TestCamera) : list (outcome (option ndarray)) * TestCamera :=
  match es with
  | [] => ([], c)
  | (r, np) :: rest =>
      let '(o, c') := fetch lm r np c in
      let '(os, c'') := fetch_many lm rest c' in
      (o :: os, c'')
  end.

Definition is_frame (o : outcome (option ndarray)) : bool :=
  match o with
  | Ret (Some _) => true
  | _ => false
  end.

(** The draws of [random.randint(0, 100)], each as likely as the others,
    on which a fetch at error rate [p] raises. *)
Definition failing_draws (p : Z) : list Z :=
  filter (fun draw => draw <? p) (map Z.of_nat (seq 0 101)).

(** What holds of a camera however it has been used. *)
Definition camera_invariant (c : TestCamera) : Prop :=
  0 <= _triggered c /\ 0 <= _sent c /\
  (_acquiring c = true -> _initialized c = true).

(** [n] calls of [trigger] in a row. *)
Fixpoint trigger_times (n : nat) (c : TestCamera) : TestCamera :=
  match n with
  | O => c
  | S k => exec trigger (trigger_times k c)
  end.

(** ** Further notions for the image generator *)

(** Whether [get_image] draws the overlay. *)
Definition overlay_drawn (g : ImageGenerator) (index : option Z) : bool :=
  match numbering g, index with
  | true, Some _ => true
  | _, _ => false
  end.

(** The end of [get_image]: the overlay pasted on the cast data, by the
    generator [g1] the strategy has left. *)
Definition paste_overlay (g1 : ImageGenerator) (data : ndarray) (light : Z)
    (index : option Z) : outcome ndarray :=
  match numbering g1, index with
  | true, Some i =>
      let text := format_d i in
      let '(tw, th) := getsize (_font g1) text in
      let size := ((tw + 2)%nat, (th + 2)%nat) in
      setitem_topleft data (snd size) (fst size)
        (draw_text (_font g1) size text light)
  | _, _ => Ret data
  end.

(** On a frame without pixels or of negative size, which requests return:
    the strategies that do not look at the grid, without overlay. *)
Definition empty_frame_returns (g : ImageGenerator) (m : method)
    (w h : Z) (index : option Z) : bool :=
  (0 <=? w) && (0 <=? h)
  && match m with
     | Black | White | Noise => true
     | _ => false
     end
  && negb (overlay_drawn g index).


(** [i] is an index Python accepts for a tuple of [n] elements. *)
Definition valid_index (n i : Z) : bool := (- n <=? i) && (i <? n).

(** The value of every pixel of a white frame. *)
Definition white_value (d : dtype) : num :=
  if is_integer d then of_Z (iinfo_max d) else Fin 1.


(** ** The other test devices *)

(** Exceptions the other devices raise, beside those of the camera. *)
Inductive device_exn : Type :=
| KeyError
| AttributeError
| Builtin (e : exn).

Inductive raised (A : Type) : Type :=
| Returns (a : A)
| Raises (e : device_exn).
Arguments Returns {A} a.
Arguments Raises {A} e.

(** [t[i] = v] on a list, with Python's negative indices. *)
Fixpoint list_update {A} (t : list A) (n : nat) (v : A) : list A :=
  match t, n with
  | [], _ => []
  | _ :: r, O => v :: r
  | a :: r, S k => a :: list_update r k v
  end.

Definition py_setitem {A} (t : list A) (i : Z) (v : A) : outcome (list A) :=
  let n := Z.of_nat (length t) in
  let j := if i <? 0 then i + n else i in
  if (0 <=? j) && (j <? n) then Ret (list_update t (Z.to_nat j) v)
  else Raise IndexError.

(** A [dict] with string keys, in insertion order. *)
Fixpoint dict_get {V} (k : string) (d : list (string * V)) : option V :=
  match d with
  | [] => None
  | (k', v) :: r => if String.eqb k' k then Some v else dict_get k r
  end.

Fixpoint dict_set {V} (k : string) (v : V) (d : list (string * V))
  : list (string * V) :=
  match d with
  | [] => [(k, v)]
  | (k', v') :: r =>
      if String.eqb k' k then (k, v) :: r else (k', v') :: dict_set k v r
  end.

Module TestLightSource.

Record t : Type := mk { _power : Q; _emission : bool }.

Definition __init__ : t := mk 0 false.

Definition _do_enable (self : t) : bool * t := (true, mk (_power self) true).

Definition _do_disable (self : t) : bool * t :=
  (false, mk (_power self) false).

Definition get_is_on (self : t) : bool := _emission self.

Definition _do_set_power (power : Q) (self : t) : t :=
  mk power (_emission self).

Definition _do_get_power (self : t) : Q :=
  if _emission self then _power self else 0%Q.

End TestLightSource.


Module DummyDSP.

(** An action is a sequence whose first element is a time in milliseconds;
    the elements after it are only logged. *)
Record action : Type := mk_action {
  action_time : Q;
  action_rest : list Z
}.

(** [_repeats] does not exist until [PrepareActions] is called.  Whether a
    client is set is the framework's matter. *)
Record t : Type := mk {
  _digi : Z;
  _ana : list Z;
  _client : bool;
  _actions : list action;
  _repeats : option Z
}.

Definition __init__ : t := mk 0 [0; 0; 0; 0] false [] None.

Definition WriteDigital (value : Z) (self : t) : t :=
  mk value (_ana self) (_client self) (_actions self) (_repeats self).

Definition ReadDigital (self : t) : Z := _digi self.

Definition MoveAbsolute (aline pos : Z) (self : t) : outcome unit * t :=
  match py_setitem (_ana self) aline pos with
  | Ret ana =>
      (Ret tt,
       mk (_digi self) ana (_client self) (_actions self) (_repeats self))
  | Raise e => (Raise e, self)
  end.

Definition ReadPosition (aline : Z) (self : t) : outcome Z :=
  py_getitem (_ana self) aline.






End DummyDSP.

(** *** Python floats *)

(** [a < b] and [a <= b] on floats: false as soon as one side is [nan]. *)
Definition nltb (a b : num) : bool :=
  match a, b with
  | NaN, _ | _, NaN => false
  | Fin x, Fin y => Qltb x y
  | Fin _, Inf s => negb s
  | Inf s, Fin _ => s
  | Inf s, Inf t => s && negb t
  end.

Definition nleb (a b : num) : bool :=
  match a, b with
  | NaN, _ | _, NaN => false
  | Fin x, Fin y => Qle_bool x y
  | Fin _, Inf s => negb s
  | Inf s, Fin _ => s
  | Inf s, Inf t => s || negb t
  end.

Definition is_nan (a : num) : bool :=
  match a with NaN => true | _ => false end.

Definition is_finite (a : num) : bool :=
  match a with Fin _ => true | _ => false end.

(** The arithmetic of Python's floats is that of IEEE 754 doubles: a result
    is rounded, and overflows to an infinity.  Neither is fixed here: the
    three operations the stage uses are a parameter of the embedding, with
    what IEEE 754 says about the results that are [nan]. *)
Record FloatOps : Type := {
  fadd : num -> num -> num;
  fsub : num -> num -> num;
  fdiv : num -> num -> num;
  fadd_nan : forall a b : num,
    fadd a b = NaN ->
    a = NaN \/ b = NaN \/ exists s, a = Inf s /\ b = Inf (negb s);
  fsub_nan : forall a b : num,
    fsub a b = NaN ->
    a = NaN \/ b = NaN \/ exists s, a = Inf s /\ b = Inf s;
  fdiv_nan : forall (a : num) (q : Q),
    fdiv a (Fin q) = NaN -> ~ (q == 0)%Q -> a = NaN
}.

Module TestStageAxis.

(** [microscope.AxisLimits] is a named tuple of two floats. *)
Record AxisLimits : Type := mk_AxisLimits { lower : num; upper : num }.

Record t : Type := mk { _limits : AxisLimits; _position : num }.

Definition __init__ (fl : FloatOps) (limits : AxisLimits) : t :=
  mk limits
    (fadd fl (lower limits)
       (fdiv fl (fsub fl (upper limits) (lower limits)) (Fin 2))).

Definition position (self : t) : num := _position self.

Definition limits (self : t) : AxisLimits := _limits self.

Definition move_to (pos : num) (self : t) : t :=
  if nltb pos (lower (_limits self)) then
    mk (_limits self) (lower (_limits self))
  else if nltb (upper (_limits self)) pos then
    mk (_limits self) (upper (_limits self))
  else mk (_limits self) pos.

Definition move_by (fl : FloatOps) (delta : num) (self : t) : t :=
  move_to (fadd fl (_position self) delta) self.

End TestStageAxis.

Module TestStage.

(** The stage is its dictionary [_axes]. *)
Definition t : Type := list (string * TestStageAxis.t).

(** [{name: TestStageAxis(lim) for name, lim in limits.items()}] *)
Definition __init__ (fl : FloatOps)
    (limits : list (string * TestStageAxis.AxisLimits)) : t :=
  fold_left
    (fun d item =>
       dict_set (fst item) (TestStageAxis.__init__ fl (snd item)) d)
    limits [].

Definition axes (self : t) : list (string * TestStageAxis.t) := self.

(** [for name, rpos in delta.items(): self.axes[name].move_by(rpos)] *)
Fixpoint move_by (fl : FloatOps) (delta : list (string * num)) (self : t)
  : raised unit * t :=
  match delta with
  | [] => (Returns tt, self)
  | (name, rpos) :: rest =>
      match dict_get name self with
      | None => (Raises KeyError, self)
      | Some axis =>
          move_by fl rest
            (dict_set name (TestStageAxis.move_by fl rpos axis) self)
      end
  end.

(** [for name, pos in position.items(): self.axes[name].move_to(pos)] *)
Fixpoint move_to (position : list (string * num)) (self : t)
  : raised unit * t :=
  match position with
  | [] => (Returns tt, self)
  | (name, pos) :: rest =>
      match dict_get name self with
      | None => (Raises KeyError, self)
      | Some axis =>
          move_to rest (dict_set name (TestStageAxis.move_to pos axis) self)
      end
  end.

End TestStage.

(** ** Sequences of calls on the other devices *)

(** Calls that move one axis. *)
Inductive axis_call : Type :=
| AxisMoveTo (pos : num)
| AxisMoveBy (delta : num).

Definition after_axis_call (fl : FloatOps) (k : axis_call)
  : TestStageAxis.t -> TestStageAxis.t :=
  match k with
  | AxisMoveTo pos => TestStageAxis.move_to pos
  | AxisMoveBy delta => TestStageAxis.move_by fl delta
  end.

(** The limits are in order: [lower <= upper], which no [nan] satisfies. *)
Definition limits_in_order (limits : TestStageAxis.AxisLimits) : Prop :=
  nleb (TestStageAxis.lower limits) (TestStageAxis.upper limits) = true.

(** The axis lies within its limits: [lower <= position <= upper]. *)
Definition within_limits (a : TestStageAxis.t) : Prop :=
  nleb (TestStageAxis.lower (TestStageAxis._limits a))
       (TestStageAxis._position a) = true
  /\
  nleb (TestStageAxis._position a)
       (TestStageAxis.upper (TestStageAxis._limits a)) = true.

(** A call with a number for its argument: a position that is not [nan],
    a finite distance. *)
Definition numeric_call (k : axis_call) : bool :=
  match k with
  | AxisMoveTo pos => negb (is_nan pos)
  | AxisMoveBy delta => is_finite delta
  end.

(** Calls that move a stage; an exception is caught by the caller. *)
Inductive stage_call : Type :=
| StageMoveTo (position : list (string * num))
| StageMoveBy (delta : list (string * num)).

Definition after_stage_call (fl : FloatOps) (k : stage_call)
    (s : TestStage.t) : TestStage.t :=
  match k with
  | StageMoveTo position => snd (TestStage.move_to position s)
  | StageMoveBy delta => snd (TestStage.move_by fl delta s)
  end.

Definition numeric_stage_call (k : stage_call) : bool :=
  match k with
  | StageMoveTo position =>
      forallb (fun item => negb (is_nan (snd item))) position
  | StageMoveBy delta => forallb (fun item => is_finite (snd item)) delta
  end.

(** Calls on a light source. *)
Inductive light_call : Type :=
| LightEnable
| LightDisable
| LightSetPower (power : Q).

Definition after_light_call (k : light_call) (s : TestLightSource.t)
  : TestLightSource.t :=
  match k with
  | LightEnable => snd (TestLightSource._do_enable s)
  | LightDisable => snd (TestLightSource._do_disable s)
  | LightSetPower power => TestLightSource._do_set_power power s
  end.

(** The power last set in a sequence of calls, and whether the last
    switch was an enable. *)
Fixpoint last_power (ks : list light_call) (before : Q) : Q :=
  match ks with
  | [] => before
  | LightSetPower p :: rest => last_power rest p
  | _ :: rest => last_power rest before
  end.

Fixpoint last_switch (ks : list light_call) (before : bool) : bool :=
  match ks with
  | [] => before
  | LightEnable :: rest => last_switch rest true
  | LightDisable :: rest => last_switch rest false
  | LightSetPower _ :: rest => last_switch rest before
  end.

(** Both moves of a stage are one loop over the items, with the move of
    an axis as its body. *)
Fixpoint stage_loop (f : num -> TestStageAxis.t -> TestStageAxis.t)
    (items : list (string * num)) (self : TestStage.t)
  : raised unit * TestStage.t :=
  match items with
  | [] => (Returns tt, self)
  | (name, v) :: rest =>
      match dict_get name self with
      | None => (Raises KeyError, self)
      | Some axis => stage_loop f rest (dict_set name (f v axis) self)
      end
  end.

(** Every axis of the stage lies within its limits, which are in order. *)
Definition stage_within_limits (s : TestStage.t) : Prop :=
  Forall (fun entry =>
            limits_in_order (TestStageAxis._limits (snd entry))
            /\ within_limits (snd entry)) s.

(** *** Instances of the float arithmetic *)

(** Exact arithmetic. *)
Definition nsub (a b : num) : num := nadd a (nneg b).

Lemma nadd_nan (a b : num) :
  nadd a b = NaN ->
  a = NaN \/ b = NaN \/ exists s, a = Inf s /\ b = Inf (negb s).
Proof.
  destruct a as [x | s |], b as [y | t |]; cbn; try discriminate; auto.
  destruct s, t; cbn; try discriminate; intros _; right; right;
    eexists; split; reflexivity.
Qed.

Lemma nsub_nan (a b : num) :
  nsub a b = NaN ->
  a = NaN \/ b = NaN \/ exists s, a = Inf s /\ b = Inf s.
Proof.
  destruct a as [x | s |], b as [y | t |]; cbn; try discriminate; auto.
  destruct s, t; cbn; try discriminate; intros _; right; right;
    eexists; split; reflexivity.
Qed.

Lemma ndiv_nan (a : num) (q : Q) :
  ndiv a (Fin q) = NaN -> ~ (q == 0)%Q -> a = NaN.
Proof.
  destruct a as [x | s |]; cbn; try discriminate; auto.
  destruct (Qeq_bool q 0) eqn:E; [| discriminate].
  apply Qeq_bool_iff in E. intros _ Hq. contradiction.
Qed.

Definition float_exact : FloatOps :=
  Build_FloatOps nadd nsub ndiv nadd_nan nsub_nan ndiv_nan.

(** Arithmetic that overflows: a finite result beyond the largest double
    becomes the infinity of its sign. *)
Definition float_max : Q := inject_Z (2 ^ 1024 - 2 ^ 971).

Definition overflow (a : num) : num :=
  match a with
  | Fin q =>
      if Qltb float_max q then Inf false
      else if Qltb q (- float_max) then Inf true
      else Fin q
  | _ => a
  end.

Lemma overflow_nan (a : num) : overflow a = NaN -> a = NaN.
Proof.
  destruct a as [q | s |]; cbn; try discriminate; auto.
  destruct (Qltb float_max q); [discriminate |].
  destruct (Qltb q (- float_max)); discriminate.
Qed.

Definition float_overflow : FloatOps :=
  Build_FloatOps
    (fun a b => overflow (nadd a b))
    (fun a b => overflow (nsub a b))
    (fun a b => overflow (ndiv a b))
    (fun a b H => nadd_nan a b (overflow_nan _ H))
    (fun a b H => nsub_nan a b (overflow_nan _ H))
    (fun a q H => ndiv_nan a q (overflow_nan _ H)).

(** * Properties *)


(** ** Arrays *)

Lemma tabulate_length {A} (h w : nat) (f : nat -> nat -> A) :
  length (tabulate h w f) = h.
Proof. unfold tabulate. now rewrite length_map, length_seq. Qed.

Lemma tabulate_rows {A} (h w : nat) (f : nat -> nat -> A) :
  Forall (fun row => length row = w) (tabulate h w f).
Proof.
  unfold tabulate. apply Forall_forall. intros row Hin.
  apply in_map_iff in Hin as [y [<- _]].
  now rewrite length_map, length_seq.
Qed.

Lemma tabulate_nth {A} (h w : nat) (f : nat -> nat -> A) (d : A) (x y : nat) :
  (y < h)%nat -> (x < w)%nat ->
  nth x (nth y (tabulate h w f) []) d = f x y.
Proof.
  intros Hy Hx. unfold tabulate.
  rewrite (nth_indep _ [] (map (fun x => f x 0%nat) (seq 0 w)))
    by now rewrite length_map, length_seq.
  rewrite (map_nth (fun y => map (fun x => f x y) (seq 0 w)) (seq 0 h) 0%nat y).
  rewrite seq_nth by assumption. simpl.
  rewrite (nth_indep _ d (f 0%nat y)) by now rewrite length_map, length_seq.
  rewrite (map_nth (fun x => f x y) (seq 0 w) 0%nat x).
  now rewrite seq_nth.
Qed.

Lemma tabulate_In {A} (h w : nat) (f : nat -> nat -> A) (v : A) :
  In v (concat (tabulate h w f)) <->
  exists x y, (x < w)%nat /\ (y < h)%nat /\ v = f x y.
Proof.
  unfold tabulate. rewrite in_concat. split.
  - intros [row [Hrow Hv]].
    apply in_map_iff in Hrow as [y [<- Hy]].
    apply in_map_iff in Hv as [x [<- Hx]].
    apply in_seq in Hx, Hy. exists x, y. repeat split; lia.
  - intros [x [y [Hx [Hy ->]]]].
    exists (map (fun x => f x y) (seq 0 w)). split.
    + apply in_map_iff. exists y. split; [reflexivity | apply in_seq; lia].
    + apply in_map_iff. exists x. split; [reflexivity | apply in_seq; lia].
Qed.

Lemma tabulate_map {A B} (g : A -> B) (h w : nat) (f : nat -> nat -> A) :
  map (map g) (tabulate h w f) = tabulate h w (fun x y => g (f x y)).
Proof.
  unfold tabulate. rewrite map_map. apply map_ext. intros y.
  now rewrite map_map.
Qed.

Lemma zip_with_map {A B C D} (f : B -> C -> D) (g : A -> B) (g' : A -> C)
    (l : list A) :
  zip_with f (map g l) (map g' l) = map (fun a => f (g a) (g' a)) l.
Proof. induction l as [| a l IH]; simpl; [reflexivity | now rewrite IH]. Qed.

Lemma map_grid_tabulate {A} (f : Z -> Z -> A) (h w : nat)
    (p q : nat -> nat -> Z) :
  map_grid f (tabulate h w p) (tabulate h w q) =
  tabulate h w (fun x y => f (p x y) (q x y)).
Proof.
  unfold map_grid, tabulate. rewrite zip_with_map.
  apply map_ext. intros y. now rewrite zip_with_map.
Qed.

(** The maximum of a non-empty list is its element that bounds the others. *)
Lemma fold_max_bound (zs : list Z) (z m : Z) :
  Forall (fun v => v <= m) (z :: zs) -> In m (z :: zs) ->
  fold_left Z.max zs z = m.
Proof.
  revert z. induction zs as [| a zs IH]; intros z Hall Hin.
  - simpl in *. destruct Hin as [-> | []]. reflexivity.
  - simpl. apply IH.
    + inversion Hall as [| ? ? Hz Hrest]; subst.
      inversion Hrest as [| ? ? Ha Hzs]; subst.
      constructor; [lia | assumption].
    + inversion Hall as [| ? ? Hz Hrest]; subst.
      inversion Hrest as [| ? ? Ha Hzs]; subst.
      destruct Hin as [-> | [-> | Hin]].
      * left. lia.
      * left. lia.
      * right. assumption.
Qed.

Lemma amax_tabulate (h w : nat) (p : nat -> nat -> Z) (m : Z) :
  (forall x y, (x < w)%nat -> (y < h)%nat -> p x y <= m) ->
  (exists x y, (x < w)%nat /\ (y < h)%nat /\ m = p x y) ->
  amax (tabulate h w p) = Ret m.
Proof.
  intros Hle Hex. unfold amax.
  assert (Hin : In m (concat (tabulate h w p))) by now apply tabulate_In.
  assert (Hall : Forall (fun v => v <= m) (concat (tabulate h w p))).
  { apply Forall_forall. intros v Hv.
    apply tabulate_In in Hv as [x [y [Hx [Hy ->]]]]. now apply Hle. }
  destruct (concat (tabulate h w p)) as [| z zs].
  - destruct Hin.
  - f_equal. now apply fold_max_bound.
Qed.

Lemma amax_empty (h w : nat) (p : nat -> nat -> Z) :
  (h = 0 \/ w = 0)%nat -> amax (tabulate h w p) = Raise ValueError.
Proof.
  intros H0. unfold amax.
  destruct (concat (tabulate h w p)) as [| z zs] eqn:E; [reflexivity |].
  assert (Hin : In z (concat (tabulate h w p))) by (rewrite E; now left).
  apply tabulate_In in Hin as [x [y [Hx [Hy _]]]]. lia.
Qed.

Lemma amax_meshgrid (w h : Z) :
  1 <= w -> 1 <= h ->
  amax (fst (meshgrid w h)) = Ret (w - 1) /\
  amax (snd (meshgrid w h)) = Ret (h - 1).
Proof.
  intros Hw Hh. unfold meshgrid. simpl. split.
  - apply amax_tabulate.
    + intros x y Hx Hy. lia.
    + exists (Z.to_nat (w - 1)), 0%nat. lia.
  - apply amax_tabulate.
    + intros x y Hx Hy. lia.
    + exists 0%nat, (Z.to_nat (h - 1)). lia.
Qed.

Lemma amax_meshgrid_empty (w h : Z) :
  w <= 0 \/ h <= 0 ->
  amax (fst (meshgrid w h)) = Raise ValueError.
Proof.
  intros H0. unfold meshgrid. simpl. apply amax_empty. lia.
Qed.

(** ** Strategies as pixel functions *)

Section StrategyFacts.

Variable lm : Libm.
Variable rnd : nat -> Z.

Lemma check_shape_pos (h w : Z) :
  1 <= w -> 1 <= h -> check_shape h w = Ret (Z.to_nat h, Z.to_nat w).
Proof.
  intros Hw Hh. unfold check_shape.
  destruct (h <? 0) eqn:E1; [apply Z.ltb_lt in E1; lia |].
  destruct (w <? 0) eqn:E2; [apply Z.ltb_lt in E2; lia |].
  reflexivity.
Qed.

(** [noise] on a frame with pixels, within the bounds numpy accepts. *)
Lemma noise_draws (w h dark light : Z) (g : ImageGenerator) :
  1 <= w -> 1 <= h -> randint_bounds dark light ->
  noise rnd w h dark light g =
  (Ret (array_of int64 (Z.to_nat h) (Z.to_nat w)
          (fun x y =>
             of_Z (dark + rnd (y * Z.to_nat w + x) mod (light - dark)))), g).
Proof.
  intros Hw Hh [Hlo [Hlt Hhi]]. unfold noise.
  replace (h * w =? 0) with false by (symmetry; apply Z.eqb_neq; nia).
  replace (dark <? - 2 ^ 63) with false by (symmetry; apply Z.ltb_ge; lia).
  replace (2 ^ 63 - 1 <? light - 1) with false
    by (symmetry; apply Z.ltb_ge; lia).
  replace (light - 1 <? dark) with false by (symmetry; apply Z.ltb_ge; lia).
  unfold_monad. rewrite check_shape_pos by assumption. reflexivity.
Qed.

(** [noise] raises [ValueError] or returns an array of shape (h, w); it
    leaves the generator alone. *)
Lemma noise_cases (w h dark light : Z) (g : ImageGenerator) :
  noise rnd w h dark light g = (Raise ValueError, g) \/
  exists f : nat -> nat -> num,
    noise rnd w h dark light g =
    (Ret (array_of int64 (Z.to_nat h) (Z.to_nat w) f), g).
Proof.
  assert (Hshape : forall f : nat -> nat -> nat -> num,
    (s <- lift (check_shape h w);
     ret (array_of int64 (fst s) (snd s) (f (snd s)))) g
    = (Raise ValueError, g) \/
    exists f' : nat -> nat -> num,
      (s <- lift (check_shape h w);
       ret (array_of int64 (fst s) (snd s) (f (snd s)))) g
      = (Ret (array_of int64 (Z.to_nat h) (Z.to_nat w) f'), g)).
  { intros f. unfold_monad. unfold check_shape.
    destruct ((h <? 0) || (w <? 0)); [now left |].
    right. eexists. reflexivity. }
  unfold noise.
  destruct (h * w =? 0); [exact (Hshape (fun _ _ _ => of_Z 0)) |].
  destruct (dark <? - 2 ^ 63); [now left |].
  destruct (2 ^ 63 - 1 <? light - 1); [now left |].
  destruct (light - 1 <? dark); [now left |].
  exact (Hshape (fun sw x y => of_Z (dark + rnd (y * sw + x) mod (light - dark)))).
Qed.

Lemma call_pixels (m : method) (g : ImageGenerator) (d : dtype)
    (w h dark light : Z) :
  1 <= w -> 1 <= h ->
  py_getitem _datatypes (_datatype_index g) = Ret d ->
  (m = Noise -> randint_bounds dark light) ->
  call lm rnd m w h dark light g =
  (Ret (array_of (strategy_dtype m d) (Z.to_nat h) (Z.to_nat w)
          (pixel lm rnd m d (fst (next (_theta g))) w h dark light)),
   after_call m g).
Proof.
  intros Hw Hh Hd Hnoise.
  destruct (amax_meshgrid w h Hw Hh) as [Hxmax Hymax].
  destruct m; cbv beta delta [call] iota.
  - (* noise *)
    now apply noise_draws, Hnoise.
  - (* gradient *)
    unfold gradient.
    destruct (meshgrid w h) as [xx yy] eqn:Emesh.
    cbn [fst snd] in Hxmax, Hymax.
    unfold_monad. rewrite Hxmax, Hymax. cbv beta iota.
    unfold meshgrid in Emesh. injection Emesh as <- <-.
    rewrite map_grid_tabulate. reflexivity.
  - (* sawtooth *)
    unfold sawtooth, after_call.
    unfold_monad.
    destruct (next (_theta g)) as [th g'] eqn:Enext.
    destruct (meshgrid w h) as [xx yy] eqn:Emesh.
    cbn [fst snd] in Hxmax, Hymax |- *.
    rewrite Hxmax, Hymax. cbv beta iota.
    unfold meshgrid in Emesh. injection Emesh as <- <-.
    rewrite map_grid_tabulate. reflexivity.
  - (* one_gaussian *)
    unfold one_gaussian. unfold_monad. unfold np_random_randint.
    assert (E1 : (0 <? w) = true) by (apply Z.ltb_lt; lia).
    assert (E2 : (0 <? h) = true) by (apply Z.ltb_lt; lia).
    rewrite E1, E2. cbv beta iota.
    rewrite !Z.sub_0_r, !Z.add_0_l.
    destruct (meshgrid w h) as [xx yy] eqn:Emesh.
    unfold meshgrid in Emesh. injection Emesh as <- <-.
    rewrite map_grid_tabulate. reflexivity.
  - (* black *)
    unfold black. unfold_monad. rewrite check_shape_pos by assumption.
    reflexivity.
  - (* white *)
    unfold white. unfold_monad. rewrite Hd. cbv beta iota.
    rewrite check_shape_pos by assumption. cbv beta iota.
    unfold astype, array_of. cbn [elems shape fst snd].
    rewrite !tabulate_map. reflexivity.
Qed.

End StrategyFacts.

(** ** The numbering overlay *)

Lemma draw_text_shape (font : Font) (size : nat * nat) (text : string)
    (fill : Z) :
  shape (draw_text font size text fill) = (snd size, fst size).
Proof. unfold draw_text. now destruct (getsize font text). Qed.

Lemma setitem_topleft_fits (data src : ndarray) (h w sh sw : nat) :
  shape data = (h, w) -> shape src = (sh, sw) ->
  (sh <= h)%nat -> (sw <= w)%nat ->
  setitem_topleft data sh sw src =
  Ret (array_of (arr_dtype data) h w
         (fun x y =>
            if (y <? Nat.min sh h)%nat && (x <? Nat.min sw w)%nat
            then astype_elt (arr_dtype data)
                   (item src (if (sh =? 1)%nat then 0%nat else y)
                             (if (sw =? 1)%nat then 0%nat else x))
            else item data y x)).
Proof.
  intros Hd Hs Hh Hw. unfold setitem_topleft. rewrite Hd, Hs.
  rewrite (Nat.min_l sh h), (Nat.min_l sw w) by assumption.
  now rewrite !Nat.eqb_refl.
Qed.

Lemma setitem_topleft_large (data src : ndarray) (h w sh sw : nat) :
  shape data = (h, w) -> shape src = (sh, sw) ->
  (2 <= sh)%nat -> (2 <= sw)%nat ->
  (h < sh \/ w < sw)%nat ->
  setitem_topleft data sh sw src = Raise ValueError.
Proof.
  intros Hd Hs Hsh Hsw Hlt. unfold setitem_topleft. rewrite Hd, Hs.
  destruct Hlt as [Hlt | Hlt].
  - rewrite (Nat.min_r sh h) by lia.
    replace (sh =? h)%nat with false by (symmetry; apply Nat.eqb_neq; lia).
    replace (sh =? 1)%nat with false by (symmetry; apply Nat.eqb_neq; lia).
    reflexivity.
  - rewrite (Nat.min_r sw w) by lia.
    replace (sw =? w)%nat with false by (symmetry; apply Nat.eqb_neq; lia).
    replace (sw =? 1)%nat with false by (symmetry; apply Nat.eqb_neq; lia).
    now rewrite andb_false_r.
Qed.

(** ** [get_image] *)

Section GetImageFacts.

Variable lm : Libm.
Variable rnd : nat -> Z.

Lemma after_call_numbering (m : method) (g : ImageGenerator) :
  numbering (after_call m g) = numbering g /\
  _font (after_call m g) = _font g /\
  _method_index (after_call m g) = _method_index g /\
  _datatype_index (after_call m g) = _datatype_index g.
Proof. destruct m; repeat split. Qed.

Lemma get_image_returns (m : method) (d : dtype) (g : ImageGenerator)
    (w h dark light : Z) (index : option Z) :
  py_getitem _methods (_method_index g) = Ret m ->
  py_getitem _datatypes (_datatype_index g) = Ret d ->
  1 <= w -> 1 <= h ->
  (m = Noise -> randint_bounds dark light) ->
  overlay_fits g index w h = true ->
  get_image lm rnd w h dark light index g =
  (Ret (frame lm rnd m d g w h dark light index), after_call m g).
Proof.
  intros Hm Hd Hw Hh Hnoise Hfit.
  unfold get_image. unfold_monad. rewrite Hm, Hd. cbv beta iota.
  rewrite (call_pixels lm rnd m g d w h dark light) by assumption.
  cbv beta iota.
  destruct (after_call_numbering m g) as [-> [-> _]].
  unfold frame, overlay_fits in *.
  destruct (numbering g); [| reflexivity].
  destruct index as [i |]; [| reflexivity].
  unfold overlay_size in *.
  destruct (getsize (_font g) (format_d i)) as [tw th] eqn:Esize.
  cbn [fst snd] in *.
  apply andb_prop in Hfit as [Hfw Hfh].
  apply Z.leb_le in Hfw, Hfh.
  erewrite setitem_topleft_fits.
  - reflexivity.
  - reflexivity.
  - apply draw_text_shape.
  - cbn [fst snd]. lia.
  - cbn [fst snd]. lia.
Qed.

Lemma get_image_overlay_raises (m : method) (d : dtype)
    (g : ImageGenerator) (w h dark light : Z) (i : Z) :
  py_getitem _methods (_method_index g) = Ret m ->
  py_getitem _datatypes (_datatype_index g) = Ret d ->
  1 <= w -> 1 <= h ->
  (m = Noise -> randint_bounds dark light) ->
  overlay_fits g (Some i) w h = false ->
  get_image lm rnd w h dark light (Some i) g =
  (Raise ValueError, after_call m g).
Proof.
  intros Hm Hd Hw Hh Hnoise Hfit.
  unfold get_image. unfold_monad. rewrite Hm, Hd. cbv beta iota.
  rewrite (call_pixels lm rnd m g d w h dark light) by assumption.
  cbv beta iota.
  destruct (after_call_numbering m g) as [-> [-> _]].
  unfold overlay_fits in Hfit.
  destruct (numbering g); [| discriminate].
  unfold overlay_size in *.
  destruct (getsize (_font g) (format_d i)) as [tw th] eqn:Esize.
  cbn [fst snd] in *.
  erewrite setitem_topleft_large.
  - reflexivity.
  - reflexivity.
  - apply draw_text_shape.
  - cbn [fst snd]. lia.
  - cbn [fst snd]. lia.
  - cbn [fst snd].
    apply andb_false_iff in Hfit as [Hf | Hf]; apply Z.leb_gt in Hf; lia.
Qed.

End GetImageFacts.

(** ** Value ranges *)

Lemma Qmod_bound (x y : Q) :
  (0 < y)%Q -> (0 <= Qmod x y)%Q /\ (Qmod x y < y)%Q.
Proof.
  intros Hy. unfold Qmod.
  pose proof (Qfloor_le (x / y)) as Hlo.
  pose proof (Qlt_floor (x / y)) as Hhi.
  rewrite inject_Z_plus in Hhi.
  assert (Hx : (x == y * (x / y))%Q) by (field; lra).
  set (f := inject_Z (Qfloor (x / y))) in *.
  set (t := (x / y)%Q) in *.
  change (inject_Z 1) with 1%Q in Hhi.
  assert (H0 : (0 <= y * (t - f))%Q) by (apply Qmult_le_0_compat; lra).
  assert (H1 : (0 < y * (f + 1 - t))%Q) by (apply Qmult_lt_0_compat; lra).
  split.
  - rewrite Hx at 1. lra.
  - rewrite Hx at 1. lra.
Qed.

Lemma py_int_bound (q : Q) (m : Z) :
  (0 <= q <= inject_Z m)%Q -> 0 <= py_int q <= m.
Proof.
  destruct q as [n d]. unfold py_int, Qle, inject_Z. simpl.
  intros [H0 Hm]. rewrite Z.mul_1_r in *.
  assert (Hn : 0 <= n) by lia.
  rewrite Z.quot_div_nonneg by lia.
  split.
  - apply Z.div_pos; lia.
  - apply Z.div_le_upper_bound; lia.
Qed.

(** Within the range of an unsigned type the cast only truncates. *)
Lemma astype_exact (d : dtype) (q : Q) :
  d = uint8 \/ d = uint16 ->
  representable d (Fin q) ->
  astype_elt d (Fin q) = of_Z (py_int q) /\ 0 <= py_int q <= iinfo_max d.
Proof.
  intros Hd Hr.
  assert (Hb : 0 <= py_int q <= iinfo_max d).
  { apply py_int_bound.
    destruct Hd as [-> | ->]; destruct Hr as [q' [Eq Hq]];
      injection Eq as <-; exact Hq. }
  split; [| exact Hb].
  destruct Hd as [-> | ->]; unfold astype_elt, wrap_bits; f_equal;
    simpl in Hb; rewrite Z.mod_small; try reflexivity; simpl; lia.
Qed.

Lemma tabulate_Forall {A} (P : A -> Prop) (h w : nat) (f : nat -> nat -> A) :
  (forall x y, (x < w)%nat -> (y < h)%nat -> P (f x y)) ->
  Forall (Forall P) (tabulate h w f).
Proof.
  intros H. unfold tabulate. apply Forall_forall. intros row Hrow.
  apply in_map_iff in Hrow as [y [<- Hy]]. apply in_seq in Hy.
  apply Forall_forall. intros v Hv.
  apply in_map_iff in Hv as [x [<- Hx]]. apply in_seq in Hx.
  apply H; lia.
Qed.

Lemma wrap_int64_small (z : Z) :
  - 2 ^ 63 <= z < 2 ^ 63 -> wrap_int64 z = z.
Proof. intros Hz. unfold wrap_int64. rewrite Z.mod_small; lia. Qed.

(** A product within int64 is the product, whatever [light] is. *)
Lemma int64_scale_exact (light k : Z) :
  - 2 ^ 63 <= light * k < 2 ^ 63 -> int64_scale light k = light * k.
Proof.
  intros Hp. unfold int64_scale.
  destruct (fits_int64 light); [now apply wrap_int64_small | reflexivity].
Qed.

Lemma fits_int64_range (z : Z) :
  fits_int64 z = true <-> - 2 ^ 63 <= z < 2 ^ 63.
Proof.
  unfold fits_int64. rewrite andb_true_iff, Z.leb_le, Z.ltb_lt. tauto.
Qed.

(** Squares within int64 are the squares. *)
Lemma int64_neg_sq_dist_exact (dx dy : Z) :
  dx ^ 2 + dy ^ 2 < 2 ^ 63 ->
  int64_neg_sq_dist dx dy = - (dx ^ 2 + dy ^ 2).
Proof.
  intros Hfit. unfold int64_neg_sq_dist.
  pose proof (Z.pow_even_nonneg dx 2 ltac:(now exists 1)) as Hx.
  pose proof (Z.pow_even_nonneg dy 2 ltac:(now exists 1)) as Hy.
  rewrite (wrap_int64_small (dx ^ 2)) by lia.
  rewrite (wrap_int64_small (dy ^ 2)) by lia.
  rewrite (wrap_int64_small (dx ^ 2 + dy ^ 2)) by lia.
  apply wrap_int64_small. lia.
Qed.

Section PixelRanges.

Variable lm : Libm.
Variable rnd : nat -> Z.
Variables w h dark light : Z.
Hypothesis Hw : 1 <= w.
Hypothesis Hh : 1 <= h.
Hypothesis Hdark : 0 <= dark.
Hypothesis Hlight : 0 <= light.

Lemma pixel_black (d : dtype) (th : Q) (x y : nat) :
  bounded 0 0 (pixel lm rnd Black d th w h dark light x y).
Proof. exists 0%Q. split; [reflexivity | lra]. Qed.

Lemma pixel_white (d : dtype) (th : Q) (x y : nat) :
  In d _datatypes ->
  bounded 0 (if is_integer d then inject_Z (iinfo_max d) else 1)
    (pixel lm rnd White d th w h dark light x y).
Proof.
  intros [<- | [<- | [<- | []]]]; eexists; (split; [reflexivity |]);
    vm_compute; split; discriminate.
Qed.

Lemma pixel_noise (d : dtype) (th : Q) (x y : nat) :
  dark < light ->
  bounded (inject_Z dark) (inject_Z (light - 1))
    (pixel lm rnd Noise d th w h dark light x y).
Proof.
  intros Hlt. eexists. split; [reflexivity |].
  pose proof (Z.mod_pos_bound (rnd (y * Z.to_nat w + x)) (light - dark)).
  rewrite <- !Zle_Qle. lia.
Qed.

Lemma pixel_gradient (d : dtype) (th : Q) (x y : nat) :
  2 <= w \/ 2 <= h ->
  light * (w - 1 + (h - 1)) < 2 ^ 63 ->
  (x < Z.to_nat w)%nat -> (y < Z.to_nat h)%nat ->
  bounded (inject_Z dark) (inject_Z (dark + light))
    (pixel lm rnd Gradient d th w h dark light x y).
Proof.
  intros Hsz Hfit Hx Hy. unfold pixel.
  rewrite int64_scale_exact by nia.
  unfold ndiv, nadd, of_Z.
  assert (Hs : 0 < w - 1 + (h - 1)) by lia.
  assert (Hs' : (0 < inject_Z (w - 1 + (h - 1)))%Q)
    by (rewrite <- (Zlt_Qlt 0); exact Hs).
  destruct (Qeq_bool (inject_Z (w - 1 + (h - 1))) 0) eqn:E.
  { apply Qeq_bool_iff in E. lra. }
  eexists. split; [reflexivity |].
  assert (Hn : 0 <= light * (Z.of_nat x + Z.of_nat y)) by nia.
  assert (Hm : (inject_Z (light * (Z.of_nat x + Z.of_nat y))
                <= inject_Z light * inject_Z (w - 1 + (h - 1)))%Q)
    by (rewrite <- inject_Z_mult, <- Zle_Qle; nia).
  rewrite Zle_Qle in Hn. change (inject_Z 0) with 0%Q in Hn.
  rewrite (inject_Z_plus dark light).
  set (n := inject_Z (light * (Z.of_nat x + Z.of_nat y))) in *.
  set (s := inject_Z (w - 1 + (h - 1))) in *.
  assert (H1 : (0 <= n / s)%Q) by (apply Qle_shift_div_l; lra).
  assert (H2 : (n / s <= inject_Z light)%Q)
    by (apply Qle_shift_div_r; lra).
  lra.
Qed.

Lemma pixel_one_gaussian (d : dtype) (th : Q) (x y : nat) :
  (w - 1) ^ 2 + (h - 1) ^ 2 < 2 ^ 63 ->
  (x < Z.to_nat w)%nat -> (y < Z.to_nat h)%nat ->
  bounded (inject_Z dark) (inject_Z (dark + light))
    (pixel lm rnd OneGaussian d th w h dark light x y).
Proof.
  intros Hfit Hx Hy. unfold pixel.
  pose proof (Z.mod_pos_bound (rnd 0%nat) w ltac:(lia)) as Hx0.
  pose proof (Z.mod_pos_bound (rnd 1%nat) h ltac:(lia)) as Hy0.
  rewrite int64_neg_sq_dist_exact by (rewrite !Z.pow_2_r in *; nia).
  unfold ndiv, nadd, nmul, nexp, of_Z.
  set (n := - ((Z.of_nat x - rnd 0%nat mod w) ^ 2
               + (Z.of_nat y - rnd 1%nat mod h) ^ 2)).
  set (s := (2 * ((1 # 100) * inject_Z (Z.max w h)) ^ 2)%Q).
  assert (Hmax : (1 <= inject_Z (Z.max w h))%Q)
    by (rewrite <- (Zle_Qle 1); lia).
  assert (Hs : (0 < s)%Q).
  { unfold s. simpl. set (mx := inject_Z (Z.max w h)) in *. nra. }
  destruct (Qeq_bool s 0) eqn:E.
  { apply Qeq_bool_iff in E. lra. }
  eexists. split; [reflexivity |].
  assert (Hn : n <= 0) by (unfold n; nia).
  rewrite Zle_Qle in Hn. change (inject_Z 0) with 0%Q in Hn.
  assert (Harg : (inject_Z n / s <= 0)%Q)
    by (apply Qle_shift_div_r; lra).
  destruct (fexp_unit lm _ Harg) as [He0 He1].
  assert (Hl : (0 <= inject_Z light)%Q)
    by (rewrite <- (Zle_Qle 0); exact Hlight).
  rewrite (inject_Z_plus dark light).
  set (e := fexp lm (inject_Z n / s)) in *. nra.
Qed.

Lemma pixel_sawtooth (d : dtype) (th : Q) (x y : nat) :
  2 <= w \/ 2 <= h ->
  bounded (inject_Z dark) (inject_Z (dark + light))
    (pixel lm rnd Sawtooth d th w h dark light x y).
Proof.
  intros Hsz. unfold pixel, ndiv, nadd, nmul, nmod, of_Z.
  set (wrap := ((1 # 10) * inject_Z (Z.max (w - 1) (h - 1)))%Q).
  assert (Hmax : (1 <= inject_Z (Z.max (w - 1) (h - 1)))%Q)
    by (rewrite <- (Zle_Qle 1); lia).
  assert (Hwrap : (0 < wrap)%Q) by (unfold wrap; lra).
  destruct (Qeq_bool wrap 0) eqn:E.
  { apply Qeq_bool_iff in E. lra. }
  eexists. split; [reflexivity |].
  set (a := (fsin lm th * inject_Z (Z.of_nat x)
             + fcos lm th * inject_Z (Z.of_nat y))%Q).
  destruct (Qmod_bound a wrap Hwrap) as [Hm0 Hm1].
  assert (Hl : (0 <= inject_Z light)%Q)
    by (rewrite <- (Zle_Qle 0); exact Hlight).
  set (r := Qmod a wrap) in *.
  assert (H1 : (0 <= inject_Z light * r / wrap)%Q)
    by (apply Qle_shift_div_l; nra).
  assert (H2 : (inject_Z light * r / wrap <= inject_Z light)%Q)
    by (apply Qle_shift_div_r; nra).
  rewrite (inject_Z_plus dark light). lra.
Qed.

End PixelRanges.

(** ** What a call may raise, and what it leaves alone *)

Lemma py_getitem_raise {A} (t : list A) (i : Z) (e : exn) :
  py_getitem t i = Raise e -> e = IndexError.
Proof.
  unfold py_getitem.
  destruct (_ && _); [destruct (nth_error _ _) |]; congruence.
Qed.

Lemma check_shape_raise (h w : Z) (e : exn) :
  check_shape h w = Raise e -> e = ValueError.
Proof. unfold check_shape. destruct (_ || _); congruence. Qed.

Lemma amax_raise (a : list (list Z)) (e : exn) :
  amax a = Raise e -> e = ValueError.
Proof. unfold amax. destruct (concat a); congruence. Qed.

Lemma np_random_randint_raise (low high r : Z) (e : exn) :
  np_random_randint low high r = Raise e -> e = ValueError.
Proof. unfold np_random_randint. destruct (_ <? _); congruence. Qed.

Lemma setitem_topleft_raise (data src : ndarray) (s1 s0 : nat) (e : exn) :
  setitem_topleft data s1 s0 src = Raise e -> e = ValueError.
Proof.
  unfold setitem_topleft.
  destruct (shape data), (shape src). destruct (_ && _); congruence.
Qed.

Section Effects.

Variable lm : Libm.
Variable rnd : nat -> Z.

(** Every strategy but [sawtooth] leaves the generator as it was, and
    [sawtooth] only steps the angle, whatever the arguments and whether
    or not the call raises. *)
Lemma call_state (m : method) (w h dark light : Z) (g : ImageGenerator) :
  exec (call lm rnd m w h dark light) g = after_call m g.
Proof.
  destruct m; cbv beta delta [call after_call] iota.
  - unfold exec.
    destruct (noise_cases rnd w h dark light g) as [-> | [f ->]];
      reflexivity.
  - unfold gradient, exec. destruct (meshgrid w h) as [xx yy].
    unfold_monad.
    destruct (amax xx); [| reflexivity].
    destruct (amax yy); reflexivity.
  - unfold sawtooth, exec. unfold_monad.
    destruct (next (_theta g)) as [th g']. cbn [snd].
    destruct (meshgrid w h) as [xx yy].
    destruct (amax xx); [| reflexivity].
    destruct (amax yy); reflexivity.
  - unfold one_gaussian, exec. unfold_monad.
    destruct (np_random_randint 0 w (rnd 0)); [| reflexivity].
    destruct (np_random_randint 0 h (rnd 1)); [| reflexivity].
    destruct (meshgrid w h). reflexivity.
  - unfold black, exec. unfold_monad.
    destruct (check_shape h w); reflexivity.
  - unfold white, exec. unfold_monad.
    destruct (py_getitem _datatypes (_datatype_index g)); [| reflexivity].
    destruct (check_shape h w); reflexivity.
Qed.

Lemma call_raise (m : method) (w h dark light : Z) (g : ImageGenerator)
    (e : exn) :
  eval (call lm rnd m w h dark light) g = Raise e ->
  e = ValueError \/ e = IndexError.
Proof.
  destruct m; cbv beta delta [call] iota.
  - unfold eval.
    destruct (noise_cases rnd w h dark light g) as [-> | [f ->]]; cbn.
    + intros [= <-]. now left.
    + discriminate.
  - unfold gradient, eval. destruct (meshgrid w h) as [xx yy].
    unfold_monad.
    destruct (amax xx) eqn:E1.
    + destruct (amax yy) eqn:E2; cbn; [discriminate |].
      intros [= <-]. left. eapply amax_raise, E2.
    + cbn. intros [= <-]. left. eapply amax_raise, E1.
  - unfold sawtooth, eval. unfold_monad.
    destruct (next (_theta g)) as [th g'].
    destruct (meshgrid w h) as [xx yy].
    destruct (amax xx) eqn:E1.
    + destruct (amax yy) eqn:E2; cbn; [discriminate |].
      intros [= <-]. left. eapply amax_raise, E2.
    + cbn. intros [= <-]. left. eapply amax_raise, E1.
  - unfold one_gaussian, eval. unfold_monad.
    destruct (np_random_randint 0 w (rnd 0)) eqn:E1.
    + destruct (np_random_randint 0 h (rnd 1)) eqn:E2.
      * destruct (meshgrid w h). cbn. discriminate.
      * cbn. intros [= <-]. left. eapply np_random_randint_raise, E2.
    + cbn. intros [= <-]. left. eapply np_random_randint_raise, E1.
  - unfold black, eval. unfold_monad.
    destruct (check_shape h w) eqn:E; cbn; [discriminate |].
    intros [= <-]. left. eapply check_shape_raise, E.
  - unfold white, eval. unfold_monad.
    destruct (py_getitem _datatypes (_datatype_index g)) eqn:E1.
    + destruct (check_shape h w) eqn:E2; cbn; [discriminate |].
      intros [= <-]. left. eapply check_shape_raise, E2.
    + cbn. intros [= <-]. right. eapply py_getitem_raise, E1.
Qed.

Lemma get_image_raise (w h dark light : Z) (index : option Z)
    (g : ImageGenerator) (e : exn) :
  eval (get_image lm rnd w h dark light index) g = Raise e ->
  e = ValueError \/ e = IndexError.
Proof.
  unfold get_image, eval. unfold_monad.
  destruct (py_getitem _methods (_method_index g)) as [m | e1] eqn:Em.
  2:{ cbn. intros [= <-]. right. eapply py_getitem_raise, Em. }
  destruct (py_getitem _datatypes (_datatype_index g)) as [d | e2] eqn:Ed.
  2:{ cbn. intros [= <-]. right. eapply py_getitem_raise, Ed. }
  pose proof (call_raise m w h dark light g) as Hcall.
  unfold eval in Hcall.
  destruct (call lm rnd m w h dark light g) as [[raw | e3] g1].
  2:{ cbn. intros [= <-]. apply Hcall. reflexivity. }
  destruct (numbering g1); [| cbn; discriminate].
  destruct index as [i |]; [| cbn; discriminate].
  destruct (getsize (_font g1) (format_d i)) as [tw th].
  destruct (setitem_topleft _ _ _ _) eqn:Es; cbn; [discriminate |].
  intros [= <-]. left. eapply setitem_topleft_raise, Es.
Qed.

Lemma get_image_state (w h dark light : Z) (index : option Z)
    (g : ImageGenerator) :
  py_getitem _methods (_method_index g) <> Ret Sawtooth ->
  exec (get_image lm rnd w h dark light index) g = g.
Proof.
  intros Hm. unfold get_image, exec. unfold_monad.
  destruct (py_getitem _methods (_method_index g)) as [m | e1] eqn:Em;
    [| reflexivity].
  destruct (py_getitem _datatypes (_datatype_index g)) as [d | e2] eqn:Ed;
    [| reflexivity].
  pose proof (call_state m w h dark light g) as Hcall.
  unfold exec in Hcall.
  destruct (call lm rnd m w h dark light g) as [[raw | e3] g1].
  - cbn [snd] in Hcall. subst g1.
    assert (Hg : after_call m g = g) by (destruct m; try reflexivity; congruence).
    rewrite Hg.
    destruct (numbering g); [| reflexivity].
    destruct index as [i |]; [| reflexivity].
    destruct (getsize (_font g) (format_d i)) as [tw th].
    reflexivity.
  - cbn [snd] in *. subst g1. destruct m; try reflexivity; congruence.
Qed.

End Effects.

(** ** Acquisition cycle *)

Lemma random_randint_0_100 (r : Z) :
  random_randint 0 100 r = Ret (r mod 101) /\ 0 <= r mod 101 <= 100.
Proof.
  split.
  - reflexivity.
  - pose proof (Z.mod_pos_bound r 101). lia.
Qed.

Lemma np_random_rand_unit (e : Z) :
  (0 <= np_random_rand e)%Q /\ (np_random_rand e < 1)%Q.
Proof.
  unfold np_random_rand, Qle, Qlt. cbn [Qnum Qden].
  pose proof (Z.mod_pos_bound e (2 ^ 53) ltac:(lia)) as H.
  rewrite !Z.mul_1_r, Z.mul_1_l, Z.mul_0_l.
  rewrite Pos2Z.inj_pow. exact H.
Qed.

Lemma py_int_lower (q : Q) (a : Z) :
  0 <= a -> (inject_Z a <= q)%Q -> a <= py_int q.
Proof.
  destruct q as [n d]. unfold py_int, Qle, inject_Z. simpl.
  intros H0 Ha. rewrite Z.mul_1_r in *.
  rewrite Z.quot_div_nonneg by lia.
  apply Z.div_le_lower_bound; lia.
Qed.

(** The bounds [_fetch_data] draws for a frame. *)
Lemma fetch_dark_light (e0 e1 : Z) :
  0 <= py_int (32 * np_random_rand e0) <= 31 /\
  127 <= py_int (255 - 128 * np_random_rand e1) <= 255.
Proof.
  destruct (np_random_rand_unit e0) as [H0 H1].
  destruct (np_random_rand_unit e1) as [H2 H3].
  split.
  - assert (Hb : 0 <= py_int (32 * np_random_rand e0) <= 32).
    { apply py_int_bound. change (inject_Z 32) with 32%Q. lra. }
    assert (Hne : py_int (32 * np_random_rand e0) <> 32).
    { intros Heq.
      assert (Hq : (inject_Z 32 <= 32 * np_random_rand e0)%Q).
      { unfold py_int in Heq.
        destruct (32 * np_random_rand e0)%Q as [n d] eqn:E.
        unfold Qle, inject_Z. simpl in *.
        assert (Hn : 0 <= n).
        { assert (Hq0 : (0 <= n # d)%Q) by (rewrite <- E; lra).
          unfold Qle in Hq0. simpl in Hq0. lia. }
        rewrite Z.quot_div_nonneg in Heq by lia.
        pose proof (Z.mul_div_le n (Z.pos d) ltac:(lia)). nia. }
      change (inject_Z 32) with 32%Q in Hq. lra. }
    lia.
  - split.
    + apply py_int_lower; [lia |]. change (inject_Z 127) with 127%Q. lra.
    + apply py_int_bound. change (inject_Z 255) with 255%Q. lra.
Qed.

Section FetchFacts.

Variable lm : Libm.
Variable r : Z.
Variable np : nat -> Z.

Lemma fetch_uninitialized (c : TestCamera) :
  _initialized c = false ->
  fetch lm r np c = (Raise DisabledDeviceError, c).
Proof.
  intros H. cbv beta delta [fetch _fetch_data must_be_initialized].
  rewrite H. reflexivity.
Qed.

Lemma fetch_nothing (c : TestCamera) :
  _initialized c = true ->
  _acquiring c && (0 <? _triggered c) = false ->
  fetch lm r np c = (Ret None, c).
Proof.
  intros Hi Hg. cbv beta delta [fetch _fetch_data must_be_initialized].
  rewrite Hi. unfold_monad. rewrite Hg. reflexivity.
Qed.

Lemma fetch_injected_error (c : TestCamera) :
  fetchable c = true ->
  r mod 101 < _error_percent c ->
  fetch lm r np c = (Raise DeviceError, c).
Proof.
  unfold fetchable. intros Hf Hd.
  apply andb_prop in Hf as [Hf Ht]. apply andb_prop in Hf as [Hi Ha].
  cbv beta delta [fetch _fetch_data must_be_initialized].
  rewrite Hi. unfold_monad. rewrite Ha, Ht.
  cbv beta delta [andb] iota.
  destruct (random_randint_0_100 r) as [-> _].
  apply Z.ltb_lt in Hd. rewrite Hd. reflexivity.
Qed.

(** Once the error check has passed, a fetch raises something other than
    the injected error, or returns a frame and consumes one trigger. *)
Lemma fetch_passed (c : TestCamera) :
  fetchable c = true ->
  _error_percent c <= r mod 101 ->
  (exists e, eval (fetch lm r np) c = Raise e /\ e <> DeviceError) \/
  (exists image,
      eval (fetch lm r np) c = Ret (Some image) /\
      _triggered (exec (fetch lm r np) c) = _triggered c - 1 /\
      _sent (exec (fetch lm r np) c) = _sent c + 1).
Proof.
  unfold fetchable. intros Hf Hd.
  apply andb_prop in Hf as [Hf Ht]. apply andb_prop in Hf as [Hi Ha].
  cbv beta delta [eval exec fetch _fetch_data must_be_initialized].
  rewrite Hi. unfold_monad. rewrite Ha, Ht.
  cbv beta delta [andb] iota.
  destruct (random_randint_0_100 r) as [-> _].
  apply Z.ltb_ge in Hd. rewrite Hd.
  unfold time_sleep.
  destruct (Qltb (_exposure_time c) 0).
  { left. exists ValueError. split; [reflexivity | discriminate]. }
  unfold py_floordiv.
  destruct (binning_h _ =? 0).
  { left. exists ZeroDivisionError. split; [reflexivity | discriminate]. }
  destruct (binning_v _ =? 0).
  { left. exists ZeroDivisionError. split; [reflexivity | discriminate]. }
  unfold on_image_generator.
  match goal with
  | |- context [get_image ?a ?b ?c ?d ?e ?f ?g ?h] =>
      pose proof (get_image_raise a b c d e f g h) as Hraise;
      unfold eval in Hraise;
      destruct (get_image a b c d e f g h) as [[image | e'] g']
  end.
  - right. exists image. destruct c; cbn. auto.
  - left. exists e'. split; [reflexivity |].
    destruct (Hraise e' eq_refl) as [-> | ->]; discriminate.
Qed.

(** A fetch answers [None] only when the camera is not acquiring or has
    no trigger pending. *)
Lemma fetch_pending (c : TestCamera) :
  fetchable c = true -> eval (fetch lm r np) c <> Ret None.
Proof.
  intros Hf.
  destruct (Z_lt_le_dec (r mod 101) (_error_percent c)) as [Hd | Hd].
  - unfold eval. rewrite fetch_injected_error by assumption. discriminate.
  - destruct (fetch_passed c Hf Hd) as [[e [-> _]] | [image [-> _]]];
      discriminate.
Qed.

(** The frame a passing fetch returns when the configuration is sound. *)
Lemma fetch_frame (c : TestCamera) (m : method) (d : dtype) :
  let g := _image_generator c in
  let dark := py_int (32 * np_random_rand (np 0%nat)) in
  let light := py_int (255 - 128 * np_random_rand (np 1%nat)) in
  let width := roi_width (_roi c) / binning_h (_binning c) in
  let height := roi_height (_roi c) / binning_v (_binning c) in
  fetchable c = true ->
  _error_percent c <= r mod 101 ->
  (0 <= _exposure_time c)%Q ->
  binning_h (_binning c) <> 0 -> binning_v (_binning c) <> 0 ->
  1 <= width -> 1 <= height ->
  py_getitem _methods (_method_index g) = Ret m ->
  py_getitem _datatypes (_datatype_index g) = Ret d ->
  overlay_fits g (Some (_sent c)) width height = true ->
  fetch lm r np c =
  (Ret (Some (frame lm (fun i => np (2 + i)%nat) m d g width height
                dark light (Some (_sent c)))),
   set_sent (_sent c + 1)
     (set_image_generator (after_call m g)
        (set_triggered (_triggered c - 1) c))).
Proof.
  intros g dark light width height Hf Hd Hexp Hbh Hbv Hw Hh Hm Hdt Hfit.
  unfold fetchable in Hf.
  apply andb_prop in Hf as [Hf Ht]. apply andb_prop in Hf as [Hi Ha].
  cbv beta delta [fetch _fetch_data must_be_initialized].
  rewrite Hi. unfold_monad. rewrite Ha, Ht.
  cbv beta delta [andb] iota.
  destruct (random_randint_0_100 r) as [-> _].
  apply Z.ltb_ge in Hd. rewrite Hd.
  unfold time_sleep, Qltb.
  replace (Qle_bool 0 (_exposure_time c)) with true
    by (symmetry; now apply Qle_bool_iff).
  cbv beta delta [negb] iota.
  unfold py_floordiv.
  apply Z.eqb_neq in Hbh, Hbv. cbn [_roi _binning set_triggered].
  rewrite Hbh, Hbv. cbv beta iota.
  unfold on_image_generator. cbn [_image_generator _sent set_triggered].
  destruct (fetch_dark_light (np 0%nat) (np 1%nat)) as [Hdark Hlight].
  rewrite (get_image_returns lm _ m d g width height dark light)
    by (try assumption; intros _; unfold randint_bounds;
        subst dark light; lia).
  reflexivity.
Qed.

End FetchFacts.

(** [enable] on a camera that was never initialized. *)
Lemma enable_uninitialized (c : TestCamera) :
  _initialized c = false -> enable c = (Raise DisabledDeviceError, c).
Proof.
  intros H. cbv beta delta [enable _do_enable must_be_initialized].
  rewrite H. reflexivity.
Qed.

Lemma enable_initialized (c : TestCamera) :
  _initialized c = true ->
  enable c = (Ret true, set_sent 0 (set_acquiring true c)).
Proof.
  intros H. cbv beta delta [enable _do_enable must_be_initialized].
  rewrite H. unfold abort, _create_buffers, _purge_buffers,
    must_be_initialized.
  unfold_monad.
  destruct c as [i ro b g a e gn acq t tr s]. cbn in *. subst i.
  destruct acq; reflexivity.
Qed.

Lemma disable_state (c : TestCamera) :
  disable c = (Ret tt, set_acquiring false c).
Proof.
  cbv beta delta [disable _do_disable abort]. unfold_monad.
  destruct c as [i ro b g a e gn acq t tr s]. destruct acq; reflexivity.
Qed.

Lemma trigger_state (c : TestCamera) :
  trigger c =
  (Ret tt, if _acquiring c then set_triggered (_triggered c + 1) c else c).
Proof.
  cbv beta delta [trigger _do_trigger]. unfold_monad.
  destruct (_acquiring c); reflexivity.
Qed.

(** ** Claims about the acquisition cycle *)

(** C1, counterexample.  On a freshly initialized camera, [enable();
    trigger(); disable(); enable()] followed by a fetch whose error draw
    passes does not return nothing: it returns frame number 0, of 512 by
    512 pixels. *)
Lemma pending_trigger_survives_disable :
  eval (fetch libm_rational 0 (fun _ => 0)) (reenabled camera0) =
  Ret (Some (frame libm_rational (fun _ => 0) Noise uint8
               (_image_generator camera0) 512 512 0 255 (Some 0))).
Proof.
  unfold eval.
  rewrite (fetch_frame libm_rational 0 (fun _ => 0) (reenabled camera0)
             Noise uint8); try reflexivity; try discriminate.
Qed.

(** C1, amended.  [disable()] only clears the acquiring flag.  After
    [enable(); trigger(); disable()] a fetch returns nothing while the
    camera is disabled, but the trigger stays pending across the disable
    and the next [enable()], so a fetch after re-enabling does not return
    nothing. *)
Theorem disable_keeps_pending_triggers
    (lm : Libm) (r : Z) (np : nat -> Z) (c : TestCamera) :
  _initialized c = true ->
  0 <= _triggered c ->
  let c3 := exec disable (exec trigger (exec enable c)) in
  let c4 := exec enable c3 in
  _acquiring c3 = false /\
  _triggered c3 = _triggered c + 1 /\
  fetch lm r np c3 = (Ret None, c3) /\
  _acquiring c4 = true /\
  _triggered c4 = _triggered c + 1 /\
  _sent c4 = 0 /\
  eval (fetch lm r np) c4 <> Ret None.
Proof.
  intros Hi Ht c3 c4.
  assert (E3 : c3 = set_acquiring false
                      (set_triggered (_triggered c + 1)
                         (set_sent 0 (set_acquiring true c)))).
  { unfold c3, exec.
    rewrite (enable_initialized c Hi). cbn [snd].
    rewrite trigger_state. cbn [snd].
    rewrite disable_state. reflexivity. }
  assert (Hi3 : _initialized c3 = true) by (rewrite E3; exact Hi).
  assert (E4 : c4 = set_sent 0 (set_acquiring true c3)).
  { unfold c4, exec. now rewrite (enable_initialized c3 Hi3). }
  assert (Ha3 : _acquiring c3 = false) by (rewrite E3; reflexivity).
  assert (Ht3 : _triggered c3 = _triggered c + 1) by (rewrite E3; reflexivity).
  repeat split.
  - exact Ha3.
  - exact Ht3.
  - apply fetch_nothing; [exact Hi3 | now rewrite Ha3].
  - rewrite E4. reflexivity.
  - rewrite E4. exact Ht3.
  - rewrite E4. reflexivity.
  - apply fetch_pending. rewrite E4. unfold fetchable.
    cbn [_initialized _acquiring _triggered set_sent set_acquiring].
    rewrite Hi3, Ht3. apply Z.ltb_lt. lia.
Qed.

Lemma disable_keeps_pending_triggers_witness :
  let c3 := exec disable (exec trigger (exec enable camera0)) in
  let c4 := exec enable c3 in
  _acquiring c3 = false /\
  _triggered c3 = _triggered camera0 + 1 /\
  fetch libm_rational 7 (fun _ => 0) c3 = (Ret None, c3) /\
  _acquiring c4 = true /\
  _triggered c4 = _triggered camera0 + 1 /\
  _sent c4 = 0 /\
  eval (fetch libm_rational 7 (fun _ => 0)) c4 <> Ret None.
Proof.
  apply (disable_keeps_pending_triggers libm_rational 7 (fun _ => 0) camera0).
  - reflexivity.
  - simpl. lia.
Defined.

(** C2, counterexample.  With one trigger pending, [enable()] leaves the
    pending-trigger count at 1. *)
Lemma enable_keeps_pending_trigger :
  ~ enable_resets_all (exec trigger (exec enable camera0)).
Proof.
  unfold enable_resets_all. intros [_ [_ H]]. vm_compute in H. discriminate.
Qed.

(** C2, amended.  [enable()] on an initialized camera sets the acquiring
    flag and resets the count of frames sent to 0; the count of pending
    triggers is not reset, it keeps its value. *)
Theorem enable_resets_sent_not_triggers (c : TestCamera) :
  _initialized c = true ->
  eval enable c = Ret true /\
  _acquiring (exec enable c) = true /\
  _sent (exec enable c) = 0 /\
  _triggered (exec enable c) = _triggered c.
Proof.
  intros Hi. unfold eval, exec. rewrite (enable_initialized c Hi).
  repeat split.
Qed.

Lemma enable_resets_sent_not_triggers_witness :
  eval enable camera_error_100 = Ret true /\
  _acquiring (exec enable camera_error_100) = true /\
  _sent (exec enable camera_error_100) = 0 /\
  _triggered (exec enable camera_error_100) = _triggered camera_error_100.
Proof.
  apply (enable_resets_sent_not_triggers camera_error_100). reflexivity.
Defined.

(** A fetchable fetch raises the injected error exactly when the draw is
    below the error rate. *)
Lemma fetch_error_iff (lm : Libm) (r : Z) (np : nat -> Z) (c : TestCamera) :
  fetchable c = true ->
  eval (fetch lm r np) c = Raise DeviceError <-> r mod 101 < _error_percent c.
Proof.
  intros Hf. split.
  - intros He.
    destruct (Z_lt_le_dec (r mod 101) (_error_percent c)) as [Hd | Hd];
      [exact Hd |].
    destruct (fetch_passed lm r np c Hf Hd) as [[e [E Hne]] | [image [E _]]];
      rewrite E in He; congruence.
  - intros Hd. unfold eval. now rewrite fetch_injected_error.
Qed.

(** C3.  A fetch that fails with the injected error leaves the camera as it
    was: the trigger is still pending, and a later fetch that returns a
    frame consumes it and advances the count of frames sent. *)
Theorem fetch_error_atomic
    (lm : Libm) (r : Z) (np : nat -> Z) (c : TestCamera) :
  eval (fetch lm r np) c = Raise DeviceError ->
  let c' := exec (fetch lm r np) c in
  c' = c /\
  fetchable c' = true /\
  forall (r' : Z) (np' : nat -> Z) (image : ndarray),
    eval (fetch lm r' np') c' = Ret (Some image) ->
    _triggered (exec (fetch lm r' np') c') = _triggered c - 1 /\
    _sent (exec (fetch lm r' np') c') = _sent c + 1.
Proof.
  intros He c'.
  assert (Hf : fetchable c = true).
  { unfold fetchable.
    destruct (_initialized c) eqn:Hi.
    - destruct (_acquiring c && (0 <? _triggered c)) eqn:Hg.
      + now rewrite <- andb_assoc, Hg.
      + unfold eval in He. rewrite fetch_nothing in He by assumption.
        discriminate.
    - unfold eval in He. rewrite fetch_uninitialized in He by assumption.
      discriminate. }
  assert (Hc : c' = c).
  { unfold c', exec. apply fetch_error_iff in He; [| exact Hf].
    now rewrite fetch_injected_error. }
  rewrite Hc. split; [reflexivity |]. split; [exact Hf |].
  intros r' np' image Hret.
  destruct (Z_lt_le_dec (r' mod 101) (_error_percent c)) as [Hd | Hd].
  - unfold eval in Hret. rewrite fetch_injected_error in Hret by assumption.
    discriminate.
  - destruct (fetch_passed lm r' np' c Hf Hd)
      as [[e [E _]] | [image' [_ [Ht Hs]]]].
    + rewrite E in Hret. discriminate.
    + split; assumption.
Qed.

Lemma fetch_error_atomic_witness :
  let c' := exec (fetch libm_rational 0 (fun _ => 0)) camera_error_100 in
  c' = camera_error_100 /\
  fetchable c' = true /\
  forall (r' : Z) (np' : nat -> Z) (image : ndarray),
    eval (fetch libm_rational r' np') c' = Ret (Some image) ->
    _triggered (exec (fetch libm_rational r' np') c')
    = _triggered camera_error_100 - 1 /\
    _sent (exec (fetch libm_rational r' np') c')
    = _sent camera_error_100 + 1.
Proof.
  apply (fetch_error_atomic libm_rational 0 (fun _ => 0) camera_error_100).
  reflexivity.
Defined.

(** C4, the code at the failing input.  [random.randint(0, 100)] can draw
    100, and then a fetch at an error rate of 100 percent raises nothing:
    it returns frame number 0 and consumes the trigger. *)
Theorem fetch_error_rate_100_draw_100 :
  fetchable camera_error_100 = true /\
  _error_percent camera_error_100 = 100 /\
  random_randint 0 100 100 = Ret 100 /\
  eval (fetch libm_rational 100 (fun _ => 0)) camera_error_100 =
  Ret (Some (frame libm_rational (fun _ => 0) Noise uint8
               (_image_generator camera0) 512 512 0 255 (Some 0))) /\
  _triggered (exec (fetch libm_rational 100 (fun _ => 0)) camera_error_100)
  = 0 /\
  _sent (exec (fetch libm_rational 100 (fun _ => 0)) camera_error_100) = 1.
Proof.
  repeat split; unfold eval, exec;
    rewrite (fetch_frame libm_rational 100 (fun _ => 0) camera_error_100
               Noise uint8); try reflexivity; try discriminate.
Qed.

(** C9.  Writing [v] to the setting ["_error_percent"] stores [v] as the
    error rate and overwrites ["a_setting"] with [v // 10], whatever value
    ["a_setting"] was given before. *)
Theorem error_percent_overwrites_a_setting (c : TestCamera) (a v : Z) :
  let c1 := exec (set_setting "a_setting" a) c in
  let c2 := exec (set_setting "_error_percent" v) c1 in
  get_setting "a_setting" c1 = Some a /\
  get_setting "_error_percent" c2 = Some v /\
  get_setting "a_setting" c2 = Some (v / 10) /\
  _a_setting (exec (_set_error_percent v) c) = v / 10.
Proof. repeat split. Qed.

(** ** Shape and typing of the returned frame *)

Lemma py_getitem_In {A} (t : list A) (i : Z) (a : A) :
  py_getitem t i = Ret a -> In a t.
Proof.
  unfold py_getitem. destruct (_ && _); [| discriminate].
  destruct (nth_error _ _) eqn:E; [| discriminate].
  intros [= <-]. eapply nth_error_In, E.
Qed.

Lemma tabulate_Forall_inv {A} (P : A -> Prop) (h w : nat)
    (f : nat -> nat -> A) (x y : nat) :
  Forall (Forall P) (tabulate h w f) ->
  (x < w)%nat -> (y < h)%nat -> P (f x y).
Proof.
  intros H Hx Hy. unfold tabulate in H.
  rewrite Forall_forall in H.
  specialize (H (map (fun x => f x y) (seq 0 w))).
  rewrite Forall_forall in H.
  apply H.
  - apply in_map_iff. exists y. split; [reflexivity | apply in_seq; lia].
  - apply in_map_iff. exists x. split; [reflexivity | apply in_seq; lia].
Qed.

Lemma array_of_well_shaped (d : dtype) (h w : Z) (f : nat -> nat -> num) :
  well_shaped (array_of d (Z.to_nat h) (Z.to_nat w) f) h w.
Proof.
  unfold well_shaped, array_of. cbn [shape elems].
  split; [reflexivity |]. split.
  - apply tabulate_length.
  - apply tabulate_rows.
Qed.

Lemma astype_elt_has_dtype (d : dtype) (v : num) :
  In d _datatypes -> has_dtype d (astype_elt d v).
Proof.
  intros [<- | [<- | [<- | []]]]; cbn [has_dtype astype_elt];
    try exact I; unfold wrap_bits;
    (destruct v as [q | s |];
     [ eexists; split; [reflexivity |];
       pose proof (Z.mod_pos_bound (py_int q) (2 ^ 8) ltac:(lia));
       pose proof (Z.mod_pos_bound (py_int q) (2 ^ 16) ltac:(lia));
       simpl; lia
     | exists 0; split; [reflexivity | simpl; lia]
     | exists 0; split; [reflexivity | simpl; lia] ]).
Qed.

Section FrameFacts.

Variable lm : Libm.
Variable rnd : nat -> Z.

Lemma frame_astype (m : method) (d : dtype) (th : Q) (w h dark light : Z) :
  astype d (array_of (strategy_dtype m d) (Z.to_nat h) (Z.to_nat w)
              (pixel lm rnd m d th w h dark light)) =
  array_of d (Z.to_nat h) (Z.to_nat w)
    (fun x y => astype_elt d (pixel lm rnd m d th w h dark light x y)).
Proof.
  unfold astype, array_of. cbn [shape elems].
  now rewrite tabulate_map.
Qed.

Lemma frame_well_shaped (m : method) (d : dtype) (g : ImageGenerator)
    (w h dark light : Z) (index : option Z) :
  well_shaped (frame lm rnd m d g w h dark light index) h w /\
  arr_dtype (frame lm rnd m d g w h dark light index) = d.
Proof.
  unfold frame. rewrite frame_astype.
  destruct (numbering g); [destruct index |];
    (split; [apply array_of_well_shaped | reflexivity]).
Qed.

Lemma frame_has_dtype (m : method) (d : dtype) (g : ImageGenerator)
    (w h dark light : Z) (index : option Z) :
  In d _datatypes ->
  Forall (Forall (has_dtype d))
    (elems (frame lm rnd m d g w h dark light index)).
Proof.
  intros Hd. unfold frame. rewrite frame_astype.
  assert (Hplain :
    Forall (Forall (has_dtype d))
      (elems (array_of d (Z.to_nat h) (Z.to_nat w)
         (fun x y =>
            astype_elt d
              (pixel lm rnd m d (fst (next (_theta g))) w h dark light
                 x y))))).
  { apply tabulate_Forall. intros x y _ _.
    now apply astype_elt_has_dtype. }
  destruct (numbering g); [| exact Hplain].
  destruct index as [i |]; [| exact Hplain].
  apply tabulate_Forall. intros x y Hx Hy.
  destruct (_ && _).
  - now apply astype_elt_has_dtype.
  - unfold item, array_of. cbn [elems].
    rewrite tabulate_nth by assumption.
    now apply astype_elt_has_dtype.
Qed.

End FrameFacts.

(** ** Claims about the image generator *)

Lemma bounded_weaken (lo hi lo' hi' : Q) (v : num) :
  bounded lo hi v -> (lo' <= lo)%Q -> (hi <= hi')%Q -> bounded lo' hi' v.
Proof.
  intros [q [-> [H1 H2]]] Hlo Hhi. exists q. split; [reflexivity | lra].
Qed.

Lemma representable_cast_exact (d : dtype) (v : num) :
  In d _datatypes -> representable d v -> cast_exact d v.
Proof.
  intros [<- | [<- | [<- | []]]] Hr; cbn [cast_exact]; try reflexivity;
    destruct Hr as [q [-> Hq]]; exists q;
    (split; [reflexivity |]); apply astype_exact; try tauto;
    exists q; (split; [reflexivity | exact Hq]).
Qed.

(** The range of the values of each strategy, for the bounds the camera
    draws. *)
Lemma pixel_representable (lm : Libm) (rnd : nat -> Z) (m : method)
    (d : dtype) (th : Q) (w h dark light : Z) (x y : nat) :
  In d _datatypes ->
  1 <= w -> 1 <= h -> 0 <= dark < 32 -> 127 < light <= 255 ->
  (x < Z.to_nat w)%nat -> (y < Z.to_nat h)%nat ->
  wrap_free m d w h dark light ->
  representable d (pixel lm rnd m d th w h dark light x y).
Proof.
  intros Hd Hw Hh Hdark Hlight Hx Hy Hsafe.
  assert (Hmax8 : d = uint8 -> dark + light <= 255 ->
                  (inject_Z (dark + light) <= inject_Z (iinfo_max d))%Q).
  { intros -> H. rewrite <- Zle_Qle. exact H. }
  assert (Hmax16 : d = uint16 ->
                   (inject_Z (dark + light) <= inject_Z (iinfo_max d))%Q).
  { intros ->. rewrite <- Zle_Qle. simpl. lia. }
  assert (Hlo : (0 <= inject_Z dark)%Q) by (rewrite <- (Zle_Qle 0); lia).
  destruct Hsafe as [-> | Hsafe]; [exact I |].
  destruct Hd as [<- | [<- | [<- | []]]]; try exact I;
    cbn [representable]; destruct m.
  all: try (eapply bounded_weaken;
            [ apply pixel_noise; lia | exact Hlo
            | rewrite <- Zle_Qle; simpl; lia ]).
  all: try (eapply bounded_weaken;
            [ apply pixel_black | lra | rewrite <- (Zle_Qle 0); simpl; lia ]).
  all: try (eapply bounded_weaken;
            [ apply pixel_white; simpl; tauto | lra | simpl; lra ]).
  all: try (destruct Hsafe as [Hsz [Hfit H8]]; eapply bounded_weaken;
            [ apply pixel_gradient; (assumption || lia) | exact Hlo
            | first [apply Hmax8; [reflexivity | now apply H8]
                    | now apply Hmax16] ]).
  all: try (destruct Hsafe as [Hsz H8]; eapply bounded_weaken;
            [ apply pixel_sawtooth; (assumption || lia) | exact Hlo
            | first [apply Hmax8; [reflexivity | now apply H8]
                    | now apply Hmax16] ]).
  all: try (destruct Hsafe as [Hfit H8]; eapply bounded_weaken;
            [ apply pixel_one_gaussian; (assumption || lia) | exact Hlo
            | first [apply Hmax8; [reflexivity | now apply H8]
                    | now apply Hmax16] ]).
Qed.

(** C5, counterexample.  With the gradient strategy and 8-bit output, a
    frame of 16 by 16 pixels with dark = 1 and light = 255 has the value
    256 at its bottom-right pixel, outside the range of the type. *)
Lemma gradient_uint8_out_of_range :
  ~ generate_in_range libm_rational (fun _ => 0) (set_method 1 generator0)
      16 16 1 255 (Some 0).
Proof.
  intros (m & d & raw & out & Hm & Hd & Hraw & _ & _ & Hrange).
  vm_compute in Hm. injection Hm as <-.
  vm_compute in Hd. injection Hd as <-.
  unfold eval in Hraw.
  rewrite (call_pixels libm_rational (fun _ => 0) Gradient
             (set_method 1 generator0) uint8 16 16 1 255) in Hraw
    by (try reflexivity; try discriminate; lia).
  cbn [fst] in Hraw. injection Hraw as <-.
  unfold array_of in Hrange. cbn [elems] in Hrange.
  apply (tabulate_Forall_inv _ _ _ _ 15%nat 15%nat) in Hrange;
    [| simpl; lia | simpl; lia].
  destruct Hrange as [q [Hq [_ Hhi]]].
  vm_compute in Hq. injection Hq as <-.
  vm_compute in Hhi. apply Hhi. reflexivity.
Qed.

(** What the wrapped pixel becomes in the returned frame. *)
Lemma gradient_uint8_wrapped_pixel :
  match eval (get_image libm_rational (fun _ => 0) 16 16 1 255 (Some 0))
          (set_method 1 generator0) with
  | Ret out => item out 15 15 = of_Z 0 /\ item out 15 14 = of_Z 247
  | Raise _ => False
  end.
Proof. vm_compute. split; reflexivity. Qed.

(** C5, amended.  For every strategy and output type, a request with
    [w, h >= 1], dark in [0, 32) and light in (127, 255], whose overlay is
    off or no larger than the frame, returns an array of shape exactly
    (h, w) whose elements are values of the output type.  The values of the
    strategy lie in the range of the type and the cast wraps none of them
    whenever [wrap_free] holds: always for black, white and noise and for
    float output; for gradient, one_gaussian and sawtooth the values reach
    dark + light, so 8-bit output needs dark + light <= 255, and gradient
    and sawtooth need a frame of more than one pixel; the int64 product of
    gradient, at most light * (w - 1 + h - 1), and the int64 sum of squares
    of one_gaussian, at most (w - 1)^2 + (h - 1)^2, must stay below
    2^63. *)
Theorem generate_shape_and_range
    (lm : Libm) (rnd : nat -> Z) (g : ImageGenerator) (m : method)
    (d : dtype) (w h dark light : Z) (index : option Z) :
  py_getitem _methods (_method_index g) = Ret m ->
  py_getitem _datatypes (_datatype_index g) = Ret d ->
  1 <= w -> 1 <= h ->
  0 <= dark < 32 -> 127 < light <= 255 ->
  overlay_fits g index w h = true ->
  exists raw out : ndarray,
    eval (call lm rnd m w h dark light) g = Ret raw /\
    eval (get_image lm rnd w h dark light index) g = Ret out /\
    well_shaped out h w /\
    arr_dtype out = d /\
    Forall (Forall (has_dtype d)) (elems out) /\
    (wrap_free m d w h dark light ->
     Forall (Forall (fun v => representable d v /\ cast_exact d v))
       (elems raw)).
Proof.
  intros Hm Hd Hw Hh Hdark Hlight Hfit.
  assert (Hnoise : m = Noise -> randint_bounds dark light)
    by (intros _; unfold randint_bounds; lia).
  pose proof (py_getitem_In _ _ _ Hd) as Hin.
  eexists. eexists. unfold eval.
  rewrite (call_pixels lm rnd m g d w h dark light) by assumption.
  rewrite (get_image_returns lm rnd m d g w h dark light index)
    by assumption.
  cbn [fst].
  split; [reflexivity |]. split; [reflexivity |].
  destruct (frame_well_shaped lm rnd m d g w h dark light index)
    as [Hshape Hdt].
  split; [exact Hshape |]. split; [exact Hdt |].
  split; [now apply frame_has_dtype |].
  intros Hsafe. unfold array_of. cbn [elems].
  apply tabulate_Forall. intros x y Hx Hy.
  assert (Hr : representable d
                 (pixel lm rnd m d (fst (next (_theta g))) w h dark light x y))
    by now apply pixel_representable.
  split; [exact Hr | now apply representable_cast_exact].
Qed.

Lemma generate_shape_and_range_witness :
  exists raw out : ndarray,
    eval (call libm_rational (fun _ => 0) Gradient 16 16 1 200)
      (set_method 1 generator0) = Ret raw /\
    eval (get_image libm_rational (fun _ => 0) 16 16 1 200 (Some 0))
      (set_method 1 generator0) = Ret out /\
    well_shaped out 16 16 /\
    arr_dtype out = uint8 /\
    Forall (Forall (has_dtype uint8)) (elems out) /\
    (wrap_free Gradient uint8 16 16 1 200 ->
     Forall (Forall (fun v => representable uint8 v /\ cast_exact uint8 v))
       (elems raw)).
Proof.
  apply (generate_shape_and_range libm_rational (fun _ => 0)
           (set_method 1 generator0) Gradient uint8 16 16 1 200 (Some 0));
    try reflexivity; try lia.
Defined.




(** C7, counterexample.  With the generator as constructed (noise,
    numbering on), a frame of 1 by 1 pixel with frame number 0 raises
    [ValueError]: the overlay bitmap, 8 by 13 pixels, does not broadcast
    into the frame.  So does, without any overlay, a request with
    dark = light, and one with a light above 2^63, which does not fit
    int64. *)
Lemma generate_raises_on_valid_requests :
  overlay_size pil_default_font 0 = (8%nat, 13%nat) /\
  eval (get_image libm_rational (fun _ => 0) 1 1 0 255 (Some 0))
    generator0 = Raise ValueError /\
  eval (get_image libm_rational (fun _ => 0) 16 16 128 128 None)
    generator0 = Raise ValueError /\
  eval (get_image libm_rational (fun _ => 0) 1 1 0 (2 ^ 63 + 1) None)
    generator0 = Raise ValueError.
Proof. repeat split. Qed.

(** C7, amended.  For every strategy, output type, numbering setting and
    frame number, [get_image] does not raise for [w, h >= 1] and bounds
    dark and light that fit int64, provided that dark < light when the
    strategy is noise and that the overlay is off or no larger than the
    frame. *)
Theorem generate_does_not_raise
    (lm : Libm) (rnd : nat -> Z) (g : ImageGenerator) (m : method)
    (d : dtype) (w h dark light : Z) (index : option Z) :
  py_getitem _methods (_method_index g) = Ret m ->
  py_getitem _datatypes (_datatype_index g) = Ret d ->
  1 <= w -> 1 <= h ->
  fits_int64 dark = true -> fits_int64 light = true ->
  (m = Noise -> dark < light) ->
  overlay_fits g index w h = true ->
  is_raise (eval (get_image lm rnd w h dark light index) g) = false.
Proof.
  intros Hm Hd Hw Hh Hdark Hlight Hnoise Hfit. unfold eval.
  rewrite (get_image_returns lm rnd m d g w h dark light index);
    try assumption; [reflexivity |].
  intros Hn. apply fits_int64_range in Hdark, Hlight.
  unfold randint_bounds. specialize (Hnoise Hn). lia.
Qed.

Lemma generate_does_not_raise_witness :
  is_raise (eval (get_image libm_rational (fun _ => 0) 2 2 0 255 None)
              generator0) = false.
Proof.
  apply (generate_does_not_raise libm_rational (fun _ => 0)
           generator0 Noise uint8 2 2 0 255 None);
    try reflexivity; try lia.
Defined.

(** ** The phase angle of [sawtooth] *)

Lemma TWOPI_pos : (0 < TWOPI)%Q.
Proof. reflexivity. Qed.

(** The generator yields the previous angle advanced by one step. *)
Lemma next_next (t : theta_generator) :
  fst (next (snd (next t))) = Qmod (fst (next t) + (1 # 100) * TWOPI) TWOPI.
Proof. destruct t; reflexivity. Qed.

Lemma sawtooth_state (lm : Libm) (w h dark light : Z) (g : ImageGenerator) :
  exec (sawtooth lm w h dark light) g = set_theta (snd (next (_theta g))) g.
Proof. exact (call_state lm (fun _ => 0) Sawtooth w h dark light g). Qed.

(** The image of a [sawtooth] call is drawn with [next_angle]. *)
Lemma sawtooth_uses_next_angle (lm : Libm) (w h dark light : Z)
    (g : ImageGenerator) :
  1 <= w -> 1 <= h ->
  eval (sawtooth lm w h dark light) g =
  Ret (array_of float64 (Z.to_nat h) (Z.to_nat w)
         (pixel lm (fun _ => 0) Sawtooth float64 (next_angle g)
            w h dark light)).
Proof.
  intros Hw Hh. unfold sawtooth, eval, next_angle. unfold_monad.
  destruct (next (_theta g)) as [th g'] eqn:Enext.
  destruct (amax_meshgrid w h Hw Hh) as [Hxmax Hymax].
  destruct (meshgrid w h) as [xx yy] eqn:Emesh.
  cbn [fst snd] in Hxmax, Hymax |- *.
  rewrite Hxmax, Hymax. cbv beta iota.
  unfold meshgrid in Emesh. injection Emesh as <- <-.
  rewrite map_grid_tabulate. reflexivity.
Qed.

Lemma next_angle_after_sawtooth (lm : Libm) (w h dark light : Z)
    (g : ImageGenerator) :
  next_angle (exec (sawtooth lm w h dark light) g) =
  Qmod (next_angle g + (1 # 100) * TWOPI) TWOPI.
Proof.
  rewrite sawtooth_state. unfold next_angle. cbn [_theta set_theta].
  apply next_next.
Qed.

(** C8.  In every sequence of [sawtooth] calls on one generator, the angle
    of a call is the angle of the call before it advanced by 0.01 * 2pi and
    wrapped modulo 2pi, whatever the arguments of the calls: the angle is
    kept by the generator between the calls. *)
Theorem sawtooth_angle_advances
    (lm : Libm) (calls : list (Z * Z * Z * Z)) (g : ImageGenerator)
    (n : nat) (a b : Q) :
  nth_error (sawtooth_angles lm calls g) n = Some a ->
  nth_error (sawtooth_angles lm calls g) (S n) = Some b ->
  b = Qmod (a + (1 # 100) * TWOPI) TWOPI /\ (0 <= b)%Q /\ (b < TWOPI)%Q.
Proof.
  revert g n. induction calls as [| [[[w h] dark] light] rest IH];
    intros g n Ha Hb.
  - destruct n; discriminate.
  - destruct n as [| n].
    + cbn in Ha. injection Ha as <-.
      destruct rest as [| [[[w' h'] dark'] light'] rest']; [discriminate |].
      cbn in Hb. injection Hb as <-.
      rewrite next_angle_after_sawtooth.
      split; [reflexivity |]. apply Qmod_bound, TWOPI_pos.
    + cbn [sawtooth_angles nth_error] in Ha, Hb.
      exact (IH _ _ Ha Hb).
Qed.

Lemma sawtooth_angle_advances_witness :
  let b := Qmod (0 + (1 # 100) * TWOPI) TWOPI in
  b = Qmod (0 + (1 # 100) * TWOPI) TWOPI /\ (0 <= b)%Q /\ (b < TWOPI)%Q.
Proof.
  apply (sawtooth_angle_advances libm_rational
           [(4, 4, 0, 255); (1, 1, 3, 2); (8, 2, 0, 255)] generator0
           0%nat 0%Q (Qmod (0 + (1 # 100) * TWOPI) TWOPI)); reflexivity.
Defined.

(** ** Strategies other than [sawtooth] *)

Section Interleaving.

Variable lm : Libm.
Variable rnd : nat -> Z.

(** The generator after [get_image], whether or not it raised. *)
Lemma get_image_exec (w h dark light : Z) (index : option Z)
    (g : ImageGenerator) :
  exec (get_image lm rnd w h dark light index) g =
  match py_getitem _methods (_method_index g),
        py_getitem _datatypes (_datatype_index g) with
  | Ret m, Ret _ => after_call m g
  | _, _ => g
  end.
Proof.
  unfold get_image, exec. unfold_monad.
  destruct (py_getitem _methods (_method_index g)) as [m | e1];
    [| reflexivity].
  destruct (py_getitem _datatypes (_datatype_index g)) as [d | e2];
    [| reflexivity].
  pose proof (call_state lm rnd m w h dark light g) as Hcall.
  unfold exec in Hcall.
  destruct (call lm rnd m w h dark light g) as [[raw | e3] g1];
    cbn [snd] in Hcall; subst g1; [| reflexivity].
  destruct (numbering (after_call m g)); [| reflexivity].
  destruct index as [i |]; [| reflexivity].
  destruct (getsize _ _) as [tw th]. reflexivity.
Qed.

Lemma generate_exec (q : request) (g : ImageGenerator) :
  exec (generate lm rnd q) g =
  match py_getitem _methods (req_method q),
        py_getitem _datatypes (_datatype_index g) with
  | Ret m, Ret _ => after_call m (set_method (req_method q) g)
  | _, _ => set_method (req_method q) g
  end.
Proof.
  unfold generate.
  change (exec (modify (set_method (req_method q));;; _) g)
    with (exec (get_image lm rnd (req_width q) (req_height q)
                  (req_dark q) (req_light q) (req_index q))
            (set_method (req_method q) g)).
  now rewrite get_image_exec.
Qed.

Lemma after_call_datatype (m : method) (g : ImageGenerator) :
  _datatype_index (after_call m g) = _datatype_index g.
Proof. now destruct m. Qed.

Lemma after_call_theta (m : method) (g : ImageGenerator) :
  m <> Sawtooth -> _theta (after_call m g) = _theta g.
Proof. destruct m; intros H; try reflexivity. congruence. Qed.

(** The angle after a sequence of requests depends on its [sawtooth]
    requests only. *)
Lemma run_requests_theta (qs : list request) (g g' : ImageGenerator) :
  _theta g = _theta g' ->
  _datatype_index g = _datatype_index g' ->
  _theta (run_requests lm rnd qs g) =
  _theta (run_requests lm rnd (filter selects_sawtooth qs) g').
Proof.
  revert g g'. induction qs as [| q rest IH]; intros g g' Ht Hd.
  - exact Ht.
  - cbn [run_requests filter].
    destruct (selects_sawtooth q) eqn:Es.
    + cbn [run_requests]. apply IH.
      * rewrite !generate_exec, <- Hd.
        unfold selects_sawtooth in Es.
        destruct (py_getitem _methods (req_method q)) as [m | e];
          [| discriminate].
        destruct m; try discriminate.
        destruct (py_getitem _datatypes (_datatype_index g)).
        -- cbn. now rewrite Ht.
        -- exact Ht.
      * rewrite !generate_exec, <- Hd.
        destruct (py_getitem _methods (req_method q)) as [m | e];
          [| exact Hd].
        destruct (py_getitem _datatypes (_datatype_index g));
          [| exact Hd].
        now rewrite !after_call_datatype.
    + apply IH.
      * rewrite generate_exec. unfold selects_sawtooth in Es.
        destruct (py_getitem _methods (req_method q)) as [m | e];
          [| exact Ht].
        destruct (py_getitem _datatypes (_datatype_index g));
          [| exact Ht].
        rewrite after_call_theta; [exact Ht |].
        intros ->. discriminate.
      * rewrite generate_exec.
        destruct (py_getitem _methods (req_method q)) as [m | e];
          [| exact Hd].
        destruct (py_getitem _datatypes (_datatype_index g));
          [| exact Hd].
        now rewrite after_call_datatype.
Qed.

End Interleaving.

(** C10.  Generating a frame while the selected strategy is not sawtooth
    leaves the generator, and with it the angle of the next sawtooth frame,
    as it was; and after any sequence of requests the angle is the one the
    sawtooth requests of the sequence alone would have left. *)
Theorem other_strategies_keep_angle
    (lm : Libm) (rnd : nat -> Z) (g : ImageGenerator)
    (w h dark light : Z) (index : option Z) (qs : list request) :
  py_getitem _methods (_method_index g) <> Ret Sawtooth ->
  exec (get_image lm rnd w h dark light index) g = g /\
  next_angle (exec (get_image lm rnd w h dark light index) g)
  = next_angle g /\
  _theta (run_requests lm rnd qs g) =
  _theta (run_requests lm rnd (filter selects_sawtooth qs) g).
Proof.
  intros Hm.
  assert (E : exec (get_image lm rnd w h dark light index) g = g)
    by now apply get_image_state.
  split; [exact E |]. split; [now rewrite E |].
  now apply run_requests_theta.
Qed.

Lemma other_strategies_keep_angle_witness :
  let qs := [ mk_request 2 4 4 0 255 (Some 0);
              mk_request 1 4 4 0 255 (Some 1);
              mk_request 4 16 16 0 255 (Some 2);
              mk_request 2 4 4 0 255 (Some 3) ] in
  exec (get_image libm_rational (fun _ => 0) 16 16 0 255 (Some 0))
    generator0 = generator0 /\
  next_angle (exec (get_image libm_rational (fun _ => 0) 16 16 0 255 (Some 0))
                generator0)
  = next_angle generator0 /\
  _theta (run_requests libm_rational (fun _ => 0) qs generator0) =
  _theta (run_requests libm_rational (fun _ => 0)
            (filter selects_sawtooth qs) generator0).
Proof.
  apply (other_strategies_keep_angle libm_rational (fun _ => 0) generator0
           16 16 0 255 (Some 0)).
  discriminate.
Defined.

(** * Further properties of the camera *)

Ltac same_state :=
  split; [assumption || reflexivity |];
  split; [assumption || reflexivity |];
  left; split; [reflexivity |]; split; [reflexivity |]; left; reflexivity.

Ltac trigger_consumed :=
  split; [assumption || reflexivity |];
  split; [assumption || reflexivity |];
  left; split; [reflexivity |]; split; [reflexivity |];
  right; split; [assumption | reflexivity].

(** What one fetch does to the counters, in every case: a frame comes with
    one trigger consumed and one frame counted; without a frame the count
    of frames stays, and a trigger is consumed or not. *)
Lemma fetch_effect (lm : Libm) (r : Z) (np : nat -> Z) (c : TestCamera) :
  let o := eval (fetch lm r np) c in
  let c' := exec (fetch lm r np) c in
  _initialized c' = _initialized c /\
  _acquiring c' = _acquiring c /\
  ((is_frame o = false /\ _sent c' = _sent c /\
    (_triggered c' = _triggered c \/
     (0 < _triggered c /\ _triggered c' = _triggered c - 1)))
   \/
   (is_frame o = true /\ 0 < _triggered c /\
    _triggered c' = _triggered c - 1 /\ _sent c' = _sent c + 1)).
Proof.
  cbv zeta.
  cbv beta delta [eval exec fetch _fetch_data must_be_initialized].
  destruct (_initialized c) eqn:Hi.
  2:{ cbn. same_state. }
  unfold_monad.
  destruct (_acquiring c) eqn:Ha.
  2:{ cbn. same_state. }
  destruct (0 <? _triggered c) eqn:Ht.
  2:{ cbn. same_state. }
  apply Z.ltb_lt in Ht.
  cbv beta delta [andb] iota.
  destruct (random_randint_0_100 r) as [-> _].
  destruct (r mod 101 <? _error_percent c).
  { cbn. same_state. }
  unfold time_sleep.
  destruct (Qltb (_exposure_time c) 0).
  { cbn. same_state. }
  unfold py_floordiv.
  destruct (binning_h _ =? 0).
  { destruct c; cbn in *. trigger_consumed. }
  destruct (binning_v _ =? 0).
  { destruct c; cbn in *. trigger_consumed. }
  unfold on_image_generator.
  match goal with
  | |- context [get_image ?a ?b ?c ?d ?e ?f ?g ?h] =>
      destruct (get_image a b c d e f g h) as [[image | e'] g']
  end.
  - destruct c; cbn in *.
    split; [assumption |]. split; [assumption |].
    right. split; [reflexivity |]. split; [assumption |].
    split; reflexivity.
  - destruct c; cbn in *. trigger_consumed.
Qed.

(** A write to a setting touches neither the counters nor the flags. *)
Lemma set_setting_counters (name : string) (value : Z) (c : TestCamera) :
  let c' := exec (set_setting name value) c in
  _initialized c' = _initialized c /\ _acquiring c' = _acquiring c /\
  _triggered c' = _triggered c /\ _sent c' = _sent c.
Proof.
  cbv zeta. unfold set_setting, _settings, lookup_setting.
  repeat match goal with
         | |- context [String.eqb ?a ?b] => destruct (String.eqb a b)
         end; repeat split.
Qed.

Lemma soft_trigger_state (c : TestCamera) :
  soft_trigger c =
  if _initialized c then trigger c else (Raise DisabledDeviceError, c).
Proof. reflexivity. Qed.

Lemma camera_call_invariant (lm : Libm) (k : camera_call) (c : TestCamera) :
  camera_invariant c -> camera_invariant (after_camera_call lm k c).
Proof.
  unfold camera_invariant. intros [Ht [Hs Hai]].
  destruct k; cbn [after_camera_call].
  - (* initialize *) destruct c; cbn in *. repeat split; auto.
  - (* enable *)
    unfold exec. destruct (_initialized c) eqn:Hi.
    + rewrite (enable_initialized c Hi). destruct c; cbn in *.
      repeat split; auto; lia.
    + rewrite (enable_uninitialized c Hi). cbn. rewrite Hi. auto.
  - (* disable *)
    unfold exec. rewrite disable_state. destruct c; cbn in *.
    repeat split; auto. discriminate.
  - (* abort *)
    unfold exec.
    change (abort c) with (disable c). rewrite disable_state.
    destruct c; cbn in *. repeat split; auto. discriminate.
  - (* trigger *)
    unfold exec. rewrite trigger_state.
    destruct (_acquiring c) eqn:Ha; cbn [snd]; [| rewrite Ha; auto].
    destruct c; cbn in *. repeat split; auto; lia.
  - (* soft_trigger *)
    unfold exec. rewrite soft_trigger_state.
    destruct (_initialized c) eqn:Hi; [| cbn; rewrite Hi; auto].
    rewrite trigger_state.
    destruct (_acquiring c) eqn:Ha; cbn [snd]; [| rewrite Hi, Ha; auto].
    destruct c; cbn in *. repeat split; auto; lia.
  - (* fetch *)
    destruct (fetch_effect lm py_entropy np_entropy c)
      as [Ei [Ea [[_ [Es Et]] | [_ [Hpos [Et Es]]]]]].
    + rewrite Ei, Ea, Es. repeat split; auto.
      destruct Et as [-> | [Hpos ->]]; lia.
    + rewrite Ei, Ea, Es, Et. repeat split; auto; lia.
  - (* a setting *)
    destruct (set_setting_counters name value c) as [Ei [Ea [Et Es]]].
    rewrite Ei, Ea, Et, Es. auto.
  - (* exposure time *)
    destruct c; cbn in *. auto.
Qed.

(** X1.  However a camera is used after its construction (initialize,
    enable, disable, abort, trigger, soft_trigger, fetch with any draws,
    writes to settings and to the exposure time, in any order and with
    exceptions caught), its counts of pending triggers and of frames sent
    are never negative, and it is acquiring only if it was initialized. *)
Theorem camera_counters_never_negative
    (lm : Libm) (font : Font) (ks : list camera_call) :
  camera_invariant (after_camera_calls lm ks (TestCamera__init__ font)).
Proof.
  unfold after_camera_calls.
  assert (H0 : camera_invariant (TestCamera__init__ font)).
  { unfold camera_invariant. cbn. repeat split; try lia. }
  revert H0. generalize (TestCamera__init__ font).
  induction ks as [| k ks IH]; intros c Hc; cbn [fold_left].
  - exact Hc.
  - apply IH. now apply camera_call_invariant.
Qed.



(** ** The shape of what is returned *)

Lemma well_shaped_map (d : dtype) (f : num -> num) (a : ndarray) (h w : Z) :
  well_shaped a h w ->
  well_shaped (mk_ndarray d (shape a) (map (map f) (elems a))) h w.
Proof.
  intros [Hs [Hl Hr]]. unfold well_shaped. cbn [shape elems].
  split; [exact Hs |]. split; [now rewrite length_map |].
  apply Forall_forall. intros row Hin.
  apply in_map_iff in Hin as [row' [<- Hin']].
  rewrite length_map. rewrite Forall_forall in Hr. now apply Hr.
Qed.

Lemma check_shape_ret (h w : Z) (s : nat * nat) :
  check_shape h w = Ret s -> s = (Z.to_nat h, Z.to_nat w).
Proof.
  unfold check_shape. destruct (_ || _); [discriminate |].
  now intros [= <-].
Qed.

Lemma meshgrid_well_shaped (d : dtype) (f : Z -> Z -> num) (w h : Z) :
  well_shaped
    (mk_ndarray d (Z.to_nat h, Z.to_nat w)
       (map_grid f (fst (meshgrid w h)) (snd (meshgrid w h)))) h w.
Proof.
  unfold meshgrid. cbn [fst snd]. rewrite map_grid_tabulate.
  apply (array_of_well_shaped d h w).
Qed.

Section Shapes.

Variable lm : Libm.
Variable rnd : nat -> Z.

(** Whatever a strategy returns has [h] rows of [w] columns, also for
    empty frames. *)
Lemma call_well_shaped (m : method) (w h dark light : Z)
    (g : ImageGenerator) (raw : ndarray) :
  eval (call lm rnd m w h dark light) g = Ret raw -> well_shaped raw h w.
Proof.
  destruct m; cbv beta delta [call] iota.
  - unfold eval.
    destruct (noise_cases rnd w h dark light g) as [-> | [f ->]]; cbn.
    + discriminate.
    + intros [= <-]. apply array_of_well_shaped.
  - unfold gradient, eval.
    pose proof (fun f => meshgrid_well_shaped float64 f w h) as Hmesh.
    destruct (meshgrid w h) as [xx yy]. unfold_monad.
    destruct (amax xx); [| discriminate].
    destruct (amax yy); [| discriminate].
    cbn [fst snd] in Hmesh. cbn. intros [= <-]. apply Hmesh.
  - unfold sawtooth, eval. unfold_monad.
    destruct (next (_theta g)) as [th g'].
    pose proof (fun f => meshgrid_well_shaped float64 f w h) as Hmesh.
    destruct (meshgrid w h) as [xx yy].
    destruct (amax xx); [| discriminate].
    destruct (amax yy); [| discriminate].
    cbn [fst snd] in Hmesh. cbn. intros [= <-]. apply Hmesh.
  - unfold one_gaussian, eval. unfold_monad.
    destruct (np_random_randint 0 w (rnd 0)); [| discriminate].
    destruct (np_random_randint 0 h (rnd 1)); [| discriminate].
    pose proof (fun f => meshgrid_well_shaped float64 f w h) as Hmesh.
    destruct (meshgrid w h) as [xx yy].
    cbn [fst snd] in Hmesh. cbn. intros [= <-]. apply Hmesh.
  - unfold black, eval. unfold_monad.
    destruct (check_shape h w) as [s | e] eqn:E; [| discriminate].
    apply check_shape_ret in E. subst s.
    cbn. intros [= <-]. apply array_of_well_shaped.
  - unfold white, eval. unfold_monad.
    destruct (py_getitem _datatypes (_datatype_index g)); [| discriminate].
    destruct (check_shape h w) as [s | e] eqn:E; [| discriminate].
    apply check_shape_ret in E. subst s.
    intros [= <-].
    apply (well_shaped_map _ _
             (astype _ (array_of float64 (Z.to_nat h) (Z.to_nat w)
                          (fun _ _ => of_Z 1)))).
    unfold astype. apply well_shaped_map. apply array_of_well_shaped.
Qed.

Lemma setitem_topleft_well_shaped (data src out : ndarray) (s1 s0 : nat)
    (h w : Z) :
  shape data = (Z.to_nat h, Z.to_nat w) ->
  setitem_topleft data s1 s0 src = Ret out ->
  well_shaped out h w /\ arr_dtype out = arr_dtype data.
Proof.
  intros Hs. unfold setitem_topleft. rewrite Hs.
  destruct (shape src) as [sh sw].
  destruct (_ && _); [| discriminate].
  intros [= <-]. split; [apply array_of_well_shaped | reflexivity].
Qed.

Lemma get_image_well_shaped (w h dark light : Z) (index : option Z)
    (g : ImageGenerator) (out : ndarray) :
  eval (get_image lm rnd w h dark light index) g = Ret out ->
  py_getitem _datatypes (_datatype_index g) = Ret (arr_dtype out) /\
  well_shaped out h w.
Proof.
  unfold get_image, eval. unfold_monad.
  destruct (py_getitem _methods (_method_index g)) as [m | e1];
    [| discriminate].
  destruct (py_getitem _datatypes (_datatype_index g)) as [d | e2];
    [| discriminate].
  pose proof (call_well_shaped m w h dark light g) as Hcall.
  unfold eval in Hcall.
  destruct (call lm rnd m w h dark light g) as [[raw | e3] g1];
    [| discriminate].
  specialize (Hcall raw eq_refl).
  assert (Hdata : well_shaped (astype d raw) h w)
    by (unfold astype; now apply well_shaped_map).
  destruct (numbering g1).
  - destruct index as [i |].
    + destruct (getsize (_font g1) (format_d i)) as [tw th].
      destruct (setitem_topleft _ _ _ _) as [out' | e4] eqn:Es;
        [| discriminate].
      cbn. intros [= <-].
      destruct Hdata as [Hshape _].
      destruct (setitem_topleft_well_shaped _ _ _ _ _ h w Hshape Es)
        as [Hws Hdt].
      split; [now rewrite Hdt | exact Hws].
    + cbn. intros [= <-]. split; [reflexivity | exact Hdata].
  - cbn. intros [= <-]. split; [reflexivity | exact Hdata].
Qed.

End Shapes.

(** X3.  Every frame a fetch returns has [roi.height // binning.v] rows of
    [roi.width // binning.h] columns and the element type selected by the
    setting "image data type". *)
Theorem fetch_frame_shape
    (lm : Libm) (r : Z) (np : nat -> Z) (c : TestCamera) (image : ndarray) :
  eval (fetch lm r np) c = Ret (Some image) ->
  py_getitem _datatypes (_datatype_index (_image_generator c))
  = Ret (arr_dtype image) /\
  well_shaped image
    (roi_height (_roi c) / binning_v (_binning c))
    (roi_width (_roi c) / binning_h (_binning c)).
Proof.
  cbv beta delta [eval fetch _fetch_data must_be_initialized].
  destruct (_initialized c); [| cbn; discriminate].
  unfold_monad.
  destruct (_acquiring c && (0 <? _triggered c)); [| cbn; discriminate].
  destruct (random_randint_0_100 r) as [-> _].
  destruct (r mod 101 <? _error_percent c); [cbn; discriminate |].
  destruct (time_sleep (_exposure_time c)); [| cbn; discriminate].
  unfold py_floordiv.
  cbn [_roi _binning set_triggered _image_generator _sent].
  destruct (binning_h _ =? 0); [cbn; discriminate |].
  destruct (binning_v _ =? 0); [cbn; discriminate |].
  unfold on_image_generator. cbn [_image_generator set_triggered].
  match goal with
  | |- context [get_image ?a ?b ?c ?d ?e ?f ?g ?h] =>
      pose proof (get_image_well_shaped a b c d e f g h) as Hshape;
      unfold eval in Hshape;
      destruct (get_image a b c d e f g h) as [[image' | e'] g']
  end; [| cbn; discriminate].
  cbn. intros [= <-]. now apply Hshape.
Qed.

Lemma fetch_frame_shape_witness :
  let c := exec trigger
             (exec enable
                (exec (_set_binning (mk_Binning 2 4))
                   (exec (_set_roi (mk_ROI 0 0 32 64)) camera0))) in
  let image := frame libm_rational (fun _ => 0) Noise uint8
                 (_image_generator c) 16 16 0 255 (Some 0) in
  py_getitem _datatypes (_datatype_index (_image_generator c))
  = Ret (arr_dtype image) /\
  well_shaped image
    (roi_height (_roi c) / binning_v (_binning c))
    (roi_width (_roi c) / binning_h (_binning c)).
Proof.
  apply (fetch_frame_shape libm_rational 0 (fun _ => 0)).
  vm_compute. reflexivity.
Defined.
(** ** Counting draws, frames and triggers *)

Lemma count_below (p : Z) (n : nat) :
  length (filter (fun draw => draw <? p) (map Z.of_nat (seq 0 n))) =
  Z.to_nat (Z.min (Z.of_nat n) (Z.max 0 p)).
Proof.
  induction n as [| n IH].
  - simpl. lia.
  - rewrite seq_S, map_app, filter_app, length_app, IH. cbn [map filter plus].
    destruct (Z.of_nat n <? p) eqn:E.
    + apply Z.ltb_lt in E. cbn [length]. lia.
    + apply Z.ltb_ge in E. cbn [length]. lia.
Qed.

(** X4.  The error rate works in steps of 1/101: a fetch with a pending
    trigger raises the injected error exactly on the draws below the rate,
    and of the 101 draws of [random.randint(0, 100)] that many are below a
    rate [p] between 0 and 101; a rate of 0 or less never fails and only a
    rate above 100 always fails. *)
Theorem error_rate_in_steps_of_101
    (lm : Libm) (np : nat -> Z) (c : TestCamera) :
  fetchable c = true ->
  (forall r : Z,
      eval (fetch lm r np) c = Raise DeviceError <->
      In (r mod 101) (failing_draws (_error_percent c))) /\
  length (failing_draws (_error_percent c)) =
  Z.to_nat (Z.min 101 (Z.max 0 (_error_percent c))).
Proof.
  intros Hf. split.
  - intros r. rewrite (fetch_error_iff lm r np c Hf).
    unfold failing_draws. rewrite filter_In, in_map_iff.
    pose proof (Z.mod_pos_bound r 101 ltac:(lia)) as Hr.
    split.
    + intros Hlt. split.
      * exists (Z.to_nat (r mod 101)). split; [lia |].
        apply in_seq. lia.
      * now apply Z.ltb_lt.
    + intros [_ Hlt]. now apply Z.ltb_lt.
  - unfold failing_draws. now rewrite count_below.
Qed.

Lemma error_rate_in_steps_of_101_witness :
  (forall r : Z,
      eval (fetch libm_rational r (fun _ => 0)) camera_error_100
      = Raise DeviceError <->
      In (r mod 101) (failing_draws (_error_percent camera_error_100))) /\
  length (failing_draws (_error_percent camera_error_100)) =
  Z.to_nat (Z.min 101 (Z.max 0 (_error_percent camera_error_100))).
Proof.
  apply (error_rate_in_steps_of_101 libm_rational (fun _ => 0)
           camera_error_100).
  reflexivity.
Defined.

(** X5.  In a run of fetches with no trigger in between, no more frames
    are returned than triggers were pending, every returned frame is
    counted in the frames sent, and the pending triggers go down by at
    least the number of frames. *)
Theorem frames_never_exceed_triggers
    (lm : Libm) (es : list (Z * (nat -> Z))) (c : TestCamera) :
  let frames :=
    Z.of_nat (length (filter is_frame (fst (fetch_many lm es c)))) in
  let c' := snd (fetch_many lm es c) in
  frames <= Z.max 0 (_triggered c) /\
  _sent c' = _sent c + frames /\
  _triggered c' <= _triggered c - frames.
Proof.
  cbv zeta. revert c. induction es as [| [r np] rest IH]; intros c.
  - cbn. lia.
  - cbn [fetch_many].
    pose proof (fetch_effect lm r np c) as Heff. cbv zeta in Heff.
    unfold eval, exec in Heff.
    destruct (fetch lm r np c) as [o c1]. cbn [fst snd] in Heff.
    specialize (IH c1).
    destruct (fetch_many lm rest c1) as [os c2]. cbn [fst snd] in IH |- *.
    destruct Heff as [_ [_ [[Hf [Hs Ht]] | [Hf [Hpos [Ht Hs]]]]]];
      cbn [filter]; rewrite Hf; cbn [length].
    + destruct Ht as [Ht | [Hpos Ht]]; lia.
    + lia.
Qed.

Lemma trigger_times_state (n : nat) (c : TestCamera) :
  trigger_times n c =
  if _acquiring c then set_triggered (_triggered c + Z.of_nat n) c else c.
Proof.
  induction n as [| n IH].
  - cbn. destruct (_acquiring c); [| reflexivity].
    rewrite Z.add_0_r. now destruct c.
  - cbn [trigger_times]. rewrite IH. unfold exec. rewrite trigger_state.
    destruct (_acquiring c) eqn:Ha; cbn [snd].
    + cbn [_acquiring set_triggered]. rewrite Ha.
      cbn [_triggered set_triggered]. unfold set_triggered. cbn.
      f_equal. lia.
    + now rewrite Ha.
Qed.

(** X6.  While the camera is acquiring, [n] triggers add [n] to the
    pending triggers and change nothing else; while it is idle they change
    nothing at all.  [soft_trigger] does the same as [trigger], except
    that it refuses a camera that was not initialized. *)
Theorem triggers_count_only_while_acquiring (n : nat) (c : TestCamera) :
  trigger_times n c =
  (if _acquiring c then set_triggered (_triggered c + Z.of_nat n) c else c)
  /\
  soft_trigger c =
  (if _initialized c then trigger c else (Raise DisabledDeviceError, c)).
Proof. split; [apply trigger_times_state | apply soft_trigger_state]. Qed.
(** * Further properties of the image generator *)

Section EmptyFrames.

Variable lm : Libm.
Variable rnd : nat -> Z.

Lemma amax_meshgrid_snd_empty (w h : Z) :
  w <= 0 \/ h <= 0 -> amax (snd (meshgrid w h)) = Raise ValueError.
Proof. intros H0. unfold meshgrid. simpl. apply amax_empty. lia. Qed.

(** The strategies that look at the grid raise when it is empty. *)
Lemma grid_strategies_raise (m : method) (w h dark light : Z)
    (g : ImageGenerator) :
  w <= 0 \/ h <= 0 ->
  m = Gradient \/ m = Sawtooth \/ m = OneGaussian ->
  eval (call lm rnd m w h dark light) g = Raise ValueError.
Proof.
  intros H0 [-> | [-> | ->]]; cbv beta delta [call] iota.
  - unfold gradient, eval.
    pose proof (amax_meshgrid_empty w h H0) as Hx.
    destruct (meshgrid w h) as [xx yy]. cbn [fst] in Hx.
    unfold_monad. now rewrite Hx.
  - unfold sawtooth, eval. unfold_monad.
    destruct (next (_theta g)) as [th g'].
    pose proof (amax_meshgrid_empty w h H0) as Hx.
    destruct (meshgrid w h) as [xx yy]. cbn [fst] in Hx.
    now rewrite Hx.
  - unfold one_gaussian, eval, np_random_randint. unfold_monad.
    destruct (0 <? w) eqn:Ew; [| reflexivity].
    destruct (0 <? h) eqn:Eh; [| reflexivity].
    apply Z.ltb_lt in Ew, Eh. lia.
Qed.

Lemma check_shape_negative (h w : Z) :
  w < 0 \/ h < 0 -> check_shape h w = Raise ValueError.
Proof.
  intros H0. unfold check_shape.
  destruct (h <? 0) eqn:E1; [reflexivity |].
  destruct (w <? 0) eqn:E2; [reflexivity |].
  apply Z.ltb_ge in E1, E2. lia.
Qed.

Lemma check_shape_nonneg (h w : Z) :
  0 <= w -> 0 <= h -> check_shape h w = Ret (Z.to_nat h, Z.to_nat w).
Proof.
  intros Hw Hh. unfold check_shape.
  destruct (h <? 0) eqn:E1; [apply Z.ltb_lt in E1; lia |].
  destruct (w <? 0) eqn:E2; [apply Z.ltb_lt in E2; lia |].
  reflexivity.
Qed.

Lemma tabulate_empty {A} (h w : nat) (f : nat -> nat -> A) :
  (h = 0 \/ w = 0)%nat -> concat (tabulate h w f) = [].
Proof.
  intros H0. destruct (concat (tabulate h w f)) as [| a l] eqn:E;
    [reflexivity |].
  assert (Hin : In a (concat (tabulate h w f))) by (rewrite E; now left).
  apply tabulate_In in Hin as [x [y [Hx [Hy _]]]]. lia.
Qed.

Lemma tabulate_ext {A} (h w : nat) (f f' : nat -> nat -> A) :
  (forall x y, (x < w)%nat -> (y < h)%nat -> f x y = f' x y) ->
  tabulate h w f = tabulate h w f'.
Proof.
  intros H. unfold tabulate. apply map_ext_in. intros y Hy.
  apply in_seq in Hy. apply map_ext_in. intros x Hx.
  apply in_seq in Hx. apply H; lia.
Qed.

(** [noise] for every size that is not negative: on a frame without
    pixels the bounds are not looked at. *)
Lemma noise_returns (w h dark light : Z) (g : ImageGenerator) :
  0 <= w -> 0 <= h ->
  h * w = 0 \/ randint_bounds dark light ->
  noise rnd w h dark light g =
  (Ret (array_of int64 (Z.to_nat h) (Z.to_nat w)
          (fun x y =>
             of_Z (dark + rnd (y * Z.to_nat w + x) mod (light - dark)))), g).
Proof.
  intros Hw Hh Hcase. unfold noise.
  destruct (h * w =? 0) eqn:E0.
  - apply Z.eqb_eq in E0. unfold_monad.
    rewrite check_shape_nonneg by assumption. cbn [fst snd].
    unfold array_of. f_equal. f_equal. f_equal. apply tabulate_ext.
    intros x y Hx Hy. nia.
  - apply Z.eqb_neq in E0. destruct Hcase as [H0 | [Hlo [Hlt Hhi]]];
      [contradiction |].
    replace (dark <? - 2 ^ 63) with false by (symmetry; apply Z.ltb_ge; lia).
    replace (2 ^ 63 - 1 <? light - 1) with false
      by (symmetry; apply Z.ltb_ge; lia).
    replace (light - 1 <? dark) with false
      by (symmetry; apply Z.ltb_ge; lia).
    unfold_monad. rewrite check_shape_nonneg by assumption. reflexivity.
Qed.

(** The strategies that do not look at the grid, as pixel functions, for
    every size that is not negative. *)
Lemma plain_strategies_return (m : method) (d : dtype) (w h dark light : Z)
    (g : ImageGenerator) :
  0 <= w -> 0 <= h ->
  py_getitem _datatypes (_datatype_index g) = Ret d ->
  m = Black \/ m = White \/
  (m = Noise /\ (h * w = 0 \/ randint_bounds dark light)) ->
  call lm rnd m w h dark light g =
  (Ret (array_of (strategy_dtype m d) (Z.to_nat h) (Z.to_nat w)
          (pixel lm rnd m d (fst (next (_theta g))) w h dark light)), g).
Proof.
  intros Hw Hh Hd [-> | [-> | [-> Hcase]]]; cbv beta delta [call] iota.
  - unfold black. unfold_monad. now rewrite check_shape_nonneg.
  - unfold white. unfold_monad. rewrite Hd. cbv beta iota.
    rewrite check_shape_nonneg by assumption. cbv beta iota.
    unfold astype, array_of. cbn [elems shape fst snd].
    now rewrite !tabulate_map.
  - now apply noise_returns.
Qed.

Lemma plain_strategies_negative (m : method) (d : dtype)
    (w h dark light : Z) (g : ImageGenerator) :
  w < 0 \/ h < 0 ->
  py_getitem _datatypes (_datatype_index g) = Ret d ->
  m = Black \/ m = White \/ m = Noise ->
  eval (call lm rnd m w h dark light) g = Raise ValueError.
Proof.
  intros H0 Hd [-> | [-> | ->]]; cbv beta delta [call] iota.
  - unfold black, eval. unfold_monad. now rewrite check_shape_negative.
  - unfold white, eval. unfold_monad. rewrite Hd. cbv beta iota.
    now rewrite check_shape_negative.
  - unfold noise, eval.
    destruct (h * w =? 0);
      [unfold_monad; now rewrite check_shape_negative |].
    destruct (dark <? - 2 ^ 63); [reflexivity |].
    destruct (2 ^ 63 - 1 <? light - 1); [reflexivity |].
    destruct (light - 1 <? dark); [reflexivity |].
    unfold_monad. now rewrite check_shape_negative.
Qed.

(** [get_image] in two steps: the strategy, then the overlay. *)
Lemma get_image_steps (m : method) (d : dtype) (w h dark light : Z)
    (index : option Z) (g : ImageGenerator) :
  py_getitem _methods (_method_index g) = Ret m ->
  py_getitem _datatypes (_datatype_index g) = Ret d ->
  get_image lm rnd w h dark light index g =
  match call lm rnd m w h dark light g with
  | (Ret raw, g1) => (paste_overlay g1 (astype d raw) light index, g1)
  | (Raise e, g1) => (Raise e, g1)
  end.
Proof.
  intros Hm Hd. unfold get_image. unfold_monad. rewrite Hm, Hd.
  cbv beta iota.
  destruct (call lm rnd m w h dark light g) as [[raw | e] g1];
    [| reflexivity].
  unfold paste_overlay.
  destruct (numbering g1); [| reflexivity].
  destruct index as [i |]; [| reflexivity].
  destruct (getsize (_font g1) (format_d i)) as [tw th]. reflexivity.
Qed.

Lemma paste_overlay_off (g1 : ImageGenerator) (data : ndarray) (light : Z)
    (index : option Z) :
  overlay_drawn g1 index = false -> paste_overlay g1 data light index = Ret data.
Proof.
  unfold overlay_drawn, paste_overlay.
  destruct (numbering g1); [| reflexivity].
  destruct index; [discriminate | reflexivity].
Qed.

Lemma paste_overlay_too_large (g1 : ImageGenerator) (data : ndarray)
    (light : Z) (index : option Z) (h w : nat) :
  overlay_drawn g1 index = true ->
  shape data = (h, w) -> (h < 2 \/ w < 2)%nat ->
  paste_overlay g1 data light index = Raise ValueError.
Proof.
  unfold overlay_drawn, paste_overlay. intros Hon Hs Hsmall.
  destruct (numbering g1); [| discriminate].
  destruct index as [i |]; [| discriminate].
  destruct (getsize (_font g1) (format_d i)) as [tw th].
  eapply setitem_topleft_large;
    [exact Hs | apply draw_text_shape | cbn [fst snd]; lia ..].
Qed.

(** X7.  On a frame without pixels or of a negative size ([w <= 0] or
    [h <= 0]) a request returns exactly when both sizes are at least 0, the
    strategy is black, white or noise, and no overlay is drawn; what it
    returns then has shape (h, w) and no element, and noise does not look
    at dark and light.  Every other such request raises [ValueError] (for
    a light that fits int64, which the text drawing of the overlay
    needs). *)
Theorem generate_on_empty_frame
    (g : ImageGenerator) (m : method) (d : dtype)
    (w h dark light : Z) (index : option Z) :
  py_getitem _methods (_method_index g) = Ret m ->
  py_getitem _datatypes (_datatype_index g) = Ret d ->
  w <= 0 \/ h <= 0 ->
  if empty_frame_returns g m w h index
  then exists out : ndarray,
         eval (get_image lm rnd w h dark light index) g = Ret out /\
         well_shaped out h w /\ concat (elems out) = []
  else fits_int64 light = true ->
       eval (get_image lm rnd w h dark light index) g = Raise ValueError.
Proof.
  intros Hm Hd H0. unfold eval.
  rewrite (get_image_steps m d w h dark light index g Hm Hd).
  assert (Hraise : eval (call lm rnd m w h dark light) g = Raise ValueError ->
                   fst (match call lm rnd m w h dark light g with
                        | (Ret raw, g1) =>
                            (paste_overlay g1 (astype d raw) light index, g1)
                        | (Raise e, g1) => (Raise e, g1)
                        end) = Raise ValueError).
  { unfold eval. destruct (call lm rnd m w h dark light g) as [o g1].
    cbn. now intros ->. }
  unfold empty_frame_returns.
  destruct (0 <=? w) eqn:Ew; cbn [andb].
  2:{ apply Z.leb_gt in Ew. intros _. apply Hraise.
      destruct m;
        first [ apply (plain_strategies_negative _ d); auto; lia
              | apply grid_strategies_raise; auto; lia ]. }
  destruct (0 <=? h) eqn:Eh; cbn [andb].
  2:{ apply Z.leb_gt in Eh. intros _. apply Hraise.
      destruct m;
        first [ apply (plain_strategies_negative _ d); auto; lia
              | apply grid_strategies_raise; auto; lia ]. }
  apply Z.leb_le in Ew, Eh.
  assert (Hplain :
    m = Black \/ m = White \/ m = Noise ->
    if negb (overlay_drawn g index)
    then exists out : ndarray,
           fst (match call lm rnd m w h dark light g with
                | (Ret raw, g1) =>
                    (paste_overlay g1 (astype d raw) light index, g1)
                | (Raise e, g1) => (Raise e, g1)
                end) = Ret out /\
           well_shaped out h w /\ concat (elems out) = []
    else fits_int64 light = true ->
         fst (match call lm rnd m w h dark light g with
              | (Ret raw, g1) =>
                  (paste_overlay g1 (astype d raw) light index, g1)
              | (Raise e, g1) => (Raise e, g1)
              end) = Raise ValueError).
  { intros Hp.
    rewrite (plain_strategies_return m d w h dark light g Ew Eh Hd)
      by (destruct Hp as [-> | [-> | ->]]; auto;
          right; right; split; [reflexivity | left; nia]).
    cbn [fst].
    destruct (overlay_drawn g index) eqn:Eo; cbn [negb].
    - intros _.
      apply (paste_overlay_too_large _ _ _ _ (Z.to_nat h) (Z.to_nat w));
        [exact Eo | reflexivity | lia].
    - rewrite paste_overlay_off by exact Eo.
      eexists. split; [reflexivity |].
      split; [unfold astype; apply well_shaped_map, array_of_well_shaped |].
      unfold astype, array_of. cbn [elems]. rewrite tabulate_map.
      apply tabulate_empty. lia. }
  destruct m; cbn [andb].
  - apply Hplain. auto.
  - intros _. apply Hraise, grid_strategies_raise; auto.
  - intros _. apply Hraise, grid_strategies_raise; auto.
  - intros _. apply Hraise, grid_strategies_raise; auto.
  - apply Hplain. auto.
  - apply Hplain. auto.
Qed.

End EmptyFrames.
Lemma generate_on_empty_frame_witness :
  if empty_frame_returns generator0 Noise 0 5 None
  then exists out : ndarray,
         eval (get_image libm_rational (fun _ => 0) 0 5 255 0 None)
           generator0 = Ret out /\
         well_shaped out 5 0 /\ concat (elems out) = []
  else fits_int64 0 = true ->
       eval (get_image libm_rational (fun _ => 0) 0 5 255 0 None)
         generator0 = Raise ValueError.
Proof.
  apply (generate_on_empty_frame libm_rational (fun _ => 0) generator0
           Noise uint8 0 5 255 0 None).
  - reflexivity.
  - reflexivity.
  - lia.
Defined.


Section PlainFrames.

Variable lm : Libm.
Variable rnd : nat -> Z.

(** X9.  [black] and [white] ignore dark and light: without overlay, every
    pixel of a black frame is 0 and every pixel of a white frame is the
    maximum of the selected integer type, or 1.0 for the float type. *)
Theorem black_and_white_ignore_bounds
    (g : ImageGenerator) (m : method) (d : dtype)
    (w h dark light : Z) (index : option Z) :
  py_getitem _methods (_method_index g) = Ret m ->
  py_getitem _datatypes (_datatype_index g) = Ret d ->
  0 <= w -> 0 <= h ->
  overlay_drawn g index = false ->
  (m = Black ->
   eval (get_image lm rnd w h dark light index) g =
   Ret (array_of d (Z.to_nat h) (Z.to_nat w) (fun _ _ => of_Z 0))) /\
  (m = White ->
   eval (get_image lm rnd w h dark light index) g =
   Ret (array_of d (Z.to_nat h) (Z.to_nat w) (fun _ _ => white_value d))).
Proof.
  intros Hm Hd Hw Hh Hoff.
  pose proof (py_getitem_In _ _ _ Hd) as Hin.
  split; intros ->; unfold eval;
    rewrite (get_image_steps lm rnd _ d w h dark light index g Hm Hd);
    rewrite (plain_strategies_return lm rnd _ d w h dark light g Hw Hh Hd)
      by auto;
    rewrite paste_overlay_off by exact Hoff;
    cbn [fst]; f_equal; unfold astype, array_of; cbn [shape elems];
    rewrite tabulate_map; f_equal; apply tabulate_ext; intros x y _ _;
    destruct Hin as [<- | [<- | [<- | []]]]; reflexivity.
Qed.


End PlainFrames.

Lemma black_and_white_ignore_bounds_witness :
  (White = Black ->
   eval (get_image libm_rational (fun _ => 0) 3 2 7 9 None)
     (set_method 5 generator0) =
   Ret (array_of uint8 2 3 (fun _ _ => of_Z 0))) /\
  (White = White ->
   eval (get_image libm_rational (fun _ => 0) 3 2 7 9 None)
     (set_method 5 generator0) =
   Ret (array_of uint8 2 3 (fun _ _ => white_value uint8))).
Proof.
  apply (black_and_white_ignore_bounds libm_rational (fun _ => 0)
           (set_method 5 generator0) White uint8 3 2 7 9 None);
    try reflexivity; lia.
Defined.

(** ** Selection by index *)

Lemma py_getitem_out_of_range {A} (t : list A) (i : Z) :
  valid_index (Z.of_nat (length t)) i = false ->
  py_getitem t i = Raise IndexError.
Proof.
  unfold valid_index, py_getitem. intros H.
  apply andb_false_iff in H.
  destruct (i <? 0) eqn:Ei.
  - apply Z.ltb_lt in Ei.
    destruct ((0 <=? i + Z.of_nat (length t))
              && (i + Z.of_nat (length t) <? Z.of_nat (length t))) eqn:E;
      [| reflexivity].
    apply andb_prop in E as [E1 E2].
    apply Z.leb_le in E1. apply Z.ltb_lt in E2.
    destruct H as [H | H]; [apply Z.leb_gt in H | apply Z.ltb_ge in H]; lia.
  - apply Z.ltb_ge in Ei.
    destruct ((0 <=? i) && (i <? Z.of_nat (length t))) eqn:E;
      [| reflexivity].
    apply andb_prop in E as [E1 E2].
    apply Z.leb_le in E1. apply Z.ltb_lt in E2.
    destruct H as [H | H]; [apply Z.leb_gt in H | apply Z.ltb_ge in H]; lia.
Qed.

Lemma py_getitem_in_range {A} (t : list A) (i : Z) (default : A) :
  valid_index (Z.of_nat (length t)) i = true ->
  py_getitem t i
  = Ret (nth (Z.to_nat (i mod Z.of_nat (length t))) t default).
Proof.
  unfold valid_index, py_getitem. intros H.
  apply andb_prop in H as [H1 H2].
  apply Z.leb_le in H1. apply Z.ltb_lt in H2.
  set (n := Z.of_nat (length t)) in *.
  assert (Hj : (if i <? 0 then i + n else i) = i mod n).
  { destruct (i <? 0) eqn:Ei.
    - apply Z.ltb_lt in Ei.
      apply (Z.mod_unique_pos i n (-1) (i + n)); lia.
    - apply Z.ltb_ge in Ei. symmetry. apply Z.mod_small. lia. }
  rewrite Hj.
  assert (Hm : 0 <= i mod n < n) by (apply Z.mod_pos_bound; lia).
  replace (0 <=? i mod n) with true by (symmetry; apply Z.leb_le; lia).
  replace (i mod n <? n) with true by (symmetry; apply Z.ltb_lt; lia).
  cbn [andb]. unfold n in *.
  rewrite (nth_error_nth' t default) by lia.
  reflexivity.
Qed.

(** X11.  [set_method] and [set_data_type] validate nothing; the index is
    used at the next [get_image].  An index from -n to n - 1 selects the
    element at that index modulo n (so -1 is the last strategy, white);
    with any other method or data type index [get_image] raises
    [IndexError] before any strategy runs, and the generator, the angle of
    [sawtooth] included, stays as it was. *)
Theorem selection_by_index
    (lm : Libm) (rnd : nat -> Z) (g : ImageGenerator)
    (w h dark light : Z) (index : option Z) :
  if valid_index 6 (_method_index g) && valid_index 3 (_datatype_index g)
  then
    py_getitem _methods (_method_index g)
    = Ret (nth (Z.to_nat (_method_index g mod 6)) _methods Noise) /\
    py_getitem _datatypes (_datatype_index g)
    = Ret (nth (Z.to_nat (_datatype_index g mod 3)) _datatypes uint8)
  else
    get_image lm rnd w h dark light index g = (Raise IndexError, g).
Proof.
  destruct (valid_index 6 (_method_index g)) eqn:Em; cbn [andb].
  - pose proof (py_getitem_in_range _methods (_method_index g) Noise Em)
      as Hm.
    destruct (valid_index 3 (_datatype_index g)) eqn:Ed.
    + split; [exact Hm |].
      exact (py_getitem_in_range _datatypes (_datatype_index g) uint8 Ed).
    + unfold get_image. unfold_monad. rewrite Hm. cbv beta iota.
      now rewrite (py_getitem_out_of_range _datatypes _ Ed).
  - unfold get_image. unfold_monad.
    now rewrite (py_getitem_out_of_range _methods _ Em).
Qed.

(** ** The values of [gradient] and [noise] *)





(** X13.  For bounds that fit int64 (light, which is exclusive, may be
    2^63) and dark < light, [noise] returns integers from dark to
    light - 1: the array has the element type int64 and shape (h, w), and
    light itself never occurs. *)
Theorem noise_values_are_below_light
    (rnd : nat -> Z) (w h dark light : Z) (g : ImageGenerator) :
  0 <= w -> 0 <= h -> - 2 ^ 63 <= dark -> dark < light -> light <= 2 ^ 63 ->
  exists raw : ndarray,
    eval (noise rnd w h dark light) g = Ret raw /\
    arr_dtype raw = int64 /\
    well_shaped raw h w /\
    Forall (Forall (fun v => exists z : Z, v = of_Z z /\ dark <= z < light))
      (elems raw).
Proof.
  intros Hw Hh Hlo Hlt Hhi. eexists. split.
  - unfold eval. rewrite noise_returns; try assumption; [reflexivity |].
    right. unfold randint_bounds. lia.
  - split; [reflexivity |]. split; [apply array_of_well_shaped |].
    apply tabulate_Forall. intros x y _ _.
    eexists. split; [reflexivity |].
    pose proof (Z.mod_pos_bound (rnd (y * Z.to_nat w + x)%nat) (light - dark)
                  ltac:(lia)).
    lia.
Qed.

Lemma noise_values_are_below_light_witness :
  exists raw : ndarray,
    eval (noise (fun i => Z.of_nat i * 37) 4 3 10 20) generator0 = Ret raw /\
    arr_dtype raw = int64 /\
    well_shaped raw 3 4 /\
    Forall (Forall (fun v => exists z : Z, v = of_Z z /\ 10 <= z < 20))
      (elems raw).
Proof.
  apply (noise_values_are_below_light (fun i => Z.of_nat i * 37) 4 3 10 20
           generator0); lia.
Defined.

(** X14.  [sawtooth] takes its angle before it looks at the frame: a call
    that raises [ValueError] on a frame without pixels has advanced the
    angle all the same. *)
Theorem sawtooth_steps_when_it_raises
    (lm : Libm) (w h dark light : Z) (g : ImageGenerator) :
  w <= 0 \/ h <= 0 ->
  eval (sawtooth lm w h dark light) g = Raise ValueError /\
  next_angle (exec (sawtooth lm w h dark light) g) =
  Qmod (next_angle g + (1 # 100) * TWOPI) TWOPI.
Proof.
  intros H0. split.
  - apply (grid_strategies_raise lm (fun _ => 0) Sawtooth w h dark light g);
      auto.
  - apply next_angle_after_sawtooth.
Qed.

Lemma sawtooth_steps_when_it_raises_witness :
  eval (sawtooth libm_rational 0 4 0 255) generator0 = Raise ValueError /\
  next_angle (exec (sawtooth libm_rational 0 4 0 255) generator0) =
  Qmod (next_angle generator0 + (1 # 100) * TWOPI) TWOPI.
Proof.
  apply (sawtooth_steps_when_it_raises libm_rational 0 4 0 255 generator0).
  lia.
Defined.
(** * Properties of the other test devices *)

(** ** Stage axes *)

Lemma Qltb_lt (a b : Q) : Qltb a b = true <-> (a < b)%Q.
Proof.
  unfold Qltb. rewrite negb_true_iff. split.
  - intros H. apply Qnot_le_lt. intros Hle.
    apply Qle_bool_iff in Hle. congruence.
  - intros H. destruct (Qle_bool b a) eqn:E; [| reflexivity].
    apply Qle_bool_iff in E. lra.
Qed.

Lemma Qltb_ge (a b : Q) : Qltb a b = false <-> (b <= a)%Q.
Proof.
  unfold Qltb. rewrite negb_false_iff. apply Qle_bool_iff.
Qed.

Lemma nleb_not_nan (a b : num) :
  nleb a b = true -> is_nan a = false /\ is_nan b = false.
Proof. destruct a, b; cbn; try discriminate; auto. Qed.

Lemma nleb_refl (a : num) : is_nan a = false -> nleb a a = true.
Proof.
  destruct a as [x | s |]; cbn; try discriminate; intros _.
  - apply Qle_bool_iff. apply Qle_refl.
  - now destruct s.
Qed.

(** On numbers the order of floats is total. *)
Lemma nltb_false_nleb (a b : num) :
  is_nan a = false -> is_nan b = false ->
  nltb a b = false -> nleb b a = true.
Proof.
  destruct a as [x | s |], b as [y | t |]; cbn; try discriminate;
    intros _ _ H.
  - apply Qle_bool_iff. now apply Qltb_ge.
  - now destruct t.
  - now rewrite H.
  - destruct s, t; cbn in *; congruence.
Qed.

(** [move_to] keeps the limits, and with limits in order a target that is
    a number ends within them. *)
Lemma move_to_within (pos : num) (a : TestStageAxis.t) :
  TestStageAxis._limits (TestStageAxis.move_to pos a)
  = TestStageAxis._limits a /\
  (limits_in_order (TestStageAxis._limits a) -> is_nan pos = false ->
   within_limits (TestStageAxis.move_to pos a)).
Proof.
  unfold TestStageAxis.move_to, within_limits, limits_in_order.
  destruct (nltb pos (TestStageAxis.lower (TestStageAxis._limits a))) eqn:E1.
  - cbn. split; [reflexivity |]. intros Hl _.
    destruct (nleb_not_nan _ _ Hl) as [Hlo _].
    split; [now apply nleb_refl | exact Hl].
  - destruct (nltb (TestStageAxis.upper (TestStageAxis._limits a)) pos)
      eqn:E2.
    + cbn. split; [reflexivity |]. intros Hl _.
      destruct (nleb_not_nan _ _ Hl) as [_ Hhi].
      split; [exact Hl | now apply nleb_refl].
    + cbn. split; [reflexivity |]. intros Hl Hpos.
      destruct (nleb_not_nan _ _ Hl) as [Hlo Hhi].
      split; now apply nltb_false_nleb.
Qed.

Lemma within_limits_not_nan (a : TestStageAxis.t) :
  within_limits a -> is_nan (TestStageAxis._position a) = false.
Proof. intros [H _]. now destruct (nleb_not_nan _ _ H). Qed.

(** A finite distance from a number is a number (possibly an infinity). *)
Lemma fadd_finite_not_nan (fl : FloatOps) (a delta : num) :
  is_nan a = false -> is_finite delta = true ->
  is_nan (fadd fl a delta) = false.
Proof.
  intros Ha Hd. destruct (fadd fl a delta) eqn:E; try reflexivity.
  destruct (fadd_nan fl _ _ E) as [-> | [-> | [s [_ ->]]]]; discriminate.
Qed.

(** A call with a number for its argument brings an axis whose position is
    a number within its limits. *)
Lemma axis_call_within_limits (fl : FloatOps) (k : axis_call)
    (a : TestStageAxis.t) :
  limits_in_order (TestStageAxis._limits a) ->
  is_nan (TestStageAxis._position a) = false ->
  numeric_call k = true ->
  TestStageAxis._limits (after_axis_call fl k a) = TestStageAxis._limits a /\
  within_limits (after_axis_call fl k a).
Proof.
  intros Hl Hpos Hk. destruct k as [pos | delta]; cbn [after_axis_call].
  - destruct (move_to_within pos a) as [H1 H2].
    split; [exact H1 |]. apply H2; [exact Hl |].
    cbn in Hk. now apply negb_true_iff.
  - unfold TestStageAxis.move_by.
    destruct (move_to_within (fadd fl (TestStageAxis._position a) delta) a)
      as [H1 H2].
    split; [exact H1 |]. apply H2; [exact Hl |].
    now apply fadd_finite_not_nan.
Qed.

Lemma axis_calls_within_limits (fl : FloatOps) (ks : list axis_call)
    (a : TestStageAxis.t) :
  limits_in_order (TestStageAxis._limits a) ->
  within_limits a ->
  forallb numeric_call ks = true ->
  TestStageAxis._limits (fold_left (fun a k => after_axis_call fl k a) ks a)
  = TestStageAxis._limits a /\
  within_limits (fold_left (fun a k => after_axis_call fl k a) ks a).
Proof.
  revert a. induction ks as [| k ks IH]; intros a Hl Hw Hks; cbn [fold_left].
  - split; [reflexivity | exact Hw].
  - cbn in Hks. apply andb_prop in Hks as [Hk Hks].
    destruct (axis_call_within_limits fl k a Hl
                (within_limits_not_nan a Hw) Hk) as [E W].
    destruct (IH (after_axis_call fl k a)) as [E' W'];
      [now rewrite E | exact W | exact Hks |].
    split; [now rewrite E' | exact W'].
Qed.

(** The position the constructor computes for finite limits is a number:
    the difference may overflow to an infinity, but nothing makes it nan. *)
Lemma axis_init_not_nan (fl : FloatOps) (lo hi : Q) :
  is_nan (TestStageAxis._position
            (TestStageAxis.__init__ fl
               (TestStageAxis.mk_AxisLimits (Fin lo) (Fin hi)))) = false.
Proof.
  cbn.
  destruct (fadd fl (Fin lo) (fdiv fl (fsub fl (Fin hi) (Fin lo)) (Fin 2)))
    eqn:E; try reflexivity.
  destruct (fadd_nan fl _ _ E) as [H | [H | [s [H _]]]]; try discriminate.
  apply fdiv_nan in H; [| discriminate].
  destruct (fsub_nan fl _ _ H) as [H' | [H' | [s [H' _]]]]; discriminate.
Qed.

(** X15.  [move_to] clamps: it keeps the limits, forgets where the axis
    was, and sets the position to the lower limit for a target below it,
    to the upper limit for a target above it, and to the target itself
    otherwise.  A target that is nan compares false with both limits and
    is stored as the position; with limits in order (lower <= upper) every
    other target, the infinities included, ends within the limits. *)
Theorem axis_move_to_clamps (pos : num) (a : TestStageAxis.t) :
  let lo := TestStageAxis.lower (TestStageAxis._limits a) in
  let hi := TestStageAxis.upper (TestStageAxis._limits a) in
  let a' := TestStageAxis.move_to pos a in
  TestStageAxis._limits a' = TestStageAxis._limits a /\
  (nltb pos lo = true -> TestStageAxis._position a' = lo) /\
  (nltb pos lo = false -> nltb hi pos = true ->
   TestStageAxis._position a' = hi) /\
  (nltb pos lo = false -> nltb hi pos = false ->
   TestStageAxis._position a' = pos) /\
  (pos = NaN -> TestStageAxis._position a' = NaN) /\
  (limits_in_order (TestStageAxis._limits a) -> pos <> NaN ->
   within_limits a') /\
  TestStageAxis.move_to pos a' = a'.
Proof.
  cbv zeta.
  assert (Hwithin :
    limits_in_order (TestStageAxis._limits a) -> pos <> NaN ->
    within_limits (TestStageAxis.move_to pos a)).
  { intros Hl Hpos. apply move_to_within; [exact Hl |].
    destruct pos; try reflexivity. now contradiction Hpos. }
  assert (Hnan : pos = NaN ->
                 TestStageAxis._position (TestStageAxis.move_to pos a) = NaN).
  { intros ->. unfold TestStageAxis.move_to. cbn [nltb].
    destruct (TestStageAxis.upper (TestStageAxis._limits a)); reflexivity. }
  revert Hwithin Hnan. unfold TestStageAxis.move_to.
  destruct (nltb pos (TestStageAxis.lower (TestStageAxis._limits a))) eqn:E1;
    [| destruct (nltb (TestStageAxis.upper (TestStageAxis._limits a)) pos)
         eqn:E2];
    cbn; rewrite ?E1, ?E2; intros Hwithin Hnan;
    (split; [reflexivity |]);
    (split; [intros; reflexivity || discriminate |]);
    (split; [intros; reflexivity || discriminate |]);
    (split; [intros; reflexivity || discriminate |]);
    (split; [exact Hnan |]);
    (split; [exact Hwithin | reflexivity]).
Qed.

(** X16.  An axis constructed for finite limits with lower <= upper keeps
    its limits and, from its first move on, lies within them, whatever
    sequence of [move_to] and [move_by] calls it is given, as long as no
    target is nan and every distance is finite (a target may be an
    infinity, and a sum may overflow to one: it is clamped).  The position
    the constructor computes is a number but need not lie within the
    limits: the difference of the limits can overflow. *)
Theorem axis_never_leaves_limits
    (fl : FloatOps) (lo hi : Q) (k : axis_call) (ks : list axis_call) :
  (lo <= hi)%Q ->
  forallb numeric_call (k :: ks) = true ->
  let limits := TestStageAxis.mk_AxisLimits (Fin lo) (Fin hi) in
  let a := fold_left (fun a k => after_axis_call fl k a) (k :: ks)
             (TestStageAxis.__init__ fl limits) in
  TestStageAxis._limits a = limits /\ within_limits a /\
  is_nan (TestStageAxis._position (TestStageAxis.__init__ fl limits)) = false.
Proof.
  intros Hl Hks. cbv zeta. cbn [fold_left].
  cbn [forallb] in Hks. apply andb_prop in Hks as [Hk Hks].
  pose proof (axis_init_not_nan fl lo hi) as H0.
  set (limits := TestStageAxis.mk_AxisLimits (Fin lo) (Fin hi)) in *.
  assert (Hord : limits_in_order limits)
    by (unfold limits_in_order; cbn; now apply Qle_bool_iff).
  destruct (axis_call_within_limits fl k (TestStageAxis.__init__ fl limits)
              Hord H0 Hk) as [E W].
  change (TestStageAxis._limits (TestStageAxis.__init__ fl limits))
    with limits in E.
  destruct (axis_calls_within_limits fl ks
              (after_axis_call fl k (TestStageAxis.__init__ fl limits)))
    as [E' W']; [now rewrite E | exact W | exact Hks |].
  split; [now rewrite E', E |]. split; [exact W' | exact H0].
Qed.

Lemma axis_never_leaves_limits_witness :
  let limits := TestStageAxis.mk_AxisLimits
                  (Fin (- inject_Z (10 ^ 308))) (Fin (inject_Z (10 ^ 308))) in
  let a := fold_left (fun a k => after_axis_call float_overflow k a)
             [AxisMoveBy (Fin 7000); AxisMoveTo (Inf true);
              AxisMoveBy (Fin (-9000))]
             (TestStageAxis.__init__ float_overflow limits) in
  TestStageAxis._limits a = limits /\ within_limits a /\
  is_nan (TestStageAxis._position
            (TestStageAxis.__init__ float_overflow limits)) = false.
Proof.
  apply (axis_never_leaves_limits float_overflow
           (- inject_Z (10 ^ 308)) (inject_Z (10 ^ 308))
           (AxisMoveBy (Fin 7000))
           [AxisMoveTo (Inf true); AxisMoveBy (Fin (-9000))]).
  - discriminate.
  - reflexivity.
Defined.

(** ** Stages *)

Lemma dict_get_set_same {V} (k : string) (v : V) (d : list (string * V)) :
  dict_get k (dict_set k v d) = Some v.
Proof.
  induction d as [| [k' v'] r IH]; cbn.
  - now rewrite String.eqb_refl.
  - destruct (String.eqb k' k) eqn:E; cbn.
    + now rewrite String.eqb_refl.
    + now rewrite E.
Qed.

Lemma dict_get_set_other {V} (k k' : string) (v : V) (d : list (string * V)) :
  k <> k' -> dict_get k' (dict_set k v d) = dict_get k' d.
Proof.
  intros Hne. induction d as [| [k0 v0] r IH]; cbn.
  - destruct (String.eqb k k') eqn:E; [| reflexivity].
    apply String.eqb_eq in E. contradiction.
  - destruct (String.eqb k0 k) eqn:E; cbn.
    + apply String.eqb_eq in E. subst k0.
      destruct (String.eqb k k') eqn:E'; [| reflexivity].
      apply String.eqb_eq in E'. contradiction.
    + destruct (String.eqb k0 k'); [reflexivity | exact IH].
Qed.

Lemma dict_set_keys {V} (k : string) (v v0 : V) (d : list (string * V)) :
  dict_get k d = Some v0 -> map fst (dict_set k v d) = map fst d.
Proof.
  induction d as [| [k' v'] r IH]; cbn; [discriminate |].
  destruct (String.eqb k' k) eqn:E; cbn.
  - apply String.eqb_eq in E. now subst k'.
  - intros H. now rewrite IH.
Qed.

Lemma stage_move_to_loop (position : list (string * num))
    (self : TestStage.t) :
  TestStage.move_to position self
  = stage_loop TestStageAxis.move_to position self.
Proof.
  revert self. induction position as [| [name v] rest IH]; intros self;
    cbn; [reflexivity |].
  destruct (dict_get name self); [apply IH | reflexivity].
Qed.

Lemma stage_move_by_loop (fl : FloatOps) (delta : list (string * num))
    (self : TestStage.t) :
  TestStage.move_by fl delta self
  = stage_loop (TestStageAxis.move_by fl) delta self.
Proof.
  revert self. induction delta as [| [name v] rest IH]; intros self;
    cbn; [reflexivity |].
  destruct (dict_get name self); [apply IH | reflexivity].
Qed.

Section StageLoop.

Variable f : num -> TestStageAxis.t -> TestStageAxis.t.

Lemma stage_loop_keys (items : list (string * num)) (self : TestStage.t) :
  map fst (snd (stage_loop f items self)) = map fst self.
Proof.
  revert self. induction items as [| [name v] rest IH]; intros self;
    cbn; [reflexivity |].
  destruct (dict_get name self) as [axis |] eqn:E; [| reflexivity].
  rewrite IH. now apply (dict_set_keys name _ axis).
Qed.

Lemma stage_loop_other (items : list (string * num)) (self : TestStage.t)
    (k : string) :
  ~ In k (map fst items) ->
  dict_get k (snd (stage_loop f items self)) = dict_get k self.
Proof.
  revert self. induction items as [| [name v] rest IH]; intros self Hk;
    cbn; [reflexivity |].
  cbn in Hk.
  destruct (dict_get name self) as [axis |]; [| reflexivity].
  rewrite IH by tauto. apply dict_get_set_other. tauto.
Qed.

Lemma dict_get_some_keys {V} (k : string) (d : list (string * V)) :
  In k (map fst d) <-> dict_get k d <> None.
Proof.
  induction d as [| [k' v'] r IH]; cbn.
  - tauto.
  - destruct (String.eqb k' k) eqn:E.
    + apply String.eqb_eq in E. split; [discriminate | now left].
    + apply String.eqb_neq in E. rewrite <- IH. tauto.
Qed.

Lemma stage_loop_known (items : list (string * num)) (self : TestStage.t) :
  Forall (fun item => In (fst item) (map fst self)) items ->
  fst (stage_loop f items self) = Returns tt.
Proof.
  revert self. induction items as [| [name v] rest IH]; intros self Hall;
    cbn; [reflexivity |].
  inversion Hall as [| ? ? Hin Hrest]; subst. cbn in Hin.
  destruct (dict_get name self) as [axis |] eqn:E.
  - apply IH. rewrite (dict_set_keys name _ axis) by exact E. exact Hrest.
  - apply dict_get_some_keys in Hin. contradiction.
Qed.

Lemma stage_loop_unknown (before after : list (string * num))
    (name : string) (v : num) (self : TestStage.t) :
  Forall (fun item => In (fst item) (map fst self)) before ->
  ~ In name (map fst self) ->
  stage_loop f (before ++ (name, v) :: after) self
  = (Raises KeyError, snd (stage_loop f before self)).
Proof.
  revert self. induction before as [| [n0 v0] rest IH]; intros self Hall Hno.
  - cbn. destruct (dict_get name self) eqn:E; [| reflexivity].
    exfalso. apply Hno. apply dict_get_some_keys. congruence.
  - cbn. inversion Hall as [| ? ? Hin Hrest]; subst. cbn in Hin.
    destruct (dict_get n0 self) as [axis |] eqn:E.
    + apply IH; rewrite (dict_set_keys n0 _ axis) by exact E; assumption.
    + apply dict_get_some_keys in Hin. contradiction.
Qed.

End StageLoop.

(** X17.  [move_to] on a stage keeps the names and the order of the axes
    and leaves every axis it is not given as it was.  It is not atomic: at
    the first name that is not an axis it raises [KeyError], and the moves
    given before that name have been made; so it is with [move_by]. *)
Theorem stage_move_to_is_not_atomic
    (fl : FloatOps) (before after : list (string * num)) (name : string)
    (v : num) (self : TestStage.t) (k : string) :
  Forall (fun item => In (fst item) (map fst self)) before ->
  ~ In name (map fst self) ->
  ~ In k (map fst before) ->
  TestStage.move_to (before ++ (name, v) :: after) self
  = (Raises KeyError, snd (TestStage.move_to before self)) /\
  fst (TestStage.move_to before self) = Returns tt /\
  map fst (snd (TestStage.move_to before self)) = map fst self /\
  dict_get k (snd (TestStage.move_to before self)) = dict_get k self /\
  TestStage.move_by fl (before ++ (name, v) :: after) self
  = (Raises KeyError, snd (TestStage.move_by fl before self)).
Proof.
  intros Hall Hno Hk. rewrite !stage_move_to_loop, !stage_move_by_loop.
  split; [now apply stage_loop_unknown |].
  split; [now apply stage_loop_known |].
  split; [apply stage_loop_keys |].
  split; [now apply stage_loop_other | now apply stage_loop_unknown].
Qed.

Lemma stage_move_to_is_not_atomic_witness :
  let self := TestStage.__init__ float_exact
                [("X"%string,
                  TestStageAxis.mk_AxisLimits (Fin 0) (Fin 5000));
                 ("Y"%string,
                  TestStageAxis.mk_AxisLimits (Fin 0) (Fin 5000))] in
  let before := [("X"%string, Fin 10)] in
  let after := [("Y"%string, Fin 7)] in
  TestStage.move_to (before ++ ("Z"%string, Fin 3) :: after) self
  = (Raises KeyError, snd (TestStage.move_to before self)) /\
  fst (TestStage.move_to before self) = Returns tt /\
  map fst (snd (TestStage.move_to before self)) = map fst self /\
  dict_get "Y" (snd (TestStage.move_to before self)) = dict_get "Y" self /\
  TestStage.move_by float_exact (before ++ ("Z"%string, Fin 3) :: after) self
  = (Raises KeyError, snd (TestStage.move_by float_exact before self)).
Proof.
  apply (stage_move_to_is_not_atomic float_exact [("X"%string, Fin 10)]
           [("Y"%string, Fin 7)] "Z" (Fin 3)
           (TestStage.__init__ float_exact
              [("X"%string,
                TestStageAxis.mk_AxisLimits (Fin 0) (Fin 5000));
               ("Y"%string,
                TestStageAxis.mk_AxisLimits (Fin 0) (Fin 5000))])
           "Y").
  - repeat constructor.
  - cbn. intros [H | [H | []]]; discriminate.
  - cbn. intros [H | []]. discriminate.
Defined.

Lemma dict_get_In {V} (k : string) (v : V) (d : list (string * V)) :
  dict_get k d = Some v -> exists k', In (k', v) d.
Proof.
  induction d as [| [k0 v0] r IH]; cbn; [discriminate |].
  destruct (String.eqb k0 k).
  - intros [= <-]. exists k0. now left.
  - intros H. destruct (IH H) as [k' Hin]. exists k'. now right.
Qed.

Lemma dict_set_Forall {V} (P : string * V -> Prop) (k : string) (v : V)
    (d : list (string * V)) :
  Forall P d -> (forall k', P (k', v)) -> Forall P (dict_set k v d).
Proof.
  intros Hd Hv. induction d as [| [k0 v0] r IH]; cbn.
  - constructor; [apply Hv | constructor].
  - inversion Hd as [| ? ? H0 Hr]; subst.
    destruct (String.eqb k0 k).
    + constructor; [apply Hv | exact Hr].
    + constructor; [exact H0 | now apply IH].
Qed.

Lemma stage_loop_within_limits
    (f : num -> TestStageAxis.t -> TestStageAxis.t) (ok : num -> bool)
    (items : list (string * num)) (s : TestStage.t) :
  (forall v a,
      ok v = true ->
      limits_in_order (TestStageAxis._limits a) -> within_limits a ->
      TestStageAxis._limits (f v a) = TestStageAxis._limits a /\
      within_limits (f v a)) ->
  forallb (fun item => ok (snd item)) items = true ->
  stage_within_limits s -> stage_within_limits (snd (stage_loop f items s)).
Proof.
  intros Hf. revert s. induction items as [| [name v] rest IH];
    intros s Hok Hs; cbn; [exact Hs |].
  cbn in Hok. apply andb_prop in Hok as [Hv Hok].
  destruct (dict_get name s) as [axis |] eqn:E; [| exact Hs].
  apply IH; [exact Hok |]. unfold stage_within_limits in *.
  apply dict_set_Forall; [exact Hs |].
  intros k'. cbn [snd].
  destruct (dict_get_In _ _ _ E) as [k0 Hin].
  rewrite Forall_forall in Hs. destruct (Hs _ Hin) as [Hl Hw].
  cbn [snd] in Hl, Hw. destruct (Hf v axis Hv Hl Hw) as [El W].
  split; [now rewrite El | exact W].
Qed.

(** X18.  A stage whose axes lie within their limits keeps every axis
    within its limits under any sequence of [move_to] and [move_by] calls,
    whether they raise [KeyError] or not, as long as no target is nan and
    every distance is finite. *)
Theorem stage_never_leaves_limits
    (fl : FloatOps) (s : TestStage.t) (ks : list stage_call) :
  stage_within_limits s ->
  forallb numeric_stage_call ks = true ->
  stage_within_limits (fold_left (fun s k => after_stage_call fl k s) ks s).
Proof.
  revert s. induction ks as [| k ks IH]; intros s Hs Hks; cbn [fold_left];
    [exact Hs |].
  cbn [forallb] in Hks. apply andb_prop in Hks as [Hk Hks].
  apply IH; [| exact Hks].
  destruct k as [position | delta]; cbn [after_stage_call numeric_stage_call]
    in *.
  - rewrite stage_move_to_loop.
    apply (stage_loop_within_limits _ (fun v => negb (is_nan v)));
      [| exact Hk | exact Hs].
    intros v a Hv Hl Hw.
    exact (axis_call_within_limits fl (AxisMoveTo v) a Hl
             (within_limits_not_nan a Hw) Hv).
  - rewrite stage_move_by_loop.
    apply (stage_loop_within_limits _ is_finite); [| exact Hk | exact Hs].
    intros v a Hv Hl Hw.
    exact (axis_call_within_limits fl (AxisMoveBy v) a Hl
             (within_limits_not_nan a Hw) Hv).
Qed.

Lemma stage_never_leaves_limits_witness :
  stage_within_limits
    (fold_left (fun s k => after_stage_call float_overflow k s)
       [StageMoveBy [("X"%string, Fin 9000)];
        StageMoveTo [("Y"%string, Inf true); ("W"%string, Fin 0)]]
       (TestStage.__init__ float_overflow
          [("X"%string,
            TestStageAxis.mk_AxisLimits (Fin (-5000)) (Fin 5000));
           ("Y"%string,
            TestStageAxis.mk_AxisLimits (Fin (-10000)) (Fin 12000))])).
Proof.
  apply (stage_never_leaves_limits float_overflow
           (TestStage.__init__ float_overflow
              [("X"%string,
                TestStageAxis.mk_AxisLimits (Fin (-5000)) (Fin 5000));
               ("Y"%string,
                TestStageAxis.mk_AxisLimits (Fin (-10000)) (Fin 12000))])
           [StageMoveBy [("X"%string, Fin 9000)];
            StageMoveTo [("Y"%string, Inf true); ("W"%string, Fin 0)]]).
  - repeat constructor.
  - reflexivity.
Defined.

(** ** Light source *)

Lemma light_calls_state (ks : list light_call) (s : TestLightSource.t) :
  fold_left (fun s k => after_light_call k s) ks s
  = TestLightSource.mk (last_power ks (TestLightSource._power s))
      (last_switch ks (TestLightSource._emission s)).
Proof.
  revert s. induction ks as [| k ks IH]; intros s; cbn [fold_left].
  - now destruct s.
  - rewrite IH. destruct k; reflexivity.
Qed.

(** X19.  After any sequence of enable, disable and set-power calls the
    light source is on exactly if its last switch was an enable, and it
    reports the power last set while it is on and 0 while it is off: the
    power set is kept through a disable and applies again at the next
    enable, also when it was set while the source was off. *)
Theorem light_reports_last_power_only_when_on (ks : list light_call) :
  let s := fold_left (fun s k => after_light_call k s) ks
             TestLightSource.__init__ in
  TestLightSource.get_is_on s = last_switch ks false /\
  TestLightSource._do_get_power s
  = (if last_switch ks false then last_power ks 0 else 0)%Q.
Proof.
  cbv zeta. rewrite light_calls_state. split; reflexivity.
Qed.

(** ** Analog lines and actions of the DSP *)

Lemma py_index_mod (n i : Z) :
  valid_index n i = true ->
  (if i <? 0 then i + n else i) = i mod n /\ 0 <= i mod n < n.
Proof.
  unfold valid_index. intros H. apply andb_prop in H as [H1 H2].
  apply Z.leb_le in H1. apply Z.ltb_lt in H2.
  assert (Hm : 0 <= i mod n < n) by (apply Z.mod_pos_bound; lia).
  split; [| exact Hm].
  destruct (i <? 0) eqn:Ei.
  - apply Z.ltb_lt in Ei. apply (Z.mod_unique_pos i n (-1) (i + n)); lia.
  - apply Z.ltb_ge in Ei. symmetry. apply Z.mod_small. lia.
Qed.

Lemma py_setitem_in_range {A} (t : list A) (i : Z) (v : A) :
  valid_index (Z.of_nat (length t)) i = true ->
  py_setitem t i v
  = Ret (list_update t (Z.to_nat (i mod Z.of_nat (length t))) v).
Proof.
  intros H. destruct (py_index_mod _ _ H) as [Hj Hm].
  unfold py_setitem. rewrite Hj.
  replace (0 <=? i mod Z.of_nat (length t)) with true
    by (symmetry; apply Z.leb_le; lia).
  replace (i mod Z.of_nat (length t) <? Z.of_nat (length t)) with true
    by (symmetry; apply Z.ltb_lt; lia).
  reflexivity.
Qed.

Lemma py_setitem_out_of_range {A} (t : list A) (i : Z) (v : A) :
  valid_index (Z.of_nat (length t)) i = false ->
  py_setitem t i v = Raise IndexError.
Proof.
  intros H. pose proof (py_getitem_out_of_range t i H) as Hg.
  unfold py_getitem in Hg. unfold py_setitem.
  destruct ((0 <=? (if i <? 0 then i + Z.of_nat (length t) else i))
            && ((if i <? 0 then i + Z.of_nat (length t) else i)
                <? Z.of_nat (length t))) eqn:E; [| reflexivity].
  apply andb_prop in E as [E1 E2].
  apply Z.leb_le in E1. apply Z.ltb_lt in E2.
  destruct (nth_error t
              (Z.to_nat (if i <? 0 then i + Z.of_nat (length t) else i)))
    eqn:En; [discriminate |].
  apply nth_error_None in En. lia.
Qed.

Lemma list_update_length {A} (t : list A) (n : nat) (v : A) :
  length (list_update t n v) = length t.
Proof.
  revert n. induction t as [| a r IH]; intros n; [reflexivity |].
  destruct n; cbn; [reflexivity | now rewrite IH].
Qed.

Lemma list_update_nth_same {A} (t : list A) (n : nat) (v d : A) :
  (n < length t)%nat -> nth n (list_update t n v) d = v.
Proof.
  revert n. induction t as [| a r IH]; intros n Hn; cbn in Hn; [lia |].
  destruct n; cbn; [reflexivity | apply IH; lia].
Qed.

Lemma list_update_nth_other {A} (t : list A) (n m : nat) (v d : A) :
  n <> m -> nth m (list_update t n v) d = nth m t d.
Proof.
  revert n m. induction t as [| a r IH]; intros n m Hne; [reflexivity |].
  destruct n, m; cbn; try reflexivity; try lia.
  apply IH. lia.
Qed.

(** X20.  The analog lines of the DSP are a Python list: with [n] lines, a
    line index from -n to n - 1 is accepted and names the line at the
    index modulo n, so that [MoveAbsolute] followed by [ReadPosition] of
    the same line, under either of its two indices, reads the value
    written, every other line reads as before and the number of lines
    stays; any other index raises [IndexError] in both and changes
    nothing. *)
Theorem dsp_analog_lines (aline pos : Z) (self : DummyDSP.t) :
  let n := Z.of_nat (length (DummyDSP._ana self)) in
  if valid_index n aline
  then
    exists self' : DummyDSP.t,
      DummyDSP.MoveAbsolute aline pos self = (Ret tt, self') /\
      length (DummyDSP._ana self') = length (DummyDSP._ana self) /\
      DummyDSP.ReadDigital self' = DummyDSP.ReadDigital self /\
      forall a' : Z,
        valid_index n a' = true ->
        DummyDSP.ReadPosition a' self'
        = (if a' mod n =? aline mod n then Ret pos
           else DummyDSP.ReadPosition a' self)
  else
    DummyDSP.MoveAbsolute aline pos self = (Raise IndexError, self) /\
    DummyDSP.ReadPosition aline self = Raise IndexError.
Proof.
  cbv zeta.
  destruct (valid_index (Z.of_nat (length (DummyDSP._ana self))) aline)
    eqn:Ev.
  - unfold DummyDSP.MoveAbsolute.
    rewrite (py_setitem_in_range _ _ pos Ev).
    destruct (py_index_mod _ _ Ev) as [_ Hm].
    eexists. split; [reflexivity |].
    cbn [DummyDSP._ana DummyDSP.ReadDigital DummyDSP._digi].
    split; [apply list_update_length |]. split; [reflexivity |].
    intros a' Hv. unfold DummyDSP.ReadPosition. cbn [DummyDSP._ana].
    destruct (py_index_mod _ _ Hv) as [_ Hm'].
    rewrite (py_getitem_in_range _ a' 0)
      by (rewrite list_update_length; exact Hv).
    rewrite list_update_length.
    destruct (a' mod Z.of_nat (length (DummyDSP._ana self))
              =? aline mod Z.of_nat (length (DummyDSP._ana self))) eqn:E.
    + apply Z.eqb_eq in E. rewrite E.
      now rewrite list_update_nth_same by lia.
    + apply Z.eqb_neq in E.
      rewrite list_update_nth_other by lia.
      now rewrite (py_getitem_in_range _ a' 0 Hv).
  - unfold DummyDSP.MoveAbsolute, DummyDSP.ReadPosition.
    rewrite (py_setitem_out_of_range _ _ pos Ev).
    now rewrite (py_getitem_out_of_range _ _ Ev).
Qed.




